(** * Typewriter: a shallow embedding of the card desk application

    The development follows the TypeScript sources:
    - [types.ts]                          -> Module [Types]
    - [App.tsx]                           -> Module [App]
    - [components/DraggablePaper.tsx]     -> Module [DraggablePaper]
    - [components/TypewriterConsole.tsx]  -> Module [TypewriterConsole]
    - [services/geminiService.ts]         -> Module [geminiService]

    What the sources take from their surroundings is modelled next to them:
    - Module [JsString]: JavaScript strings and the string methods used;
    - Module [Dom]: mouse and touch events and [Element.closest];
    - Module [React]: when React runs an updater given to a state setter;
    - Module [Desk]: the page as React runs it, that is the state of [App], of
      the console and of every mounted card, the events the page receives
      and the re-render that follows each of them.
    - Module [Binary64]: the drag handlers and the delay of the reveal once
      more, on the numbers JavaScript computes with.

    Conventions.
    - A JavaScript [string] is a list of UTF-16 code units.
    - A JavaScript [number] holding a pixel coordinate, a delay or a sample
      of [Math.random()] is an exact rational ([Q]); arithmetic results are
      compared with [==].  Array indices and lengths are [nat].  Where a
      statement depends on rounding, the code is read in Module [Binary64],
      on IEEE 754 binary64 values ([PrimFloat.float]).
    - React state ([useState]) is a record field, a state setter is a
      record update, and callbacks handed down as props are functions on
      the state of the component that owns them.
    - A handler of a component takes and returns the state it may change:
      its own hooks and, through the callbacks in its props, the state of
      [App].

    Module [Spec] holds the vocabulary of the properties, which are proved in
    the last part of the file. *)

From Stdlib Require Import ZArith QArith List Bool Arith Lia Lqa String Ascii.
From Stdlib Require PrimFloat FloatOps SpecFloat.
Import ListNotations.

Local Open Scope Q_scope.

(** ** JavaScript strings *)

Module JsString.

Definition code_unit := N.
Definition t := list code_unit.

(** A string literal of the sources, one code unit per ASCII character. *)
Definition lit (s : string) : t := map N_of_ascii (list_ascii_of_string s).

Fixpoint eqb (a b : t) : bool :=
  match a, b with
  | [], [] => true
  | c :: a', d :: b' => N.eqb c d && eqb a' b'
  | _, _ => false
  end.

(** [s.charAt(i)]: the one-unit string at index [i], or the empty string
    when [i] is out of range. *)
Definition charAt (s : t) (i : nat) : t :=
  match nth_error s i with
  | Some c => [c]
  | None => []
  end.

(** ECMAScript WhiteSpace and LineTerminator code points, the ones
    [String.prototype.trim] strips. *)
Definition isWhiteSpace (c : code_unit) : bool :=
  (N.eqb c 9 || N.eqb c 10 || N.eqb c 11 || N.eqb c 12 || N.eqb c 13
   || N.eqb c 32 || N.eqb c 160 || N.eqb c 5760
   || (N.leb 8192 c && N.leb c 8202)
   || N.eqb c 8232 || N.eqb c 8233 || N.eqb c 8239 || N.eqb c 8287
   || N.eqb c 12288 || N.eqb c 65279)%bool.

Fixpoint trimStart (s : t) : t :=
  match s with
  | [] => []
  | c :: s' => if isWhiteSpace c then trimStart s' else s
  end.

Definition trimEnd (s : t) : t := rev (trimStart (rev s)).

Definition trim (s : t) : t := trimEnd (trimStart s).

(** Truthiness of a string: only the empty string is falsy. *)
Definition truthy (s : t) : bool :=
  match s with
  | [] => false
  | _ :: _ => true
  end.

End JsString.

(** ** types.ts *)

Module Types.

Module PaperCardData.
Record t := mk {
  id : JsString.t;
  text : JsString.t;
  x : Q;
  y : Q;
  rotation : Q;
  timestamp : Z;
  isTyping : bool
}.

(** [Partial<PaperCardData>]: every field may be absent. *)
Record partial := mkPartial {
  id_ : option JsString.t;
  text_ : option JsString.t;
  x_ : option Q;
  y_ : option Q;
  rotation_ : option Q;
  timestamp_ : option Z;
  isTyping_ : option bool
}.

Definition none : partial := mkPartial None None None None None None None.

Definition or_else {A} (o : option A) (d : A) : A :=
  match o with
  | Some v => v
  | None => d
  end.

(** [{ ...card }] *)
Definition spread (c : t) : t :=
  mk (id c) (text c) (x c) (y c) (rotation c) (timestamp c) (isTyping c).

(** [{ ...card, ...updates }] *)
Definition merge (c : t) (u : partial) : t :=
  mk (or_else (id_ u) (id c)) (or_else (text_ u) (text c))
     (or_else (x_ u) (x c)) (or_else (y_ u) (y c))
     (or_else (rotation_ u) (rotation c))
     (or_else (timestamp_ u) (timestamp c))
     (or_else (isTyping_ u) (isTyping c)).
End PaperCardData.

Inductive TypewriterState := IDLE | THINKING | PRINTING.

Module Coordinates.
Record t := mk { x : Q; y : Q }.
End Coordinates.

End Types.

Import Types.

(** ** DOM events *)

Module Dom.

Inductive Tag := div | button | textarea | input | span | svg | other.

(** An element is known by its tag and the tags of its ancestors up to the
    node the React handler is attached to, innermost first. *)
Definition Element := list Tag.

(** The selector ['button, textarea, input']. *)
Definition matches_interactive (t : Tag) : bool :=
  match t with
  | button | textarea | input => true
  | _ => false
  end.

(** [target.closest('button, textarea, input')]: the nearest inclusive
    ancestor matching the selector, or [null]. *)
Fixpoint closest_interactive (el : Element) : option Element :=
  match el with
  | [] => None
  | t :: up => if matches_interactive t then Some el else closest_interactive up
  end.

Record MouseEvent := mkMouse {
  target : Element;
  clientX : Q;
  clientY : Q
}.

Record Touch := mkTouch { touchX : Q; touchY : Q }.

(** [touches0] is [e.touches[0]]: a touchstart or touchmove event always
    carries at least one touch point.  The handlers call
    [e.preventDefault()] on a cancelable touchmove and [e.stopPropagation()]
    on a pointer-down on a card; neither touches the state of a
    component. *)
Record TouchEvent := mkTouchEvent {
  touchTarget : Element;
  touches0 : Touch;
  cancelable : bool
}.

End Dom.

(** ** App.tsx *)

Module App.

Import PaperCardData.

Record State := mk {
  cards : list PaperCardData.t;
  topZIndex : Z;
  machinePos : Coordinates.t;
  isDraggingMachine : bool;
  machineDragOffset : Coordinates.t
}.

Definition setCards (f : list PaperCardData.t -> list PaperCardData.t) (s : State) : State :=
  mk (f (cards s)) (topZIndex s) (machinePos s) (isDraggingMachine s) (machineDragOffset s).

Definition setTopZIndex (f : Z -> Z) (s : State) : State :=
  mk (cards s) (f (topZIndex s)) (machinePos s) (isDraggingMachine s) (machineDragOffset s).

Definition setMachinePos (p : Coordinates.t) (s : State) : State :=
  mk (cards s) (topZIndex s) p (isDraggingMachine s) (machineDragOffset s).

Definition setIsDraggingMachine (b : bool) (s : State) : State :=
  mk (cards s) (topZIndex s) (machinePos s) b (machineDragOffset s).

Definition setMachineDragOffset (p : Coordinates.t) (s : State) : State :=
  mk (cards s) (topZIndex s) (machinePos s) (isDraggingMachine s) p.

Definition useState_initial (innerWidth innerHeight : Q) : State :=
  mk [] 10
     (Coordinates.mk (innerWidth / 2 - (if Qlt_le_dec innerWidth 768 then 175 else 220))
                     (innerHeight - 400))
     false (Coordinates.mk 0 0).

(** The effect run once on mount re-centres the machine. *)
Definition mount (innerWidth innerHeight : Q) : State :=
  let width := if Qlt_le_dec innerWidth 768 then 350 else 440 in
  setMachinePos (Coordinates.mk (innerWidth / 2 - (width / 2)) (innerHeight - 380))
                (useState_initial innerWidth innerHeight).

(** *** Machine dragging (mouse) *)

Definition handleMachineMouseDown (e : Dom.MouseEvent) (s : State) : State :=
  match Dom.closest_interactive (Dom.target e) with
  | Some _ => s
  | None =>
      let s := setIsDraggingMachine true s in
      setMachineDragOffset
        (Coordinates.mk (Dom.clientX e - Coordinates.x (machinePos s))
                        (Dom.clientY e - Coordinates.y (machinePos s))) s
  end.

Definition handleMouseMove (e : Dom.MouseEvent) (s : State) : State :=
  if isDraggingMachine s then
    setMachinePos
      (Coordinates.mk (Dom.clientX e - Coordinates.x (machineDragOffset s))
                      (Dom.clientY e - Coordinates.y (machineDragOffset s))) s
  else s.

Definition handleMouseUp (s : State) : State := setIsDraggingMachine false s.

(** *** Machine dragging (touch) *)

Definition handleMachineTouchStart (e : Dom.TouchEvent) (s : State) : State :=
  match Dom.closest_interactive (Dom.touchTarget e) with
  | Some _ => s
  | None =>
      let touch := Dom.touches0 e in
      let s := setIsDraggingMachine true s in
      setMachineDragOffset
        (Coordinates.mk (Dom.touchX touch - Coordinates.x (machinePos s))
                        (Dom.touchY touch - Coordinates.y (machinePos s))) s
  end.

Definition handleTouchMove (e : Dom.TouchEvent) (s : State) : State :=
  if isDraggingMachine s then
    let touch := Dom.touches0 e in
    setMachinePos
      (Coordinates.mk (Dom.touchX touch - Coordinates.x (machineDragOffset s))
                      (Dom.touchY touch - Coordinates.y (machineDragOffset s))) s
  else s.

Definition handleTouchEnd (s : State) : State := setIsDraggingMachine false s.

(** *** Cards *)

(** What [handlePrint] reads from its surroundings: the window width, the
    identifier returned by [crypto.randomUUID()], the sample returned by
    [Math.random()] and the clock ([Date.now()]). *)
Record PrintEnv := mkPrintEnv {
  innerWidth : Q;
  randomUUID : JsString.t;
  random : Q;
  now : Z
}.

Section WithConstants.

(** [DEFAULT_CARD_WIDTH], imported from [./constants]. *)
Variable DEFAULT_CARD_WIDTH : Q.

Definition handlePrint (env : PrintEnv) (text : JsString.t) (s : State) : State :=
  let machineWidth := if Qlt_le_dec (innerWidth env) 768 then 350 else 440 in
  let machineCenterX := Coordinates.x (machinePos s) + (machineWidth / 2) in
  let centerX := machineCenterX - (DEFAULT_CARD_WIDTH / 2) in
  let targetY := Coordinates.y (machinePos s) - 180 in
  let newCard :=
    PaperCardData.mk (randomUUID env) text centerX targetY
                     (random env * 4 - 2) (now env) true in
  setCards (fun prev => prev ++ [newCard]) s.

End WithConstants.

Definition handleUpdateCard (id0 : JsString.t) (updates : PaperCardData.partial)
    (s : State) : State :=
  setCards (fun prev =>
    map (fun card => if JsString.eqb (id card) id0 then merge card updates else card) prev) s.

Definition handleDeleteCard (id0 : JsString.t) (s : State) : State :=
  setCards (fun prev => filter (fun card => negb (JsString.eqb (id card) id0)) prev) s.

(** [confirmed] is the answer of [window.confirm]. *)
Definition handleClearAll (confirmed : bool) (s : State) : State :=
  if confirmed then setCards (fun _ => []) s else s.

Definition handleFocus (id0 : JsString.t) (s : State) : State :=
  let s :=
    setTopZIndex (fun prev => let newZ := (prev + 1)%Z in newZ)
      (setCards (fun prevCards =>
         map (fun c => if JsString.eqb (id c) id0 then spread c else c) prevCards) s) in
  setCards (fun prev =>
    match find (fun c => JsString.eqb (id c) id0) prev with
    | None => prev
    | Some card => filter (fun c => negb (JsString.eqb (id c) id0)) prev ++ [card]
    end) s.

(** [cards.map((card, index) => <DraggablePaper key={card.id}
    zIndex={index + 10} ... />)]: the key and the z-index each card is
    rendered with, in render order. *)
Fixpoint zIndexes_from (index : nat) (l : list PaperCardData.t)
    : list (JsString.t * Z) :=
  match l with
  | [] => []
  | card :: l' => (id card, (Z.of_nat index + 10)%Z) :: zIndexes_from (S index) l'
  end.

Definition zIndexes (s : State) : list (JsString.t * Z) :=
  zIndexes_from 0 (cards s).

End App.

(** ** React state hooks

    A state setter receives either the next value or an updater function.
    React may compute the next state at once when the hook has no pending
    update (its eager path); otherwise it queues the action and applies the
    queue during the next render, after the handler that called the setter
    has returned.  An updater written as a closure over a ref therefore reads
    the ref as it is when the updater runs, not as it was when the setter was
    called.  [UpdaterTiming] records which of the two React does for one
    call; it is chosen by React, not by the component. *)

Module React.

Inductive UpdaterTiming := AtDispatch | AtRender.

End React.

(** ** components/DraggablePaper.tsx *)

Module DraggablePaper.

Import PaperCardData.

Record Props := mkProps {
  data : PaperCardData.t;
  onUpdate : JsString.t -> PaperCardData.partial -> App.State -> App.State;
  onDelete : JsString.t -> App.State -> App.State;
  onFocus : App.State -> App.State
}.

(** An action queued on the [displayedText] hook.  The only updater of the
    component closes over the ref [textIndex]: it is a function of
    [textIndex.current] and of the pending state. *)
Inductive Action :=
| SetValue (v : JsString.t)
| SetUpdater (f : nat -> JsString.t -> JsString.t).

(** The hooks of one mounted card.
    - [pendingDisplayedText]: actions queued on [displayedText], oldest first;
    - [textIndex]: [textIndex.current];
    - [typingTimeout]: the timer held in [typingTimeout.current] while it is
      pending, with its delay in milliseconds; [None] when no timer is
      pending (never set, fired, or cleared by [clearTimeout]);
    - [typingDeps]: the dependencies [data.isTyping, data.text] the typing
      effect last ran with; [None] before the first commit. *)
Record State := mk {
  isDragging : bool;
  dragOffset : Coordinates.t;
  displayedText : JsString.t;
  pendingDisplayedText : list Action;
  textIndex : nat;
  typingTimeout : option Q;
  typingDeps : option (bool * JsString.t)
}.

Definition useState_initial : State :=
  mk false (Coordinates.mk 0 0) [] [] 0%nat None None.

Definition setIsDragging (b : bool) (st : State) : State :=
  mk b (dragOffset st) (displayedText st) (pendingDisplayedText st)
     (textIndex st) (typingTimeout st) (typingDeps st).

Definition setDragOffset (o : Coordinates.t) (st : State) : State :=
  mk (isDragging st) o (displayedText st) (pendingDisplayedText st)
     (textIndex st) (typingTimeout st) (typingDeps st).

Definition set_textIndex (i : nat) (st : State) : State :=
  mk (isDragging st) (dragOffset st) (displayedText st) (pendingDisplayedText st)
     i (typingTimeout st) (typingDeps st).

Definition set_typingTimeout (h : option Q) (st : State) : State :=
  mk (isDragging st) (dragOffset st) (displayedText st) (pendingDisplayedText st)
     (textIndex st) h (typingDeps st).

Definition set_typingDeps (d : option (bool * JsString.t)) (st : State) : State :=
  mk (isDragging st) (dragOffset st) (displayedText st) (pendingDisplayedText st)
     (textIndex st) (typingTimeout st) d.

Definition apply_action (a : Action) (textIndex_current : nat) (prev : JsString.t)
    : JsString.t :=
  match a with
  | SetValue v => v
  | SetUpdater f => f textIndex_current prev
  end.

(** [setDisplayedText(a)].  The eager path is open only when nothing is
    queued on the hook. *)
Definition setDisplayedText (timing : React.UpdaterTiming) (a : Action) (st : State)
    : State :=
  match timing, pendingDisplayedText st with
  | React.AtDispatch, [] =>
      mk (isDragging st) (dragOffset st)
         (apply_action a (textIndex st) (displayedText st)) []
         (textIndex st) (typingTimeout st) (typingDeps st)
  | _, q =>
      mk (isDragging st) (dragOffset st) (displayedText st) (q ++ [a])
         (textIndex st) (typingTimeout st) (typingDeps st)
  end.

(** A render applies the queued actions in order; the updaters read the
    refs as they are now. *)
Definition render (st : State) : State :=
  mk (isDragging st) (dragOffset st)
     (fold_left (fun d a => apply_action a (textIndex st) d)
                (pendingDisplayedText st) (displayedText st))
     [] (textIndex st) (typingTimeout st) (typingDeps st).

(** *** Typing effect *)

(** The delay drawn after a character, [Math.random() * variance + minDelay],
    for a text of [length] code units and a sample [random] of
    [Math.random()]. *)
Definition delay (length : nat) (random : Q) : Q :=
  let '(minDelay, variance) :=
    if (150 <? length)%nat then (5, 15)
    else if (50 <? length)%nat then (15, 25)
    else (30, 50) in
  random * variance + minDelay.

(** [typeNextChar], run when the typing timer fires. *)
Definition typeNextChar (p : Props) (timing : React.UpdaterTiming) (random : Q)
    (w : State * App.State) : State * App.State :=
  let '(st, app) := w in
  if (textIndex st <? List.length (text (data p)))%nat then
    let st :=
      setDisplayedText timing
        (SetUpdater (fun textIndex_current prev =>
                       prev ++ JsString.charAt (text (data p)) textIndex_current)) st in
    let st := set_textIndex (S (textIndex st)) st in
    let st := set_typingTimeout (Some (delay (List.length (text (data p))) random)) st in
    (st, app)
  else
    (st, onUpdate p (id (data p))
           (mkPartial None None None None None None (Some false)) app).

(** The body of the typing effect and its cleanup. *)
Definition typingEffect (p : Props) (st : State) : State :=
  if isTyping (data p) then
    let st := setDisplayedText React.AtRender (SetValue []) st in
    let st := set_textIndex 0 st in
    set_typingTimeout (Some 100) st
  else
    setDisplayedText React.AtRender (SetValue (text (data p))) st.

Definition typingEffect_cleanup (st : State) : State :=
  set_typingTimeout None st.

Definition deps_eqb (a b : bool * JsString.t) : bool :=
  Bool.eqb (fst a) (fst b) && JsString.eqb (snd a) (snd b).

(** [useEffect(..., [data.isTyping, data.text])]: on mount, and whenever a
    dependency changed since the last run (cleanup first). *)
Definition useEffect_typing (p : Props) (st : State) : State :=
  let deps := (isTyping (data p), text (data p)) in
  match typingDeps st with
  | None => set_typingDeps (Some deps) (typingEffect p st)
  | Some d =>
      if deps_eqb d deps then st
      else set_typingDeps (Some deps) (typingEffect p (typingEffect_cleanup st))
  end.

(** One commit of the component: render, run the effect, and render again
    for the updates the effect queued. *)
Definition commit (p : Props) (st : State) : State :=
  render (useEffect_typing p (render st)).

(** Unmount: the cleanup of the typing effect. *)
Definition unmount (st : State) : State := typingEffect_cleanup st.

(** *** Mouse handlers *)

Definition handleMouseDown (p : Props) (e : Dom.MouseEvent)
    (w : State * App.State) : State * App.State :=
  let '(st, app) := w in
  let app := onFocus p app in
  let st := setIsDragging true st in
  let st := setDragOffset
              (Coordinates.mk (Dom.clientX e - x (data p))
                              (Dom.clientY e - y (data p))) st in
  (st, app).

Definition handleMouseMove (p : Props) (e : Dom.MouseEvent)
    (w : State * App.State) : State * App.State :=
  let '(st, app) := w in
  if isDragging st then
    (st, onUpdate p (id (data p))
           (mkPartial None None
              (Some (Dom.clientX e - Coordinates.x (dragOffset st)))
              (Some (Dom.clientY e - Coordinates.y (dragOffset st)))
              None None None) app)
  else (st, app).

Definition handleMouseUp (st : State) : State := setIsDragging false st.

(** *** Touch handlers *)

Definition handleTouchStart (p : Props) (e : Dom.TouchEvent)
    (w : State * App.State) : State * App.State :=
  let '(st, app) := w in
  let app := onFocus p app in
  let touch := Dom.touches0 e in
  let st := setIsDragging true st in
  let st := setDragOffset
              (Coordinates.mk (Dom.touchX touch - x (data p))
                              (Dom.touchY touch - y (data p))) st in
  (st, app).

Definition handleTouchMove (p : Props) (e : Dom.TouchEvent)
    (w : State * App.State) : State * App.State :=
  let '(st, app) := w in
  if isDragging st then
    let touch := Dom.touches0 e in
    (st, onUpdate p (id (data p))
           (mkPartial None None
              (Some (Dom.touchX touch - Coordinates.x (dragOffset st)))
              (Some (Dom.touchY touch - Coordinates.y (dragOffset st)))
              None None None) app)
  else (st, app).

Definition handleTouchEnd (st : State) : State := setIsDragging false st.

(** *** Values computed while rendering *)

(** [progress]: how much of the text is shown, [0] for an empty text. *)
Definition progress (p : Props) (st : State) : Q :=
  if (0 <? List.length (text (data p)))%nat then
    inject_Z (Z.of_nat (List.length (displayedText st)))
    / inject_Z (Z.of_nat (List.length (text (data p))))
  else 0.

(** [typingTranslateY]: the vertical offset of the paper, in percent. *)
Definition typingTranslateY (p : Props) (st : State) : Q :=
  100 - (progress p st * 85).

(** The delete button, rendered only when the card is not typing. *)
Definition deleteButton_onClick (p : Props) (app : App.State) : App.State :=
  onDelete p (id (data p)) app.

End DraggablePaper.

(** ** services/geminiService.ts *)

Module geminiService.

(** The result of running code that may throw. *)
Inductive Completion (A : Type) :=
| Returned (a : A)
| Thrown (message : JsString.t).
Arguments Returned {A} a.
Arguments Thrown {A} message.

Definition bind {A B} (c : Completion A) (k : A -> Completion B) : Completion B :=
  match c with
  | Returned a => k a
  | Thrown m => Thrown m
  end.

(** [try { body } catch (error) { handler }] *)
Definition try_catch {A} (body : Completion A) (handler : JsString.t -> Completion A)
    : Completion A :=
  match body with
  | Returned a => Returned a
  | Thrown m => handler m
  end.

Notation "x <- c ;; k" := (bind c (fun x => k))
  (at level 61, c at next level, right associativity).

Record GoogleGenAI := mkClient { apiKey : JsString.t }.

(** [response.text] is a string or [undefined]. *)
Record GenerateContentResponse := mkResponse { text : option JsString.t }.

(** The surroundings of the service: the environment variable [API_KEY]
    ([None] when it is not defined) and the remote model, which answers a
    request or fails. *)
Record Env := mkEnv {
  API_KEY : option JsString.t;
  generateContent :
    GoogleGenAI -> JsString.t -> JsString.t -> Completion GenerateContentResponse
}.

Definition getClient (env : Env) : Completion GoogleGenAI :=
  match API_KEY env with
  | Some apiKey =>
      if JsString.truthy apiKey then Returned (mkClient apiKey)
      else Thrown (JsString.lit "API Key not found")
  | None => Thrown (JsString.lit "API Key not found")
  end.

Definition prompt_of (inputText : JsString.t) : JsString.t :=
  JsString.lit "Rewrite the following text to sound like a vintage letter or telegram from the 1920s. Keep it concise but evocative. Use a typewriter style tone."
  ++ [10%N] ++ JsString.lit "    " ++ [10%N]
  ++ JsString.lit "    Input text: " ++ [34%N] ++ inputText ++ [34%N].

(** [a || b] on a string or [undefined] on the left. *)
Definition or_string (a : option JsString.t) (b : JsString.t) : JsString.t :=
  match a with
  | Some s => if JsString.truthy s then s else b
  | None => b
  end.

Definition polishTextToVintage (env : Env) (inputText : JsString.t)
    : Completion JsString.t :=
  try_catch
    (ai <- getClient env ;;
     let prompt := prompt_of inputText in
     response <- generateContent env ai (JsString.lit "gemini-2.5-flash") prompt ;;
     Returned (or_string (text response) inputText))
    (fun error => Returned inputText).

End geminiService.

(** ** components/TypewriterConsole.tsx *)

Module TypewriterConsole.

Record Props := mkProps {
  onPrint : JsString.t -> App.State -> App.State;
  onClearAll : App.State -> App.State
}.

Record State := mk {
  input : JsString.t;
  state : TypewriterState
}.

Definition useState_initial : State := mk [] IDLE.

Definition setInput (v : JsString.t) (st : State) : State := mk v (state st).

Definition setState (v : TypewriterState) (st : State) : State := mk (input st) v.

(** [handlePolish] up to its [await]: the state it leaves and, when it
    reaches the call, the argument given to [polishTextToVintage]. *)
Definition handlePolish (st : State) : State * option JsString.t :=
  if negb (JsString.truthy (JsString.trim (input st))) then (st, None)
  else (setState THINKING st, Some (input st)).

(** [handlePolish] after its [await], given how the promise settled.  A
    rejected promise would leave the function by the exception. *)
Definition handlePolish_resume (polished : geminiService.Completion JsString.t)
    (st : State) : State :=
  match polished with
  | geminiService.Returned p => setState IDLE (setInput p st)
  | geminiService.Thrown _ => st
  end.

(** The whole of [handlePolish], with the service in environment [env]. *)
Definition handlePolish_run (env : geminiService.Env) (st : State) : State :=
  match handlePolish st with
  | (st', Some arg) =>
      handlePolish_resume (geminiService.polishTextToVintage env arg) st'
  | (st', None) => st'
  end.

(** [playPrintSound] catches whatever the audio API throws and touches no
    state of the application. *)
Definition playPrintSound (w : State * App.State) : State * App.State := w.

Definition handlePrint (p : Props) (w : State * App.State) : State * App.State :=
  let '(st, app) := w in
  if negb (JsString.truthy (JsString.trim (input st))) then (st, app)
  else
    let '(st, app) := playPrintSound (st, app) in
    let app := onPrint p (input st) app in
    (setInput [] st, app).

(** The [disabled] attribute of the rewrite and print buttons. *)
Definition is_IDLE (v : TypewriterState) : bool :=
  match v with
  | IDLE => true
  | _ => false
  end.

Definition button_disabled (st : State) : bool :=
  negb (is_IDLE (state st)) || negb (JsString.truthy (JsString.trim (input st))).

(** A click on the rewrite button: a disabled button dispatches no click. *)
Definition polishButton_onClick (st : State) : State * option JsString.t :=
  if button_disabled st then (st, None) else handlePolish st.

Definition printButton_onClick (p : Props) (w : State * App.State)
    : State * App.State :=
  if button_disabled (fst w) then w else handlePrint p w.

Definition textarea_onChange (value : JsString.t) (st : State) : State :=
  setInput value st.

End TypewriterConsole.

(** ** The page: the App, its console and the mounted cards

    [papers] holds the hooks of every mounted [DraggablePaper], keyed by the
    React key of the element, [card.id]. *)

Module Desk.

Import PaperCardData.

Record World := mk {
  app : App.State;
  console : TypewriterConsole.State;
  papers : list (JsString.t * DraggablePaper.State);
  (** arguments of the calls to [polishTextToVintage] not settled yet *)
  polishing : list JsString.t
}.

Fixpoint lookup (k : JsString.t) (l : list (JsString.t * DraggablePaper.State))
    : option DraggablePaper.State :=
  match l with
  | [] => None
  | (k', v) :: l' => if JsString.eqb k' k then Some v else lookup k l'
  end.

Fixpoint update (k : JsString.t) (v : DraggablePaper.State)
    (l : list (JsString.t * DraggablePaper.State))
    : list (JsString.t * DraggablePaper.State) :=
  match l with
  | [] => []
  | (k', v') :: l' =>
      if JsString.eqb k' k then (k', v) :: l' else (k', v') :: update k v l'
  end.

Definition findCard (id0 : JsString.t) (s : App.State) : option PaperCardData.t :=
  find (fun c => JsString.eqb (id c) id0) (App.cards s).

(** The props [App] gives to the [DraggablePaper] of [card]. *)
Definition propsFor (card : PaperCardData.t) : DraggablePaper.Props :=
  DraggablePaper.mkProps card App.handleUpdateCard App.handleDeleteCard
                         (App.handleFocus (id card)).

Definition mounted_or_new (o : option DraggablePaper.State) : DraggablePaper.State :=
  match o with
  | Some st => st
  | None => DraggablePaper.useState_initial
  end.

(** [cards.map(card => <DraggablePaper key={card.id} data={card} ... />)]:
    a card whose key is mounted keeps its hooks, a new key is mounted, a
    key that is gone is unmounted; every rendered card is committed. *)
Definition reconcile (s : App.State) (mounted : list (JsString.t * DraggablePaper.State))
    : list (JsString.t * DraggablePaper.State) :=
  map (fun card =>
         (id card,
          DraggablePaper.commit (propsFor card) (mounted_or_new (lookup (id card) mounted))))
      (App.cards s).

(** Run a handler of [App] (or a callback it handed down), then re-render. *)
Definition withApp (h : App.State -> App.State) (w : World) : World :=
  let app' := h (app w) in
  mk app' (console w) (reconcile app' (papers w)) (polishing w).

(** Run a handler of the card mounted under key [id0], then re-render. *)
Definition withPaper (id0 : JsString.t)
    (h : DraggablePaper.Props -> DraggablePaper.State * App.State ->
         DraggablePaper.State * App.State)
    (w : World) : World :=
  match findCard id0 (app w), lookup id0 (papers w) with
  | Some card, Some st =>
      let '(st', app') := h (propsFor card) (st, app w) in
      mk app' (console w) (reconcile app' (update id0 st' (papers w))) (polishing w)
  | _, _ => w
  end.

(** Deliver an event of [window] to the listener of every mounted card. *)
Definition withEveryPaper
    (h : DraggablePaper.Props -> DraggablePaper.State * App.State ->
         DraggablePaper.State * App.State)
    (w : World) : World :=
  fold_left (fun w id0 => withPaper id0 h w) (map fst (papers w)) w.

(** The typing timer of card [id0] fires, if one is pending. *)
Definition typingTimerFires (id0 : JsString.t) (timing : React.UpdaterTiming)
    (random : Q) (w : World) : World :=
  withPaper id0
    (fun p '(st, s) =>
       match DraggablePaper.typingTimeout st with
       | Some _ =>
           DraggablePaper.typeNextChar p timing random
             (DraggablePaper.set_typingTimeout None st, s)
       | None => (st, s)
       end) w.

(** A pointer-down reaches a card only when it is not typing: its root has
    the class [pointer-events-none] while [data.isTyping]. *)
Definition paperPointerDown (id0 : JsString.t)
    (h : DraggablePaper.Props -> DraggablePaper.State * App.State ->
         DraggablePaper.State * App.State)
    (w : World) : World :=
  match findCard id0 (app w) with
  | Some card => if isTyping card then w else withPaper id0 h w
  | None => w
  end.

Inductive Event :=
| MachineMouseDown (e : Dom.MouseEvent)
| MachineTouchStart (e : Dom.TouchEvent)
| PaperMouseDown (id0 : JsString.t) (e : Dom.MouseEvent)
| PaperTouchStart (id0 : JsString.t) (e : Dom.TouchEvent)
| WindowMouseMove (e : Dom.MouseEvent)
| WindowMouseUp
| WindowTouchMove (e : Dom.TouchEvent)
| WindowTouchEnd
| TypingTimerFires (id0 : JsString.t) (timing : React.UpdaterTiming) (random : Q)
| DeleteButtonClick (id0 : JsString.t)
| ClearButtonClick (confirmed : bool)
| PrintButtonClick (env : App.PrintEnv)
| PolishButtonClick
| PolishSettles (env : geminiService.Env)
| TextareaChange (value : JsString.t).

Section WithConstants.

Variable DEFAULT_CARD_WIDTH : Q.

Definition consoleProps (env : App.PrintEnv) (confirmed : bool)
    : TypewriterConsole.Props :=
  TypewriterConsole.mkProps (App.handlePrint DEFAULT_CARD_WIDTH env)
                            (App.handleClearAll confirmed).

(** [handlePrint] of the console, with [onPrint] bound to [App.handlePrint]. *)
Definition submit (env : App.PrintEnv) (w : World) : World :=
  let '(k, s) :=
    TypewriterConsole.handlePrint (consoleProps env false) (console w, app w) in
  mk s k (reconcile s (papers w)) (polishing w).

Definition printButtonClick (env : App.PrintEnv) (w : World) : World :=
  if TypewriterConsole.button_disabled (console w) then w else submit env w.

Definition polishButtonClick (w : World) : World :=
  match TypewriterConsole.polishButton_onClick (console w) with
  | (k, Some arg) => mk (app w) k (papers w) (polishing w ++ [arg])
  | (k, None) => mk (app w) k (papers w) (polishing w)
  end.

Definition polishSettles (env : geminiService.Env) (w : World) : World :=
  match polishing w with
  | [] => w
  | arg :: rest =>
      mk (app w)
         (TypewriterConsole.handlePolish_resume
            (geminiService.polishTextToVintage env arg) (console w))
         (papers w) rest
  end.

Definition step (ev : Event) (w : World) : World :=
  match ev with
  | MachineMouseDown e => withApp (App.handleMachineMouseDown e) w
  | MachineTouchStart e => withApp (App.handleMachineTouchStart e) w
  | PaperMouseDown id0 e =>
      paperPointerDown id0 (fun p => DraggablePaper.handleMouseDown p e) w
  | PaperTouchStart id0 e =>
      paperPointerDown id0 (fun p => DraggablePaper.handleTouchStart p e) w
  | WindowMouseMove e =>
      withEveryPaper (fun p => DraggablePaper.handleMouseMove p e)
                     (withApp (App.handleMouseMove e) w)
  | WindowMouseUp =>
      withEveryPaper (fun _ '(st, s) => (DraggablePaper.handleMouseUp st, s))
                     (withApp App.handleMouseUp w)
  | WindowTouchMove e =>
      withEveryPaper (fun p => DraggablePaper.handleTouchMove p e)
                     (withApp (App.handleTouchMove e) w)
  | WindowTouchEnd =>
      withEveryPaper (fun _ '(st, s) => (DraggablePaper.handleTouchEnd st, s))
                     (withApp App.handleTouchEnd w)
  | TypingTimerFires id0 timing random => typingTimerFires id0 timing random w
  | DeleteButtonClick id0 =>
      match findCard id0 (app w) with
      | Some card =>
          if isTyping card then w
          else withApp (DraggablePaper.deleteButton_onClick (propsFor card)) w
      | None => w
      end
  | ClearButtonClick confirmed => withApp (App.handleClearAll confirmed) w
  | PrintButtonClick env => printButtonClick env w
  | PolishButtonClick => polishButtonClick w
  | PolishSettles env => polishSettles env w
  | TextareaChange value =>
      mk (app w) (TypewriterConsole.textarea_onChange value (console w))
         (papers w) (polishing w)
  end.

Definition run (evs : list Event) (w : World) : World :=
  fold_left (fun w ev => step ev w) evs w.

Definition initial (innerWidth innerHeight : Q) : World :=
  mk (App.mount innerWidth innerHeight) TypewriterConsole.useState_initial [] [].

End WithConstants.

End Desk.

(** ** The drag handlers and the delay, on binary64 numbers

    A JavaScript [number] is an IEEE 754 binary64 value, and [-], [*] and
    [+] round to nearest, ties to even: the operations of [PrimFloat].  This
    module gives the code that computes positions and delays once more, with
    that arithmetic.  It keeps the state a drag reads and writes and leaves
    out what does not bear on the numbers (the other cards, the stacking
    counter, the re-render). *)

Module Binary64.

Import PrimFloat.
Local Open Scope float_scope.

Module Coordinates.
Record t := mk { x : float; y : float }.
End Coordinates.

Record MouseEvent := mkMouse {
  target : Dom.Element;
  clientX : float;
  clientY : float
}.

Record Touch := mkTouch { touchX : float; touchY : float }.

Record TouchEvent := mkTouchEvent {
  touchTarget : Dom.Element;
  touches0 : Touch;
  cancelable : bool
}.

(** *** App.tsx: the machine *)

Module App.

Record State := mk {
  machinePos : Coordinates.t;
  isDraggingMachine : bool;
  machineDragOffset : Coordinates.t
}.

Definition handleMachineMouseDown (e : MouseEvent) (s : State) : State :=
  match Dom.closest_interactive (target e) with
  | Some _ => s
  | None =>
      mk (machinePos s) true
         (Coordinates.mk (clientX e - Coordinates.x (machinePos s))
                         (clientY e - Coordinates.y (machinePos s)))
  end.

Definition handleMouseMove (e : MouseEvent) (s : State) : State :=
  if isDraggingMachine s then
    mk (Coordinates.mk (clientX e - Coordinates.x (machineDragOffset s))
                       (clientY e - Coordinates.y (machineDragOffset s)))
       (isDraggingMachine s) (machineDragOffset s)
  else s.

Definition handleMouseUp (s : State) : State :=
  mk (machinePos s) false (machineDragOffset s).

Definition handleMachineTouchStart (e : TouchEvent) (s : State) : State :=
  match Dom.closest_interactive (touchTarget e) with
  | Some _ => s
  | None =>
      let touch := touches0 e in
      mk (machinePos s) true
         (Coordinates.mk (touchX touch - Coordinates.x (machinePos s))
                         (touchY touch - Coordinates.y (machinePos s)))
  end.

Definition handleTouchMove (e : TouchEvent) (s : State) : State :=
  if isDraggingMachine s then
    let touch := touches0 e in
    mk (Coordinates.mk (touchX touch - Coordinates.x (machineDragOffset s))
                       (touchY touch - Coordinates.y (machineDragOffset s)))
       (isDraggingMachine s) (machineDragOffset s)
  else s.

Definition handleTouchEnd (s : State) : State :=
  mk (machinePos s) false (machineDragOffset s).

End App.

(** *** components/DraggablePaper.tsx: a card *)

Module DraggablePaper.

(** [data]: the position [data.x], [data.y] of the card, which
    [onUpdate(data.id, { x, y })] replaces ([handleUpdateCard] merges the
    two fields into the card and the next render passes them down);
    [isDragging] and [dragOffset]: the hooks of the component.
    [onFocus()] reorders the cards and changes no position. *)
Record State := mk {
  data : Coordinates.t;
  isDragging : bool;
  dragOffset : Coordinates.t
}.

Definition handleMouseDown (e : MouseEvent) (st : State) : State :=
  mk (data st) true
     (Coordinates.mk (clientX e - Coordinates.x (data st))
                     (clientY e - Coordinates.y (data st))).

Definition handleMouseMove (e : MouseEvent) (st : State) : State :=
  if isDragging st then
    mk (Coordinates.mk (clientX e - Coordinates.x (dragOffset st))
                       (clientY e - Coordinates.y (dragOffset st)))
       (isDragging st) (dragOffset st)
  else st.

Definition handleMouseUp (st : State) : State :=
  mk (data st) false (dragOffset st).

Definition handleTouchStart (e : TouchEvent) (st : State) : State :=
  let touch := touches0 e in
  mk (data st) true
     (Coordinates.mk (touchX touch - Coordinates.x (data st))
                     (touchY touch - Coordinates.y (data st))).

Definition handleTouchMove (e : TouchEvent) (st : State) : State :=
  if isDragging st then
    let touch := touches0 e in
    mk (Coordinates.mk (touchX touch - Coordinates.x (dragOffset st))
                       (touchY touch - Coordinates.y (dragOffset st)))
       (isDragging st) (dragOffset st)
  else st.

Definition handleTouchEnd (st : State) : State :=
  mk (data st) false (dragOffset st).

(** [Math.random() * variance + minDelay] *)
Definition delay (length : nat) (random : float) : float :=
  let '(minDelay, variance) :=
    if (150 <? length)%nat then (5, 15)
    else if (50 <? length)%nat then (15, 25)
    else (30, 50) in
  random * variance + minDelay.

End DraggablePaper.

End Binary64.

(** * Vocabulary of the properties *)

Module Spec.

Import PaperCardData.

(** *** The rewrite service *)

Section Service.

Import geminiService.

(** What the remote model answered to the request made for [inputText],
    if the request was made and answered. *)
Definition answer (env : Env) (inputText : JsString.t) : option JsString.t :=
  match getClient env with
  | Returned ai =>
      match generateContent env ai (JsString.lit "gemini-2.5-flash")
                            (prompt_of inputText) with
      | Returned response => text response
      | Thrown _ => None
      end
  | Thrown _ => None
  end.

(** The three ways the rewrite can fail. *)
Inductive Failure (env : Env) (inputText : JsString.t) : Prop :=
| MissingCredential :
    API_KEY env = None \/ API_KEY env = Some [] -> Failure env inputText
| TransportError ai message :
    getClient env = Returned ai ->
    generateContent env ai (JsString.lit "gemini-2.5-flash") (prompt_of inputText)
      = Thrown message ->
    Failure env inputText
| EmptyResponse ai response :
    getClient env = Returned ai ->
    generateContent env ai (JsString.lit "gemini-2.5-flash") (prompt_of inputText)
      = Returned response ->
    text response = None \/ text response = Some [] ->
    Failure env inputText.

End Service.

(** *** Cadence *)

(** A sample of [Math.random()]. *)
Definition in_unit (r : Q) : Prop := 0 <= r /\ r < 1.

Definition sum (l : list Q) : Q := fold_right Qplus 0 l.

Definition count (l : list Q) : Q := inject_Z (Z.of_nat (List.length l)).

Definition mean (l : list Q) : Q := sum l / count l.

(** *** Cards and their components *)

(** What the card shows after the next render. *)
Definition rendered (st : DraggablePaper.State) : JsString.t :=
  DraggablePaper.displayedText (DraggablePaper.render st).

(** A component is consistent with the dependencies its typing effect last
    ran with: once the effect ran for a card that is not typing, no timer
    is pending and the card shows its whole text; while it runs for a card
    that is typing, the index is within the text. *)
Definition ok (st : DraggablePaper.State) : Prop :=
  match DraggablePaper.typingDeps st with
  | None => DraggablePaper.typingTimeout st = None
  | Some (b, t) =>
      (b = false -> DraggablePaper.typingTimeout st = None /\ rendered st = t) /\
      (b = true -> (DraggablePaper.textIndex st <= List.length t)%nat)
  end.

(** The mounted components are those of the cards, each committed with the
    data of its card. *)
Definition Inv (w : Desk.World) : Prop :=
  forall i,
    match Desk.findCard i (Desk.app w), Desk.lookup i (Desk.papers w) with
    | Some c, Some st =>
        DraggablePaper.typingDeps st = Some (isTyping c, text c) /\
        DraggablePaper.pendingDisplayedText st = [] /\
        ok st
    | None, None => True
    | _, _ => False
    end.

Definition all_ok (ps : list (JsString.t * DraggablePaper.State)) : Prop :=
  forall i st, Desk.lookup i ps = Some st -> ok st.

(** A handler of a card keeps an up-to-date component consistent. *)
Definition handler_ok
    (h : DraggablePaper.Props -> DraggablePaper.State * App.State ->
         DraggablePaper.State * App.State) : Prop :=
  forall p st s,
    DraggablePaper.typingDeps st
      = Some (isTyping (DraggablePaper.data p), text (DraggablePaper.data p)) ->
    DraggablePaper.pendingDisplayedText st = [] ->
    ok st ->
    ok (fst (h p (st, s))).

(** The animating flag of the card with id [i], if it is on the desk. *)
Definition flag (i : JsString.t) (w : Desk.World) : option bool :=
  option_map isTyping (Desk.findCard i (Desk.app w)).

(** The text the card with id [i] shows, if it is mounted. *)
Definition displayed (i : JsString.t) (w : Desk.World) : option JsString.t :=
  option_map DraggablePaper.displayedText (Desk.lookup i (Desk.papers w)).

(** What the typing effect of the card with id [i] depends on. *)
Definition typing_view (i : JsString.t) (s : App.State) : option (bool * JsString.t) :=
  option_map (fun c => (isTyping c, text c)) (Desk.findCard i s).

(** A handler of a card that leaves every flag and every text alone. *)
Definition neutral
    (h : DraggablePaper.Props -> DraggablePaper.State * App.State ->
         DraggablePaper.State * App.State) : Prop :=
  forall c st s i,
    typing_view i (snd (h (Desk.propsFor c) (st, s))) = typing_view i s.

(** No print among [evs] draws the identifier [i] again. *)
Definition fresh_for (i : JsString.t) (evs : list Desk.Event) : Prop :=
  Forall (fun ev =>
            match ev with
            | Desk.PrintButtonClick env => App.randomUUID env <> i
            | _ => True
            end) evs.

(** The typing timer of card [i] fires once for each element of [ticks],
    which gives React's choice for the updater and the random sample. *)
Definition fire (i : JsString.t) (ticks : list (React.UpdaterTiming * Q))
    (w : Desk.World) : Desk.World :=
  fold_left (fun w tick => Desk.typingTimerFires i (fst tick) (snd tick) w) ticks w.

(** The states the page can be in: those the events lead to from the
    freshly mounted page. *)
Definition reachable (W : Q) (w : Desk.World) : Prop :=
  exists (history : list Desk.Event) (innerWidth innerHeight : Q),
    w = Desk.run W history (Desk.initial innerWidth innerHeight).

(** *** Pointers *)

(** The pointer position of an event that picks the machine up, with the
    element the event was aimed at. *)
Definition machinePickup (ev : Desk.Event) : option (Dom.Element * Q * Q) :=
  match ev with
  | Desk.MachineMouseDown e => Some (Dom.target e, Dom.clientX e, Dom.clientY e)
  | Desk.MachineTouchStart e =>
      Some (Dom.touchTarget e, Dom.touchX (Dom.touches0 e), Dom.touchY (Dom.touches0 e))
  | _ => None
  end.

(** The pointer position of an event that picks the card [i] up. *)
Definition paperPickup (i : JsString.t) (ev : Desk.Event) : option (Q * Q) :=
  match ev with
  | Desk.PaperMouseDown j e =>
      if JsString.eqb j i then Some (Dom.clientX e, Dom.clientY e) else None
  | Desk.PaperTouchStart j e =>
      if JsString.eqb j i
      then Some (Dom.touchX (Dom.touches0 e), Dom.touchY (Dom.touches0 e))
      else None
  | _ => None
  end.

(** The pointer position of an event that moves the pointer. *)
Definition pointerMove (ev : Desk.Event) : option (Q * Q) :=
  match ev with
  | Desk.WindowMouseMove e => Some (Dom.clientX e, Dom.clientY e)
  | Desk.WindowTouchMove e =>
      Some (Dom.touchX (Dom.touches0 e), Dom.touchY (Dom.touches0 e))
  | _ => None
  end.

(** The drag state of the machine. *)
Definition machine_of (s : App.State) : Coordinates.t * bool * Coordinates.t :=
  (App.machinePos s, App.isDraggingMachine s, App.machineDragOffset s).

(** A listener of a card for a pointer move to [(qx, qy)]. *)
Definition move_handler (qx qy : Q)
    (h : DraggablePaper.Props -> DraggablePaper.State * App.State ->
         DraggablePaper.State * App.State) : Prop :=
  forall p st s,
    h p (st, s) =
    if DraggablePaper.isDragging st then
      (st, DraggablePaper.onUpdate p (id (DraggablePaper.data p))
             (mkPartial None None
                (Some (qx - Coordinates.x (DraggablePaper.dragOffset st)))
                (Some (qy - Coordinates.y (DraggablePaper.dragOffset st)))
                None None None) s)
    else (st, s).

(** The card [i] is held: it is on the desk and its component is dragging
    with offset [off]. *)
Definition held (i : JsString.t) (off : Coordinates.t) (w : Desk.World) : Prop :=
  exists c st,
    Desk.findCard i (Desk.app w) = Some c /\
    Desk.lookup i (Desk.papers w) = Some st /\
    DraggablePaper.isDragging st = true /\
    DraggablePaper.dragOffset st = off.

(** The card [i] is at [(px, py)]. *)
Definition card_at (i : JsString.t) (px py : Q) (w : Desk.World) : Prop :=
  exists c, Desk.findCard i (Desk.app w) = Some c /\ x c = px /\ y c = py.

(** [a] is a prefix of [b]. *)
Definition is_prefix (a b : JsString.t) : Prop := exists rest, b = a ++ rest.

(** *** One card and its component, event by event *)

(** [{ x: px, y: py }] and [{ isTyping: false }], the two updates the
    cards send to [App]. *)
Definition moveTo (px py : Q) : PaperCardData.partial :=
  mkPartial None None (Some px) (Some py) None None None.

Definition doneTyping : PaperCardData.partial :=
  mkPartial None None None None None None (Some false).

(** The card with id [i] and its mounted component, when both exist. *)
Definition paper (i : JsString.t) (w : Desk.World)
    : option (PaperCardData.t * DraggablePaper.State) :=
  match Desk.findCard i (Desk.app w), Desk.lookup i (Desk.papers w) with
  | Some c, Some st => Some (c, st)
  | _, _ => None
  end.

(** What one event [ev], received in state [w], does to the card [i] and
    its component. *)
Inductive paper_step (i : JsString.t) (w : Desk.World) (ev : Desk.Event)
    : option (PaperCardData.t * DraggablePaper.State) ->
      option (PaperCardData.t * DraggablePaper.State) -> Prop :=
| ps_same o : paper_step i w ev o o
| ps_gone o :
    ev = Desk.DeleteButtonClick i \/ ev = Desk.ClearButtonClick true ->
    paper_step i w ev o None
| ps_print env cx cy :
    ev = Desk.PrintButtonClick env ->
    App.randomUUID env = i ->
    JsString.trim (TypewriterConsole.input (Desk.console w)) <> [] ->
    paper_step i w ev None
      (Some (PaperCardData.mk i (TypewriterConsole.input (Desk.console w)) cx cy
               (App.random env * 4 - 2) (App.now env) true,
             DraggablePaper.mk false (Coordinates.mk 0 0) [] [] 0 (Some 100)
               (Some (true, TypewriterConsole.input (Desk.console w)))))
| ps_down c st px py :
    paperPickup i ev = Some (px, py) ->
    isTyping c = false ->
    paper_step i w ev (Some (c, st))
      (Some (c, DraggablePaper.setDragOffset (Coordinates.mk (px - x c) (py - y c))
                  (DraggablePaper.setIsDragging true st)))
| ps_move c st qx qy :
    pointerMove ev = Some (qx, qy) ->
    DraggablePaper.isDragging st = true ->
    paper_step i w ev (Some (c, st))
      (Some (merge c (moveTo (qx - Coordinates.x (DraggablePaper.dragOffset st))
                             (qy - Coordinates.y (DraggablePaper.dragOffset st))),
             st))
| ps_up c st :
    ev = Desk.WindowMouseUp \/ ev = Desk.WindowTouchEnd ->
    paper_step i w ev (Some (c, st)) (Some (c, DraggablePaper.setIsDragging false st))
| ps_reveal c st timing random d :
    ev = Desk.TypingTimerFires i timing random ->
    isTyping c = true ->
    DraggablePaper.typingTimeout st = Some d ->
    (DraggablePaper.textIndex st < List.length (text c))%nat ->
    paper_step i w ev (Some (c, st))
      (Some (c, DraggablePaper.mk
                  (DraggablePaper.isDragging st) (DraggablePaper.dragOffset st)
                  (DraggablePaper.displayedText st ++
                   JsString.charAt (text c)
                     match timing with
                     | React.AtDispatch => DraggablePaper.textIndex st
                     | React.AtRender => S (DraggablePaper.textIndex st)
                     end)
                  [] (S (DraggablePaper.textIndex st))
                  (Some (DraggablePaper.delay (List.length (text c)) random))
                  (Some (true, text c))))
| ps_done c st timing random d :
    ev = Desk.TypingTimerFires i timing random ->
    isTyping c = true ->
    DraggablePaper.typingTimeout st = Some d ->
    DraggablePaper.textIndex st = List.length (text c) ->
    paper_step i w ev (Some (c, st))
      (Some (merge c doneTyping,
             DraggablePaper.mk
               (DraggablePaper.isDragging st) (DraggablePaper.dragOffset st)
               (text c) [] (DraggablePaper.textIndex st) None
               (Some (false, text c)))).

(** What a pointer move to [(qx, qy)] does to a card and its component. *)
Definition moved (qx qy : Q) (x : PaperCardData.t * DraggablePaper.State)
    : PaperCardData.t * DraggablePaper.State :=
  if DraggablePaper.isDragging (snd x) then
    (merge (fst x)
           (moveTo (qx - Coordinates.x (DraggablePaper.dragOffset (snd x)))
                   (qy - Coordinates.y (DraggablePaper.dragOffset (snd x)))),
     snd x)
  else x.

(** What a pointer-up does to a card and its component. *)
Definition released (x : PaperCardData.t * DraggablePaper.State)
    : PaperCardData.t * DraggablePaper.State :=
  (fst x, DraggablePaper.setIsDragging false (snd x)).

(** While a card is typing, its next step is scheduled, it is not being
    dragged, and it shows no more code units than steps were taken. *)
Definition tidy (c : PaperCardData.t) (st : DraggablePaper.State) : Prop :=
  isTyping c = true ->
  DraggablePaper.typingTimeout st <> None /\
  DraggablePaper.isDragging st = false /\
  (List.length (DraggablePaper.displayedText st) <= DraggablePaper.textIndex st)%nat.

(** No mounted card is being dragged. *)
Definition all_idle (ps : list (JsString.t * DraggablePaper.State)) : Prop :=
  forall i st, Desk.lookup i ps = Some st -> DraggablePaper.isDragging st = false.

(** The pointer-downs on cards. *)
Definition isPaperDown (ev : Desk.Event) : bool :=
  match ev with
  | Desk.PaperMouseDown _ _ | Desk.PaperTouchStart _ _ => true
  | _ => false
  end.

(** The settling of a rewrite. *)
Definition isPolishSettles (ev : Desk.Event) : bool :=
  match ev with
  | Desk.PolishSettles _ => true
  | _ => false
  end.

(** The console and the rewrites in flight. *)
Definition desk_console (w : Desk.World) : TypewriterConsole.State * list JsString.t :=
  (Desk.console w, Desk.polishing w).

(** Every print among [evs], received from state [w] on, is made under
    the condition [printable] on its surroundings and on the cards then
    on the desk. *)
Fixpoint printable_run (W : Q)
    (printable : App.PrintEnv -> list PaperCardData.t -> Prop)
    (evs : list Desk.Event) (w : Desk.World) : Prop :=
  match evs with
  | [] => True
  | ev :: evs' =>
      match ev with
      | Desk.PrintButtonClick env => printable env (App.cards (Desk.app w))
      | _ => True
      end /\
      printable_run W printable evs' (Desk.step W ev w)
  end.

(** [crypto.randomUUID()] returns an id no card on the desk has. *)
Definition fresh_id (env : App.PrintEnv) (l : list PaperCardData.t) : Prop :=
  Forall (fun c => id c <> App.randomUUID env) l.

(** [Math.random()] returns a sample of the unit interval. *)
Definition unit_sample (env : App.PrintEnv) (l : list PaperCardData.t) : Prop :=
  in_unit (App.random env).

(** A handler of the card [c] that changes no card of another id. *)
Definition other_safe
    (h : DraggablePaper.Props -> DraggablePaper.State * App.State ->
         DraggablePaper.State * App.State) : Prop :=
  forall c st s i,
    JsString.eqb (id c) i = false ->
    Desk.findCard i (snd (h (Desk.propsFor c) (st, s))) = Desk.findCard i s.

(** *** Drag sessions on binary64 numbers *)












End Spec.

(** * Properties *)

Import PaperCardData.
Import Spec.

(** ** Strings *)

Lemma JsString_eqb_eq (a b : JsString.t) : JsString.eqb a b = true <-> a = b.
Proof.
  revert b; induction a as [|c a IH]; intros [|d b]; simpl; split; intros H;
    try reflexivity; try discriminate.
  - apply andb_true_iff in H as [Hc Hr]. apply N.eqb_eq in Hc. apply IH in Hr. congruence.
  - injection H as -> ->. rewrite N.eqb_refl. simpl. now apply IH.
Qed.

Lemma JsString_eqb_refl (a : JsString.t) : JsString.eqb a a = true.
Proof. now apply JsString_eqb_eq. Qed.

Lemma JsString_eqb_neq (a b : JsString.t) : JsString.eqb a b = false <-> a <> b.
Proof.
  split.
  - intros H E. apply JsString_eqb_eq in E. congruence.
  - intros H. destruct (JsString.eqb a b) eqn:E; [|reflexivity].
    apply JsString_eqb_eq in E. contradiction.
Qed.

Lemma JsString_eqb_sym (a b : JsString.t) : JsString.eqb a b = JsString.eqb b a.
Proof.
  destruct (JsString.eqb b a) eqn:E.
  - apply JsString_eqb_eq in E. subst. apply JsString_eqb_refl.
  - apply JsString_eqb_neq in E. apply JsString_eqb_neq. congruence.
Qed.

(** A string trims to the empty string exactly when all its code units are
    white space. *)
Lemma trimStart_nil (s : JsString.t) :
  JsString.trimStart s = [] <-> forallb JsString.isWhiteSpace s = true.
Proof.
  induction s as [|c s IH]; simpl.
  - tauto.
  - destruct (JsString.isWhiteSpace c); simpl; [exact IH|].
    split; discriminate.
Qed.

Lemma trim_nil (s : JsString.t) :
  JsString.trim s = [] <-> forallb JsString.isWhiteSpace s = true.
Proof.
  unfold JsString.trim, JsString.trimEnd. split.
  - intros H. destruct (JsString.trimStart s) eqn:E.
    + now apply trimStart_nil.
    + exfalso. rewrite <- E in H.
      assert (Hr : JsString.trimStart (rev (JsString.trimStart s)) = []).
      { destruct (JsString.trimStart (rev (JsString.trimStart s))) as [|d l0];
          [reflexivity|].
        simpl in H. now destruct (rev l0). }
      apply trimStart_nil in Hr. rewrite forallb_forall in Hr.
      assert (Hc : JsString.isWhiteSpace c = true).
      { apply Hr. apply in_rev. rewrite rev_involutive, E. now left. }
      clear - E Hc. induction s as [|d s IH]; simpl in E; [discriminate|].
      destruct (JsString.isWhiteSpace d) eqn:Ed; [now apply IH|].
      injection E as -> _. congruence.
  - intros H. apply trimStart_nil in H. now rewrite H.
Qed.

(** ** The rewrite service *)

Section Service.

Import geminiService.

Lemma polishTextToVintage_cases (env : Env) (inputText : JsString.t) :
  polishTextToVintage env inputText =
  Returned (match answer env inputText with
            | Some (c :: s) => c :: s
            | _ => inputText
            end).
Proof.
  unfold polishTextToVintage, answer, try_catch, bind.
  destruct (getClient env) as [ai|m]; [|reflexivity].
  destruct (generateContent env ai _ _) as [response|m]; [|reflexivity].
  unfold or_string. destruct (text response) as [[|c s]|]; reflexivity.
Qed.

End Service.

Section ServiceFallback.

Import geminiService.

Lemma failure_no_answer env inputText :
  Failure env inputText ->
  answer env inputText = None \/ answer env inputText = Some [].
Proof.
  unfold answer. intros [Hk | ai m Hc Hg | ai r Hc Hg Ht].
  - left. unfold getClient. now destruct Hk as [-> | ->].
  - left. now rewrite Hc, Hg.
  - rewrite Hc, Hg. exact Ht.
Qed.

(** C8.  [polishTextToVintage] always returns, never throws.  Without a
    credential ([API_KEY] undefined or empty), when the request to the
    model fails, and when the response has no text or an empty one, it
    returns its input unchanged; when the model answers a non-empty text,
    it returns that text. *)
Theorem polishTextToVintage_total (env : Env) (inputText : JsString.t) :
  (exists s, polishTextToVintage env inputText = Returned s) /\
  (API_KEY env = None \/ API_KEY env = Some [] ->
   polishTextToVintage env inputText = Returned inputText) /\
  (forall key message,
      API_KEY env = Some key -> key <> [] ->
      generateContent env (mkClient key) (JsString.lit "gemini-2.5-flash")
                      (prompt_of inputText) = Thrown message ->
      polishTextToVintage env inputText = Returned inputText) /\
  (forall key response,
      API_KEY env = Some key -> key <> [] ->
      generateContent env (mkClient key) (JsString.lit "gemini-2.5-flash")
                      (prompt_of inputText) = Returned response ->
      text response = None \/ text response = Some [] ->
      polishTextToVintage env inputText = Returned inputText) /\
  (forall key response rewritten,
      API_KEY env = Some key -> key <> [] ->
      generateContent env (mkClient key) (JsString.lit "gemini-2.5-flash")
                      (prompt_of inputText) = Returned response ->
      text response = Some rewritten -> rewritten <> [] ->
      polishTextToVintage env inputText = Returned rewritten).
Proof.
  assert (K : forall key, API_KEY env = Some key -> key <> [] ->
              getClient env = Returned (mkClient key)).
  { intros key Hk Hne. unfold getClient. rewrite Hk.
    destruct key; [congruence|reflexivity]. }
  split; [|split; [|split; [|split]]].
  - rewrite polishTextToVintage_cases. eexists. reflexivity.
  - intros Hk. unfold polishTextToVintage, getClient.
    now destruct Hk as [-> | ->].
  - intros key message Hk Hne Hg. unfold polishTextToVintage.
    rewrite (K key Hk Hne). cbn [bind]. now rewrite Hg.
  - intros key response Hk Hne Hg Ht. unfold polishTextToVintage.
    rewrite (K key Hk Hne). cbn [bind]. rewrite Hg. cbn [bind try_catch].
    now destruct Ht as [-> | ->].
  - intros key response rewritten Hk Hne Hg Ht Hr. unfold polishTextToVintage.
    rewrite (K key Hk Hne). cbn [bind]. rewrite Hg. cbn [bind try_catch].
    rewrite Ht. destruct rewritten; [congruence|reflexivity].
Qed.

Lemma polishTextToVintage_total_witness :
  let env := mkEnv (Some (JsString.lit "key"))
                   (fun ai model contents =>
                      Returned (mkResponse (Some (JsString.lit "Dear Sir")))) in
  polishTextToVintage env (JsString.lit "hello") = Returned (JsString.lit "Dear Sir").
Proof.
  intros env.
  refine (proj2 (proj2 (proj2 (proj2
            (polishTextToVintage_total env (JsString.lit "hello")))))
            (JsString.lit "key") (mkResponse (Some (JsString.lit "Dear Sir")))
            (JsString.lit "Dear Sir") _ _ _ _ _).
  - reflexivity.
  - discriminate.
  - reflexivity.
  - reflexivity.
  - discriminate.
Defined.

End ServiceFallback.

(** ** The console *)

Section Console.

Import TypewriterConsole.

(** C7, as stated, fails on the handler: with a rewrite in flight and a
    non-blank buffer, [handlePolish] sets the mode again and calls the
    service once more. *)
Lemma handlePolish_runs_while_rewriting :
  let st := TypewriterConsole.mk (JsString.lit "hello") THINKING in
  state st = THINKING /\
  handlePolish st = (st, Some (JsString.lit "hello")) /\
  handlePolish st <> (st, None).
Proof. repeat split. discriminate. Qed.

(** C7, amended.  A blank buffer makes [handlePolish] a no-op; a rewrite in
    flight (or a blank buffer) disables the rewrite button, whose click is
    then a no-op: buffer and mode unchanged, service not called. *)
Theorem rewrite_rejected (st : State)
    (H : JsString.trim (input st) = [] \/ state st <> IDLE) :
  polishButton_onClick st = (st, None) /\
  (JsString.trim (input st) = [] -> handlePolish st = (st, None)).
Proof.
  split.
  - unfold polishButton_onClick, button_disabled.
    destruct H as [H | H].
    + rewrite H. simpl. now rewrite orb_true_r.
    + destruct (state st); [contradiction| |]; reflexivity.
  - intros E. unfold handlePolish. now rewrite E.
Qed.

Lemma rewrite_rejected_witness :
  let st := TypewriterConsole.mk (JsString.lit "hello") THINKING in
  polishButton_onClick st = (st, None) /\
  (JsString.trim (input st) = [] -> handlePolish st = (st, None)).
Proof.
  apply (rewrite_rejected (TypewriterConsole.mk (JsString.lit "hello") THINKING)).
  right. simpl. discriminate.
Defined.

End Console.

(** ** The card collection *)

Section Collection.

Import App.

(** C9.  [handleClearAll] leaves the state as it is when the confirmation
    is declined and empties the collection when it is accepted. *)
Theorem handleClearAll_confirm (s : App.State) :
  handleClearAll false s = s /\ cards (handleClearAll true s) = [].
Proof. split; reflexivity. Qed.

Lemma spread_id (c : PaperCardData.t) : spread c = c.
Proof. now destruct c. Qed.

Lemma map_spread_matching id0 (l : list PaperCardData.t) :
  map (fun c => if JsString.eqb (id c) id0 then spread c else c) l = l.
Proof.
  induction l as [|c l IH]; simpl; [reflexivity|].
  rewrite IH, spread_id. now destruct (JsString.eqb (id c) id0).
Qed.

Lemma find_absent id0 (l : list PaperCardData.t) :
  Forall (fun c => id c <> id0) l ->
  find (fun c => JsString.eqb (id c) id0) l = None.
Proof.
  induction 1 as [|c l Hc _ IH]; simpl; [reflexivity|].
  apply JsString_eqb_neq in Hc. now rewrite Hc.
Qed.

(** C10.  Focusing an id no card has leaves the collection unchanged and
    still adds one to the stacking counter. *)
Theorem handleFocus_absent (id0 : JsString.t) (s : App.State)
    (H : Forall (fun c => id c <> id0) (cards s)) :
  cards (handleFocus id0 s) = cards s /\
  topZIndex (handleFocus id0 s) = (topZIndex s + 1)%Z.
Proof.
  unfold handleFocus. simpl. rewrite map_spread_matching.
  rewrite (find_absent _ _ H). split; reflexivity.
Qed.

Lemma handleFocus_absent_witness :
  let s := App.mk [PaperCardData.mk (JsString.lit "a") (JsString.lit "hi") 1 2 0 0 false]
                  10 (Coordinates.mk 0 0) false (Coordinates.mk 0 0) in
  cards (handleFocus (JsString.lit "b") s) = cards s /\
  topZIndex (handleFocus (JsString.lit "b") s) = 11%Z.
Proof.
  apply (handleFocus_absent (JsString.lit "b")
           (App.mk [PaperCardData.mk (JsString.lit "a") (JsString.lit "hi") 1 2 0 0 false]
                   10 (Coordinates.mk 0 0) false (Coordinates.mk 0 0))).
  simpl. constructor; [discriminate | constructor].
Defined.

End Collection.

(** ** Cadence of the reveal *)

Section Cadence.

Import DraggablePaper.

Lemma count_cons (d : Q) (l : list Q) : count (d :: l) == count l + 1.
Proof.
  unfold count. cbn [List.length]. rewrite Nat2Z.inj_succ, <- Z.add_1_r.
  now rewrite inject_Z_plus.
Qed.

Lemma count_nonneg (l : list Q) : 0 <= count l.
Proof.
  unfold count. change 0 with (inject_Z 0). rewrite <- Zle_Qle. lia.
Qed.

Lemma count_pos (l : list Q) : l <> [] -> 0 < count l.
Proof.
  destruct l as [|d l]; [congruence|]. intros _.
  rewrite count_cons. pose proof (count_nonneg l). lra.
Qed.

Lemma sum_below (B : Q) (l : list Q) :
  l <> [] -> Forall (fun d => d < B) l -> sum l < B * count l.
Proof.
  induction l as [|d l IH]; [congruence|]. intros _ HF.
  inversion HF as [|? ? Hd Hl]; subst. rewrite count_cons. cbn [sum fold_right].
  destruct l as [|d' l'].
  - unfold count, sum. simpl. change (inject_Z 0) with 0. lra.
  - assert (IH' : sum (d' :: l') < B * count (d' :: l')) by (apply IH; [discriminate|assumption]).
    unfold sum in IH'. lra.
Qed.

Lemma sum_above (B : Q) (l : list Q) :
  Forall (fun d => B <= d) l -> B * count l <= sum l.
Proof.
  induction 1 as [|d l Hd _ IH].
  - unfold count, sum. simpl. change (inject_Z 0) with 0. lra.
  - rewrite count_cons. cbn [sum fold_right]. unfold sum in IH. lra.
Qed.

Lemma mean_below (B : Q) (l : list Q) :
  l <> [] -> Forall (fun d => d < B) l -> mean l < B.
Proof.
  intros Hn HF. unfold mean. apply Qlt_shift_div_r.
  - now apply count_pos.
  - now apply sum_below.
Qed.

Lemma mean_above (B : Q) (l : list Q) :
  l <> [] -> Forall (fun d => B <= d) l -> B <= mean l.
Proof.
  intros Hn HF. unfold mean. apply Qle_shift_div_l.
  - now apply count_pos.
  - now apply sum_above.
Qed.

(** The range the delay is drawn from, by length of the text. *)
Lemma delay_range (length : nat) (r : Q) :
  in_unit r ->
  if (150 <? length)%nat then 5 <= delay length r /\ delay length r < 20
  else if (50 <? length)%nat then 15 <= delay length r /\ delay length r < 40
  else 30 <= delay length r /\ delay length r < 80.
Proof.
  intros [H0 H1]. unfold delay.
  destruct (150 <? length)%nat; [|destruct (50 <? length)%nat]; lra.
Qed.

(** C5.  Every delay that can be drawn for a text of 300 code units is
    shorter than every delay that can be drawn for a text of 10, and so is
    the average over any samples. *)
Theorem delay_300_below_delay_10 (r300 r10 : Q) (rs300 rs10 : list Q)
    (H300 : in_unit r300) (H10 : in_unit r10)
    (Hs300 : rs300 <> [] /\ Forall in_unit rs300)
    (Hs10 : rs10 <> [] /\ Forall in_unit rs10) :
  delay 300 r300 < delay 10 r10 /\
  mean (map (delay 300) rs300) < mean (map (delay 10) rs10).
Proof.
  split.
  - pose proof (delay_range 300 r300 H300) as A.
    pose proof (delay_range 10 r10 H10) as B. simpl in A, B. lra.
  - destruct Hs300 as [N300 F300], Hs10 as [N10 F10].
    apply Qlt_le_trans with 20.
    + apply mean_below.
      * now destruct rs300.
      * apply Forall_map. eapply Forall_impl; [|exact F300].
        intros r Hr. pose proof (delay_range 300 r Hr) as A. simpl in A. tauto.
    + apply Qle_trans with 30; [lra|].
      apply mean_above.
      * now destruct rs10.
      * apply Forall_map. eapply Forall_impl; [|exact F10].
        intros r Hr. pose proof (delay_range 10 r Hr) as A. simpl in A. tauto.
Qed.

Lemma delay_300_below_delay_10_witness :
  delay 300 (9 # 10) < delay 10 0 /\
  mean (map (delay 300) [9 # 10; 1 # 2]) < mean (map (delay 10) [0; 1 # 10]).
Proof.
  apply (delay_300_below_delay_10 (9 # 10) 0 [9 # 10; 1 # 2] [0; 1 # 10]).
  - split; [discriminate | reflexivity].
  - split; [discriminate | reflexivity].
  - split; [discriminate|]. repeat constructor; discriminate.
  - split; [discriminate|]. repeat constructor; discriminate.
Defined.

End Cadence.

(** ** Finding cards and their components *)

Section Lookup.

Import Desk.

Lemma findCard_id i s c : findCard i s = Some c -> id c = i.
Proof.
  unfold findCard. intros H. apply find_some in H as [_ H].
  now apply JsString_eqb_eq.
Qed.

Lemma lookup_update i j v ps :
  lookup i (update j v ps) =
  if JsString.eqb j i then
    match lookup i ps with Some _ => Some v | None => None end
  else lookup i ps.
Proof.
  induction ps as [|[k u] ps IH]; simpl.
  - now destruct (JsString.eqb j i).
  - destruct (JsString.eqb k j) eqn:Ekj; simpl.
    + apply JsString_eqb_eq in Ekj. subst k.
      destruct (JsString.eqb j i); reflexivity.
    + rewrite IH. destruct (JsString.eqb k i) eqn:Eki; [|reflexivity].
      apply JsString_eqb_eq in Eki. subst k. now rewrite JsString_eqb_sym, Ekj.
Qed.

Lemma lookup_reconcile i s ps :
  lookup i (reconcile s ps) =
  match findCard i s with
  | Some c => Some (DraggablePaper.commit (propsFor c) (mounted_or_new (lookup i ps)))
  | None => None
  end.
Proof.
  unfold reconcile, findCard. induction (App.cards s) as [|c l IH]; simpl.
  - reflexivity.
  - destruct (JsString.eqb (id c) i) eqn:E; [|exact IH].
    apply JsString_eqb_eq in E. now subst i.
Qed.

Lemma lookup_In i ps st : lookup i ps = Some st -> In i (map fst ps).
Proof.
  induction ps as [|[k u] ps IH]; simpl; [discriminate|].
  destruct (JsString.eqb k i) eqn:E.
  - apply JsString_eqb_eq in E. now left.
  - intros H. right. now apply IH.
Qed.

(** How each handler of [App] changes the card found under an id. *)

Lemma findCard_setCards_same i f s :
  f (App.cards s) = App.cards s -> findCard i (App.setCards f s) = findCard i s.
Proof. unfold findCard. simpl. now intros ->. Qed.

Lemma findCard_handleUpdateCard i j u s :
  id_ u = None ->
  findCard i (App.handleUpdateCard j u s) =
  option_map (fun c => if JsString.eqb (id c) j then merge c u else c) (findCard i s).
Proof.
  intros Hu. unfold findCard, App.handleUpdateCard. simpl.
  induction (App.cards s) as [|c l IH]; simpl; [reflexivity|].
  assert (E : id (if JsString.eqb (id c) j then merge c u else c) = id c).
  { destruct (JsString.eqb (id c) j); [|reflexivity]. unfold merge. simpl. now rewrite Hu. }
  rewrite E. destruct (JsString.eqb (id c) i); [reflexivity|exact IH].
Qed.

Lemma find_filter_other i j (l : list PaperCardData.t) :
  JsString.eqb j i = false ->
  find (fun c => JsString.eqb (id c) i)
       (filter (fun c => negb (JsString.eqb (id c) j)) l) =
  find (fun c => JsString.eqb (id c) i) l.
Proof.
  intros N. induction l as [|c l IH]; simpl; [reflexivity|].
  destruct (JsString.eqb (id c) j) eqn:Ej; simpl.
  - apply JsString_eqb_eq in Ej. rewrite Ej, N. exact IH.
  - destruct (JsString.eqb (id c) i); [reflexivity|exact IH].
Qed.

Lemma find_filter_self i (l : list PaperCardData.t) :
  find (fun c => JsString.eqb (id c) i)
       (filter (fun c => negb (JsString.eqb (id c) i)) l) = None.
Proof.
  induction l as [|c l IH]; simpl; [reflexivity|].
  destruct (JsString.eqb (id c) i) eqn:E; simpl; [exact IH|].
  now rewrite E.
Qed.

Lemma find_app_card i (l l' : list PaperCardData.t) :
  find (fun c => JsString.eqb (id c) i) (l ++ l') =
  match find (fun c => JsString.eqb (id c) i) l with
  | Some c => Some c
  | None => find (fun c => JsString.eqb (id c) i) l'
  end.
Proof.
  induction l as [|c l IH]; simpl; [reflexivity|].
  destruct (JsString.eqb (id c) i); [reflexivity|exact IH].
Qed.

Lemma findCard_handleFocus i j s :
  findCard i (App.handleFocus j s) = findCard i s.
Proof.
  unfold findCard, App.handleFocus. simpl. rewrite map_spread_matching.
  destruct (find (fun c => JsString.eqb (id c) j) (App.cards s)) as [card|] eqn:F;
    [|reflexivity].
  rewrite find_app_card.
  destruct (JsString.eqb j i) eqn:E.
  - apply JsString_eqb_eq in E. subst j. rewrite find_filter_self, F. simpl.
    apply find_some in F as [_ F]. now rewrite F.
  - rewrite (find_filter_other _ _ _ E).
    destruct (find (fun c => JsString.eqb (id c) i) (App.cards s)); [reflexivity|].
    simpl. apply find_some in F as [_ F]. apply JsString_eqb_eq in F.
    now rewrite F, E.
Qed.

Lemma findCard_handleDeleteCard i j s :
  findCard i (App.handleDeleteCard j s) =
  if JsString.eqb j i then None else findCard i s.
Proof.
  unfold findCard, App.handleDeleteCard. simpl.
  destruct (JsString.eqb j i) eqn:E.
  - apply JsString_eqb_eq in E. subst j. apply find_filter_self.
  - now apply find_filter_other.
Qed.

Lemma findCard_handlePrint W env t i s :
  findCard i (App.handlePrint W env t s) =
  match findCard i s with
  | Some c => Some c
  | None =>
      if JsString.eqb (App.randomUUID env) i
      then Some (List.last (App.cards (App.handlePrint W env t s))
                           (PaperCardData.mk [] [] 0 0 0 0 false))
      else None
  end.
Proof.
  unfold findCard, App.handlePrint. simpl. rewrite find_app_card.
  destruct (find _ (App.cards s)); [reflexivity|]. simpl.
  rewrite last_last. reflexivity.
Qed.

End Lookup.

(** ** One component *)

Section Component.

Import DraggablePaper.

Lemma deps_eqb_eq a b : deps_eqb a b = true <-> a = b.
Proof.
  destruct a as [a1 a2], b as [b1 b2]. unfold deps_eqb. simpl.
  rewrite andb_true_iff, eqb_true_iff, JsString_eqb_eq. split.
  - intros [-> ->]. reflexivity.
  - intros E. injection E as -> ->. split; reflexivity.
Qed.

(** The three ways a commit goes: the effect does not run, it runs again
    after its cleanup, or it runs for the first time. *)
Lemma commit_cases p st :
  let deps := (isTyping (data p), text (data p)) in
  (typingDeps st = Some deps /\ commit p st = render st) \/
  (typingDeps st <> Some deps /\ typingDeps st <> None /\
   commit p st =
     render (set_typingDeps (Some deps)
               (typingEffect p (typingEffect_cleanup (render st))))) \/
  (typingDeps st = None /\
   commit p st = render (set_typingDeps (Some deps) (typingEffect p (render st)))).
Proof.
  intros deps. unfold commit, useEffect_typing. cbn [render typingDeps]. fold deps.
  destruct (typingDeps st) as [d|] eqn:D.
  - destruct (deps_eqb d deps) eqn:E.
    + left. apply deps_eqb_eq in E. subst d. split; [reflexivity|].
      destruct st; reflexivity.
    + right; left. repeat split; try discriminate.
      intros H. injection H as ->.
      assert (deps_eqb deps deps = true) by now apply deps_eqb_eq. congruence.
  - right; right. split; reflexivity.
Qed.

Lemma commit_deps p st :
  typingDeps (commit p st) = Some (isTyping (data p), text (data p)).
Proof.
  destruct (commit_cases p st) as [[D ->] | [[_ [_ ->]] | [_ ->]]]; try reflexivity.
  exact D.
Qed.

Lemma commit_pending p st : pendingDisplayedText (commit p st) = [].
Proof. reflexivity. Qed.

Lemma commit_isDragging p st : isDragging (commit p st) = isDragging st.
Proof.
  destruct (commit_cases p st) as [[D ->] | [[_ [_ ->]] | [_ ->]]]; try reflexivity;
    unfold typingEffect; now destruct (isTyping (data p)).
Qed.

Lemma commit_dragOffset p st : dragOffset (commit p st) = dragOffset st.
Proof.
  destruct (commit_cases p st) as [[D ->] | [[_ [_ ->]] | [_ ->]]]; try reflexivity;
    unfold typingEffect; now destruct (isTyping (data p)).
Qed.

Lemma render_rendered st : rendered (render st) = rendered st.
Proof. reflexivity. Qed.

Lemma ok_render st : ok st -> ok (render st).
Proof. unfold ok. cbn [render typingDeps typingTimeout textIndex]. now rewrite render_rendered. Qed.

Lemma commit_ok p st : ok st -> ok (commit p st).
Proof.
  intros H.
  destruct (commit_cases p st) as [[D ->] | [[_ [_ ->]] | [D ->]]].
  - now apply ok_render.
  - unfold ok, typingEffect.
    destruct (isTyping (data p)); simpl; split; intros; try discriminate;
      try (split; reflexivity); apply Nat.le_0_l.
  - unfold ok in H. rewrite D in H. unfold ok, typingEffect.
    destruct (isTyping (data p)); simpl; split; intros; try discriminate;
      try (split; [exact H|reflexivity]); apply Nat.le_0_l.
Qed.

(** A commit changes nothing of a component that is up to date. *)
Lemma commit_stable p st :
  typingDeps st = Some (isTyping (data p), text (data p)) ->
  pendingDisplayedText st = [] ->
  commit p st = st.
Proof.
  intros Hd Hp.
  destruct (commit_cases p st) as [[D ->] | [[N _] | [D _]]]; try congruence.
  destruct st. simpl in *. now subst.
Qed.

End Component.

(** ** The invariant of the page *)

Section Invariant.

Import Desk.

Lemma Inv_all_ok w : Inv w -> all_ok (papers w).
Proof.
  intros H i st L. specialize (H i). rewrite L in H.
  destruct (findCard i (app w)); [tauto|contradiction].
Qed.

Lemma Inv_reconcile s k ps q : all_ok ps -> Inv (mk s k (reconcile s ps) q).
Proof.
  intros H i. cbn [app papers]. rewrite lookup_reconcile.
  destruct (findCard i s) as [c|] eqn:F; [|exact I].
  split; [apply commit_deps|]. split; [reflexivity|].
  apply commit_ok. destruct (lookup i ps) as [st|] eqn:L; simpl.
  - exact (H i st L).
  - reflexivity.
Qed.

Lemma all_ok_update j v ps : all_ok ps -> ok v -> all_ok (update j v ps).
Proof.
  intros H Hv i st. rewrite lookup_update.
  destruct (JsString.eqb j i).
  - destruct (lookup i ps); [|discriminate]. now intros [= <-].
  - apply H.
Qed.

Lemma Inv_withApp h w : Inv w -> Inv (withApp h w).
Proof. intros H. apply Inv_reconcile. now apply Inv_all_ok. Qed.

Lemma Inv_withPaper i h w : handler_ok h -> Inv w -> Inv (withPaper i h w).
Proof.
  intros Hh H. unfold withPaper.
  destruct (findCard i (app w)) as [c|] eqn:F; [|exact H].
  destruct (lookup i (papers w)) as [st|] eqn:L; [|exact H].
  destruct (h (propsFor c) (st, app w)) as [st' app'] eqn:E.
  apply Inv_reconcile. apply all_ok_update; [now apply Inv_all_ok|].
  pose proof (H i) as Hi. rewrite F, L in Hi. destruct Hi as [Hd [Hp Ho]].
  specialize (Hh (propsFor c) st (app w) Hd Hp Ho). now rewrite E in Hh.
Qed.

Lemma Inv_fold_withPaper h ids w :
  handler_ok h -> Inv w -> Inv (fold_left (fun w i => withPaper i h w) ids w).
Proof.
  intros Hh. revert w. induction ids as [|i ids IH]; intros w H; simpl; [exact H|].
  apply IH. now apply Inv_withPaper.
Qed.

Lemma Inv_withEveryPaper h w : handler_ok h -> Inv w -> Inv (withEveryPaper h w).
Proof. intros Hh H. now apply Inv_fold_withPaper. Qed.

(** The handlers of a card keep its component consistent. *)

Lemma ok_setIsDragging b st : ok st -> ok (DraggablePaper.setIsDragging b st).
Proof. exact (fun H => H). Qed.

Lemma ok_setDragOffset o st : ok st -> ok (DraggablePaper.setDragOffset o st).
Proof. exact (fun H => H). Qed.

Lemma handler_ok_mouseDown e : handler_ok (fun p => DraggablePaper.handleMouseDown p e).
Proof. intros p st s _ _ H. exact H. Qed.

Lemma handler_ok_touchStart e : handler_ok (fun p => DraggablePaper.handleTouchStart p e).
Proof. intros p st s _ _ H. exact H. Qed.

Lemma handler_ok_mouseMove e : handler_ok (fun p => DraggablePaper.handleMouseMove p e).
Proof.
  intros p st s _ _ H. unfold DraggablePaper.handleMouseMove.
  now destruct (DraggablePaper.isDragging st).
Qed.

Lemma handler_ok_touchMove e : handler_ok (fun p => DraggablePaper.handleTouchMove p e).
Proof.
  intros p st s _ _ H. unfold DraggablePaper.handleTouchMove.
  now destruct (DraggablePaper.isDragging st).
Qed.

Lemma handler_ok_mouseUp :
  handler_ok (fun _ '(st, s) => (DraggablePaper.handleMouseUp st, s)).
Proof. intros p st s _ _ H. exact H. Qed.

Lemma handler_ok_touchEnd :
  handler_ok (fun _ '(st, s) => (DraggablePaper.handleTouchEnd st, s)).
Proof. intros p st s _ _ H. exact H. Qed.

Lemma handler_ok_timer timing random :
  handler_ok
    (fun p '(st, s) =>
       match DraggablePaper.typingTimeout st with
       | Some _ =>
           DraggablePaper.typeNextChar p timing random
             (DraggablePaper.set_typingTimeout None st, s)
       | None => (st, s)
       end).
Proof.
  intros p st s Hd Hp H. cbn beta iota.
  destruct st as [dr off disp pend idx tmo deps]. simpl in Hd, Hp. subst deps pend.
  cbn [DraggablePaper.typingTimeout].
  destruct tmo as [d|]; [|exact H].
  unfold ok in H. simpl in H. destruct H as [H1 H2].
  destruct (isTyping (DraggablePaper.data p)) eqn:B.
  2:{ destruct (H1 eq_refl) as [C _]. discriminate. }
  unfold DraggablePaper.typeNextChar. simpl.
  destruct (Nat.ltb_spec idx (List.length (text (DraggablePaper.data p)))) as [Lt|Ge].
  - unfold ok. destruct timing; simpl; (split; [discriminate|]); intros _; exact Lt.
  - unfold ok. simpl. split; [discriminate|]. intros _. now apply H2.
Qed.

Section WithConstants.

Variable W : Q.

Lemma Inv_step ev w : Inv w -> Inv (step W ev w).
Proof.
  intros H. destruct ev; cbn [step].
  - now apply Inv_withApp.
  - now apply Inv_withApp.
  - unfold paperPointerDown. destruct (findCard id0 (app w)) as [c|]; [|exact H].
    destruct (isTyping c); [exact H|].
    apply Inv_withPaper; [apply handler_ok_mouseDown|exact H].
  - unfold paperPointerDown. destruct (findCard id0 (app w)) as [c|]; [|exact H].
    destruct (isTyping c); [exact H|].
    apply Inv_withPaper; [apply handler_ok_touchStart|exact H].
  - apply Inv_withEveryPaper; [apply handler_ok_mouseMove|now apply Inv_withApp].
  - apply Inv_withEveryPaper; [apply handler_ok_mouseUp|now apply Inv_withApp].
  - apply Inv_withEveryPaper; [apply handler_ok_touchMove|now apply Inv_withApp].
  - apply Inv_withEveryPaper; [apply handler_ok_touchEnd|now apply Inv_withApp].
  - apply Inv_withPaper; [apply handler_ok_timer|exact H].
  - destruct (findCard id0 (app w)) as [c|]; [|exact H].
    destruct (isTyping c); [exact H|]. now apply Inv_withApp.
  - now apply Inv_withApp.
  - unfold printButtonClick.
    destruct (TypewriterConsole.button_disabled (console w)); [exact H|].
    unfold submit.
    destruct (TypewriterConsole.handlePrint _ _) as [k s].
    apply Inv_reconcile. now apply Inv_all_ok.
  - unfold polishButtonClick.
    destruct (TypewriterConsole.polishButton_onClick (console w)) as [k [arg|]];
      exact H.
  - unfold polishSettles. destruct (polishing w); exact H.
  - exact H.
Qed.

Lemma Inv_run evs w : Inv w -> Inv (run W evs w).
Proof.
  revert w. induction evs as [|ev evs IH]; intros w H; simpl; [exact H|].
  apply IH. now apply Inv_step.
Qed.

Lemma Inv_initial iw ih : Inv (initial iw ih).
Proof. intros i. exact I. Qed.

Lemma Inv_submit env w : Inv w -> Inv (submit W env w).
Proof.
  intros H. unfold submit.
  destruct (TypewriterConsole.handlePrint _ _) as [k s].
  apply Inv_reconcile. now apply Inv_all_ok.
Qed.

End WithConstants.

End Invariant.

(** ** The typing timer *)

Section Typing.

Import Desk.

Lemma withPaper_found i h w c st :
  findCard i (app w) = Some c ->
  lookup i (papers w) = Some st ->
  withPaper i h w =
  mk (snd (h (propsFor c) (st, app w))) (console w)
     (reconcile (snd (h (propsFor c) (st, app w)))
                (update i (fst (h (propsFor c) (st, app w))) (papers w)))
     (polishing w).
Proof.
  intros F L. unfold withPaper. rewrite F, L.
  now destruct (h (propsFor c) (st, app w)).
Qed.

Lemma lookup_withPaper i h w c st :
  findCard i (app w) = Some c ->
  lookup i (papers w) = Some st ->
  lookup i (papers (withPaper i h w)) =
  match findCard i (snd (h (propsFor c) (st, app w))) with
  | Some c' => Some (DraggablePaper.commit (propsFor c') (fst (h (propsFor c) (st, app w))))
  | None => None
  end.
Proof.
  intros F L. rewrite (withPaper_found _ _ _ _ _ F L). cbn [papers].
  rewrite lookup_reconcile, lookup_update, JsString_eqb_refl, L. reflexivity.
Qed.

(** A reveal step: the timer fires before the end of the text. *)
Lemma timer_reveals i timing random w c st d :
  findCard i (app w) = Some c ->
  lookup i (papers w) = Some st ->
  DraggablePaper.typingDeps st = Some (true, text c) ->
  isTyping c = true ->
  DraggablePaper.pendingDisplayedText st = [] ->
  DraggablePaper.typingTimeout st = Some d ->
  (DraggablePaper.textIndex st < List.length (text c))%nat ->
  let w' := typingTimerFires i timing random w in
  app w' = app w /\
  lookup i (papers w') =
    Some (DraggablePaper.mk
            (DraggablePaper.isDragging st) (DraggablePaper.dragOffset st)
            (DraggablePaper.displayedText st ++
             JsString.charAt (text c)
               match timing with
               | React.AtDispatch => DraggablePaper.textIndex st
               | React.AtRender => S (DraggablePaper.textIndex st)
               end)
            [] (S (DraggablePaper.textIndex st))
            (Some (DraggablePaper.delay (List.length (text c)) random))
            (Some (true, text c))).
Proof.
  intros F L Hd Hb Hp Ht Hlt w'. subst w'. unfold typingTimerFires.
  destruct st as [dr off disp pend idx tmo deps]. simpl in Hd, Hp, Ht, Hlt. subst.
  apply Nat.ltb_lt in Hlt.
  split.
  - rewrite (withPaper_found _ _ _ _ _ F L). cbn [app].
    unfold DraggablePaper.typeNextChar. simpl. now rewrite Hlt.
  - rewrite (lookup_withPaper _ _ _ _ _ F L).
    unfold DraggablePaper.typeNextChar. simpl. rewrite Hlt. cbn [snd fst]. rewrite F.
    f_equal. unfold DraggablePaper.commit, DraggablePaper.useEffect_typing.
    destruct timing; simpl; rewrite Hb; unfold DraggablePaper.deps_eqb; simpl;
      rewrite JsString_eqb_refl; reflexivity.
Qed.

(** The completion step: the timer fires at the end of the text. *)
Lemma timer_completes i timing random w c st d :
  findCard i (app w) = Some c ->
  lookup i (papers w) = Some st ->
  DraggablePaper.typingDeps st = Some (true, text c) ->
  DraggablePaper.pendingDisplayedText st = [] ->
  DraggablePaper.typingTimeout st = Some d ->
  (List.length (text c) <= DraggablePaper.textIndex st)%nat ->
  let w' := typingTimerFires i timing random w in
  app w' = App.handleUpdateCard i (mkPartial None None None None None None (Some false))
                                (app w) /\
  findCard i (app w') = Some (merge c (mkPartial None None None None None None (Some false))) /\
  lookup i (papers w') =
    Some (DraggablePaper.mk
            (DraggablePaper.isDragging st) (DraggablePaper.dragOffset st)
            (text c) [] (DraggablePaper.textIndex st) None
            (Some (false, text c))).
Proof.
  intros F L Hd Hp Ht Hge w'. subst w'. unfold typingTimerFires.
  destruct st as [dr off disp pend idx tmo deps]. simpl in Hd, Hp, Ht, Hge. subst.
  apply Nat.ltb_ge in Hge.
  pose proof (findCard_id _ _ _ F) as Hid.
  assert (B : findCard i (App.handleUpdateCard i
                  (mkPartial None None None None None None (Some false)) (app w))
              = Some (merge c (mkPartial None None None None None None (Some false)))).
  { rewrite findCard_handleUpdateCard by reflexivity. rewrite F. simpl.
    now rewrite Hid, JsString_eqb_refl. }
  split; [|split].
  - rewrite (withPaper_found _ _ _ _ _ F L). cbn [app].
    unfold DraggablePaper.typeNextChar. simpl. rewrite Hge. simpl. now rewrite Hid.
  - rewrite (withPaper_found _ _ _ _ _ F L). cbn [app].
    unfold DraggablePaper.typeNextChar. simpl. rewrite Hge. simpl. now rewrite Hid, B.
  - rewrite (lookup_withPaper _ _ _ _ _ F L).
    unfold DraggablePaper.typeNextChar. simpl. rewrite Hge. cbn [snd fst].
    simpl id. rewrite Hid, B. f_equal.
Qed.

End Typing.

(** ** Printing a card and revealing it *)

Section Reveal.

Import Desk.

Variable W : Q.

Lemma truthy_trim s : JsString.trim s <> [] -> JsString.truthy (JsString.trim s) = true.
Proof. now destruct (JsString.trim s). Qed.

(** What [submit] leaves: one more card, mounted with nothing shown and
    the first timer pending. *)
Lemma submit_spawns env w :
  Inv w ->
  JsString.trim (TypewriterConsole.input (console w)) <> [] ->
  findCard (App.randomUUID env) (app w) = None ->
  exists c,
    App.cards (app (submit W env w)) = App.cards (app w) ++ [c] /\
    id c = App.randomUUID env /\
    text c = TypewriterConsole.input (console w) /\
    isTyping c = true /\
    findCard (App.randomUUID env) (app (submit W env w)) = Some c /\
    lookup (App.randomUUID env) (papers (submit W env w)) =
      Some (DraggablePaper.mk false (Coordinates.mk 0 0) [] [] 0 (Some 100)
              (Some (true, text c))) /\
    TypewriterConsole.input (console (submit W env w)) = [].
Proof.
  intros HI Ht Hf. unfold submit, TypewriterConsole.handlePrint.
  rewrite (truthy_trim _ Ht). cbn [negb TypewriterConsole.playPrintSound consoleProps
                                    TypewriterConsole.onPrint].
  eexists. cbn [app console papers]. split; [reflexivity|].
  split; [reflexivity|]. split; [reflexivity|]. split; [reflexivity|].
  assert (F : findCard (App.randomUUID env)
                (App.handlePrint W env (TypewriterConsole.input (console w)) (app w))
              = Some (List.last (App.cards (App.handlePrint W env
                                   (TypewriterConsole.input (console w)) (app w)))
                                (PaperCardData.mk [] [] 0 0 0 0 false))).
  { rewrite findCard_handlePrint, Hf. now rewrite JsString_eqb_refl. }
  unfold App.handlePrint in F at 2. cbn [App.setCards App.cards] in F.
  rewrite last_last in F.
  split; [exact F|]. split; [|reflexivity].
  rewrite lookup_reconcile, F.
  pose proof (HI (App.randomUUID env)) as Hi. rewrite Hf in Hi.
  destruct (lookup (App.randomUUID env) (papers w)); [contradiction|].
  reflexivity.
Qed.

(** From a card that is typing with [n] code units left, [n + 1] firings of
    its timer complete the reveal, whatever React does with the updater. *)
Lemma fire_completes i n :
  forall ticks w c st d,
    List.length ticks = S n ->
    findCard i (app w) = Some c ->
    isTyping c = true ->
    lookup i (papers w) = Some st ->
    DraggablePaper.typingDeps st = Some (true, text c) ->
    DraggablePaper.pendingDisplayedText st = [] ->
    DraggablePaper.typingTimeout st = Some d ->
    (DraggablePaper.textIndex st + n)%nat = List.length (text c) ->
    flag i (fire i ticks w) = Some false /\
    displayed i (fire i ticks w) = Some (text c).
Proof.
  induction n as [|n IH]; intros ticks w c st d Hl F Hb L Hd Hp Ht Hn.
  - destruct ticks as [|[timing r] [|? ?]]; try discriminate. cbn [fire fold_left fst snd].
    destruct (timer_completes i timing r w c st d F L Hd Hp Ht) as [_ [F' L']]; [lia|].
    unfold flag, displayed. rewrite F', L'. split; reflexivity.
  - destruct ticks as [|[timing r] ticks]; [discriminate|].
    cbn [fire fold_left fst snd].
    destruct (timer_reveals i timing r w c st d F L Hd Hb Hp Ht) as [A L']; [lia|].
    eapply (IH ticks).
    + simpl in Hl. lia.
    + rewrite A. exact F.
    + exact Hb.
    + exact L'.
    + reflexivity.
    + reflexivity.
    + reflexivity.
    + cbn [DraggablePaper.textIndex]. lia.
Qed.

End Reveal.

(** ** How the flag and the text of a card evolve *)

Section View.

Import Desk.

Lemma typing_view_same_cards i s s' :
  App.cards s' = App.cards s -> typing_view i s' = typing_view i s.
Proof. unfold typing_view, findCard. now intros ->. Qed.

Lemma typing_view_handleUpdateCard i j u s :
  id_ u = None -> text_ u = None -> isTyping_ u = None ->
  typing_view i (App.handleUpdateCard j u s) = typing_view i s.
Proof.
  intros H1 H2 H3. unfold typing_view. rewrite findCard_handleUpdateCard by exact H1.
  destruct (findCard i s) as [c|]; [|reflexivity]. simpl.
  destruct (JsString.eqb (id c) j); [|reflexivity].
  unfold merge. simpl. now rewrite H2, H3.
Qed.

Lemma typing_view_handleFocus i j s :
  typing_view i (App.handleFocus j s) = typing_view i s.
Proof. unfold typing_view. now rewrite findCard_handleFocus. Qed.

Lemma typing_view_handleDeleteCard i j s :
  typing_view i (App.handleDeleteCard j s) =
  if JsString.eqb j i then None else typing_view i s.
Proof.
  unfold typing_view. rewrite findCard_handleDeleteCard.
  now destruct (JsString.eqb j i).
Qed.

Lemma typing_view_handlePrint W env t i s :
  typing_view i (App.handlePrint W env t s) =
  match typing_view i s with
  | Some v => Some v
  | None => if JsString.eqb (App.randomUUID env) i then Some (true, t) else None
  end.
Proof.
  unfold typing_view. rewrite findCard_handlePrint.
  destruct (findCard i s); [reflexivity|].
  destruct (JsString.eqb (App.randomUUID env) i); [|reflexivity].
  unfold App.handlePrint. cbn [App.setCards App.cards]. now rewrite last_last.
Qed.

Lemma neutral_mouseDown e : neutral (fun p => DraggablePaper.handleMouseDown p e).
Proof. intros c st s i. apply typing_view_handleFocus. Qed.

Lemma neutral_touchStart e : neutral (fun p => DraggablePaper.handleTouchStart p e).
Proof. intros c st s i. apply typing_view_handleFocus. Qed.

Lemma neutral_mouseMove e : neutral (fun p => DraggablePaper.handleMouseMove p e).
Proof.
  intros c st s i. unfold DraggablePaper.handleMouseMove.
  destruct (DraggablePaper.isDragging st); [|reflexivity].
  now apply typing_view_handleUpdateCard.
Qed.

Lemma neutral_touchMove e : neutral (fun p => DraggablePaper.handleTouchMove p e).
Proof.
  intros c st s i. unfold DraggablePaper.handleTouchMove.
  destruct (DraggablePaper.isDragging st); [|reflexivity].
  now apply typing_view_handleUpdateCard.
Qed.

Lemma neutral_mouseUp : neutral (fun _ '(st, s) => (DraggablePaper.handleMouseUp st, s)).
Proof. intros c st s i. reflexivity. Qed.

Lemma neutral_touchEnd : neutral (fun _ '(st, s) => (DraggablePaper.handleTouchEnd st, s)).
Proof. intros c st s i. reflexivity. Qed.

Lemma withPaper_app j h w :
  app (withPaper j h w) = app w \/
  exists c st, findCard j (app w) = Some c /\ lookup j (papers w) = Some st /\
               app (withPaper j h w) = snd (h (propsFor c) (st, app w)).
Proof.
  unfold withPaper.
  destruct (findCard j (app w)) as [c|]; [|now left].
  destruct (lookup j (papers w)) as [st|]; [|now left].
  right. exists c, st. repeat split.
  now destruct (h (propsFor c) (st, app w)).
Qed.

Lemma withPaper_view i j h w :
  neutral h -> typing_view i (app (withPaper j h w)) = typing_view i (app w).
Proof.
  intros N. destruct (withPaper_app j h w) as [-> | [c [st [_ [_ ->]]]]];
    [reflexivity | apply N].
Qed.

Lemma withEveryPaper_view i h w :
  neutral h -> typing_view i (app (withEveryPaper h w)) = typing_view i (app w).
Proof.
  intros N. unfold withEveryPaper. generalize (map fst (papers w)). intros ids.
  revert w. induction ids as [|j ids IH]; intros w; simpl; [reflexivity|].
  rewrite IH. now apply withPaper_view.
Qed.

Lemma timer_app j timing random w :
  app (typingTimerFires j timing random w) = app w \/
  exists c st,
    findCard j (app w) = Some c /\ lookup j (papers w) = Some st /\
    (List.length (text c) <= DraggablePaper.textIndex st)%nat /\
    app (typingTimerFires j timing random w) =
      App.handleUpdateCard j (mkPartial None None None None None None (Some false)) (app w).
Proof.
  unfold typingTimerFires.
  match goal with |- context [withPaper j ?h w] =>
    destruct (withPaper_app j h w) as [-> | [c [st [F [L ->]]]]] end;
    [now left|].
  cbn beta iota.
  destruct (DraggablePaper.typingTimeout st) as [d|] eqn:T; [|now left].
  unfold DraggablePaper.typeNextChar. cbn [DraggablePaper.set_typingTimeout
    DraggablePaper.textIndex DraggablePaper.data propsFor].
  destruct (Nat.ltb_spec (DraggablePaper.textIndex st) (List.length (text c)))
    as [Lt|Ge]; [now left|].
  right. exists c, st. repeat split; try assumption.
  cbn [snd DraggablePaper.onUpdate]. now rewrite (findCard_id _ _ _ F).
Qed.

(** The timer of [j] changes the flag of [i] only when [j] is [i], the card
    is typing and the index is at the end of its text. *)
Lemma timer_view i j timing random w :
  Inv w ->
  typing_view i (app (typingTimerFires j timing random w)) = typing_view i (app w) \/
  (j = i /\ exists t st,
      typing_view i (app w) = Some (true, t) /\
      typing_view i (app (typingTimerFires j timing random w)) = Some (false, t) /\
      lookup i (papers w) = Some st /\
      DraggablePaper.textIndex st = List.length t).
Proof.
  intros HI.
  destruct (timer_app j timing random w) as [-> | [c [st [F [L [Ge ->]]]]]]; [now left|].
  unfold typing_view. rewrite findCard_handleUpdateCard by reflexivity.
  destruct (findCard i (app w)) as [c'|] eqn:F'; [|now left].
  cbn [option_map]. pose proof (findCard_id _ _ _ F') as Hid'. rewrite Hid'.
  destruct (JsString.eqb i j) eqn:E; [|now left].
  apply JsString_eqb_eq in E. subst j. rewrite F in F'. injection F' as ->.
  unfold merge. cbn [or_else isTyping_ text_ isTyping text].
  destruct (isTyping c') eqn:B; [|now left].
  right. split; [reflexivity|]. exists (text c'), st. repeat split; try assumption.
  pose proof (HI i) as Hi. rewrite F, L in Hi. destruct Hi as [Hd [_ Ho]].
  unfold ok in Ho. rewrite Hd, B in Ho. destruct Ho as [_ Ho].
  specialize (Ho eq_refl). lia.
Qed.

Section WithConstants.

Variable W : Q.

(** What one event can do to the flag and the text of the card [i]:
    nothing; remove the card; create it, typing; or complete its reveal,
    and that only by its own timer with the index at the end of the
    text. *)
Lemma step_view ev w i :
  Inv w ->
  let v := typing_view i (app w) in
  let v' := typing_view i (app (step W ev w)) in
  v' = v \/
  v' = None \/
  (v = None /\ exists env t,
      ev = PrintButtonClick env /\ App.randomUUID env = i /\ v' = Some (true, t)) \/
  (exists timing r t st,
      ev = TypingTimerFires i timing r /\ v = Some (true, t) /\ v' = Some (false, t) /\
      lookup i (papers w) = Some st /\
      DraggablePaper.textIndex st = List.length t).
Proof.
  intros HI v v'. subst v v'. destruct ev; cbn [step].
  - left. apply typing_view_same_cards. unfold withApp, App.handleMachineMouseDown.
    cbn [app]. now destruct (Dom.closest_interactive _).
  - left. apply typing_view_same_cards. unfold withApp, App.handleMachineTouchStart.
    cbn [app]. now destruct (Dom.closest_interactive _).
  - left. unfold paperPointerDown. destruct (findCard id0 (app w)) as [c|]; [|reflexivity].
    destruct (isTyping c); [reflexivity|]. apply withPaper_view, neutral_mouseDown.
  - left. unfold paperPointerDown. destruct (findCard id0 (app w)) as [c|]; [|reflexivity].
    destruct (isTyping c); [reflexivity|]. apply withPaper_view, neutral_touchStart.
  - left. rewrite withEveryPaper_view by apply neutral_mouseMove.
    apply typing_view_same_cards. unfold withApp, App.handleMouseMove. cbn [app].
    now destruct (App.isDraggingMachine _).
  - left. rewrite withEveryPaper_view by apply neutral_mouseUp. reflexivity.
  - left. rewrite withEveryPaper_view by apply neutral_touchMove.
    apply typing_view_same_cards. unfold withApp, App.handleTouchMove. cbn [app].
    now destruct (App.isDraggingMachine _).
  - left. rewrite withEveryPaper_view by apply neutral_touchEnd. reflexivity.
  - (* the typing timer of [id0] *)
    destruct (timer_view i id0 timing random w HI) as [E | [-> [t [st H]]]];
      [now left|].
    right; right; right. exists timing, random, t, st. tauto.
  - (* delete *)
    destruct (findCard id0 (app w)) as [c|] eqn:F; [|now left].
    destruct (isTyping c); [now left|].
    unfold withApp, DraggablePaper.deleteButton_onClick. cbn [app propsFor
      DraggablePaper.onDelete DraggablePaper.data].
    rewrite typing_view_handleDeleteCard.
    destruct (JsString.eqb (id c) i); [right; now left | now left].
  - (* clear *)
    destruct confirmed; [right; left; reflexivity | now left].
  - (* print *)
    unfold printButtonClick.
    destruct (TypewriterConsole.button_disabled (console w)); [now left|].
    unfold submit, TypewriterConsole.handlePrint.
    destruct (negb _); [now left|].
    cbn [TypewriterConsole.playPrintSound consoleProps TypewriterConsole.onPrint app].
    rewrite typing_view_handlePrint.
    destruct (typing_view i (app w)) as [v|]; [now left|].
    destruct (JsString.eqb (App.randomUUID env) i) eqn:E; [|now left].
    right; right; left. split; [reflexivity|].
    exists env, (TypewriterConsole.input (console w)).
    apply JsString_eqb_eq in E. repeat split. exact E.
  - left. unfold polishButtonClick.
    now destruct (TypewriterConsole.polishButton_onClick (console w)) as [k [arg|]].
  - left. unfold polishSettles. now destruct (polishing w).
  - now left.
Qed.

(** Along any events that do not draw the identifier [i] again, the card
    [i] keeps its text, and a flag that is false stays false, for as long
    as the card is on the desk. *)
Lemma run_view evs : forall w i,
  Inv w -> fresh_for i evs ->
  match typing_view i (app w) with
  | Some (b, t) =>
      typing_view i (app (run W evs w)) = None \/
      exists b', typing_view i (app (run W evs w)) = Some (b', t) /\
                 (b = false -> b' = false)
  | None => typing_view i (app (run W evs w)) = None
  end.
Proof.
  induction evs as [|ev evs IH]; intros w i HI HF.
  - simpl. destruct (typing_view i (app w)) as [[b t]|]; [|reflexivity].
    right. exists b. split; [reflexivity|tauto].
  - inversion HF as [|? ? Hev HF']; subst. cbn [run fold_left].
    change (fold_left (fun w ev => step W ev w) evs (step W ev w))
      with (run W evs (step W ev w)).
    specialize (IH (step W ev w) i (Inv_step W ev w HI) HF').
    destruct (step_view ev w i HI) as [E | [E | [[E1 [env [t [-> [U _]]]]] | S4]]].
    + rewrite E in IH. exact IH.
    + rewrite E in IH. rewrite IH.
      destruct (typing_view i (app w)) as [[b t]|]; [now left|reflexivity].
    + contradiction.
    + destruct S4 as [timing [r [t [st [_ [E1 [E2 _]]]]]]].
      rewrite E1. rewrite E2 in IH. destruct IH as [IH | [b' [IH Hb]]]; [now left|].
      right. exists b'. split; [exact IH|]. intros _. now apply Hb.
Qed.

End WithConstants.

End View.

(** ** Claims on printing and revealing *)

Section RevealClaims.

Import Desk.

Variable W : Q.

Lemma reachable_Inv w : reachable W w -> Inv w.
Proof. intros [history [iw [ih ->]]]. apply Inv_run, Inv_initial. Qed.

Lemma flag_view i w b :
  flag i w = Some b <-> exists t, typing_view i (app w) = Some (b, t).
Proof.
  unfold flag, typing_view. destruct (findCard i (app w)) as [c|]; simpl.
  - split.
    + intros [= <-]. now exists (text c).
    + intros [t [= <- _]]. reflexivity.
  - split; [discriminate|]. intros [t H]. discriminate.
Qed.

(** In a state of the page, a card that is not typing shows its text, has
    no timer pending and nothing queued. *)
Lemma Inv_done i w c :
  Inv w -> findCard i (app w) = Some c -> isTyping c = false ->
  exists st,
    lookup i (papers w) = Some st /\
    DraggablePaper.displayedText st = text c /\
    DraggablePaper.typingTimeout st = None /\
    DraggablePaper.typingDeps st = Some (false, text c) /\
    DraggablePaper.pendingDisplayedText st = [].
Proof.
  intros HI F B. pose proof (HI i) as Hi. rewrite F in Hi.
  destruct (lookup i (papers w)) as [st|]; [|contradiction].
  destruct Hi as [Hd [Hp Ho]]. exists st. rewrite B in Hd.
  unfold ok in Ho. rewrite Hd in Ho. destruct Ho as [Ho _].
  destruct (Ho eq_refl) as [Ht Hr].
  unfold rendered, DraggablePaper.render in Hr. rewrite Hp in Hr. simpl in Hr.
  repeat split; assumption.
Qed.

(** C1.  Submitting a text that is not blank adds exactly one card, which
    holds the submitted text and starts with nothing shown; firing its
    timer once per code unit and once more completes the reveal, and
    whenever its flag is false afterwards the card shows the submitted
    text, code unit for code unit. *)
Theorem submit_round_trip
    (w : World) (env : App.PrintEnv)
    (ticks : list (React.UpdaterTiming * Q)) (evs : list Event)
    (Hreach : reachable W w)
    (Htext : JsString.trim (TypewriterConsole.input (console w)) <> [])
    (Hnew : findCard (App.randomUUID env) (app w) = None)
    (Hticks : List.length ticks = S (List.length (TypewriterConsole.input (console w))))
    (Hevs : fresh_for (App.randomUUID env) evs) :
  let txt := TypewriterConsole.input (console w) in
  let i := App.randomUUID env in
  let w1 := submit W env w in
  (exists c, App.cards (app w1) = App.cards (app w) ++ [c] /\
             id c = i /\ text c = txt /\ isTyping c = true) /\
  displayed i w1 = Some [] /\
  (flag i (fire i ticks w1) = Some false /\ displayed i (fire i ticks w1) = Some txt) /\
  (flag i (run W evs w1) = Some false -> displayed i (run W evs w1) = Some txt).
Proof.
  intros txt i w1. pose proof (reachable_Inv w Hreach) as HInv.
  destruct (submit_spawns W env w HInv Htext Hnew)
    as [c [Hc [Hid [Htxt [Hb [F [L _]]]]]]].
  fold w1 in Hc, F, L. fold i in Hid, F, L. fold txt in Htxt.
  split; [exists c; tauto|]. split; [unfold displayed; now rewrite L|]. split.
  - rewrite <- Htxt.
    eapply (fire_completes i (List.length txt) ticks w1 c _ 100 Hticks F Hb L);
      try reflexivity. simpl. now rewrite Htxt.
  - intros Hf.
    pose proof (Inv_run W evs w1 (Inv_submit W env w HInv)) as HI2.
    pose proof (run_view W evs w1 i (Inv_submit W env w HInv) Hevs) as V.
    unfold typing_view at 1 in V. rewrite F in V. cbn [option_map] in V.
    unfold flag in Hf.
    destruct (findCard i (app (run W evs w1))) as [c2|] eqn:F2; [|discriminate].
    injection Hf as B2.
    destruct (Inv_done i _ c2 HI2 F2 B2) as [st [L2 [D2 _]]].
    unfold displayed. rewrite L2. cbn [option_map]. rewrite D2. f_equal.
    unfold typing_view in V. rewrite F2 in V. cbn [option_map] in V.
    destruct V as [V | [b' [V _]]]; [discriminate|]. injection V as _ V. congruence.
Qed.

(** X19.  A card is created typing.  When the flag of a card goes from true
    to false, the event is the firing of its own timer with
    [textIndex.current] at the length of its text; afterwards the flag is
    never true again for as long as the card is on the desk, no timer is
    pending, and a further firing of the timer changes neither the cards
    nor the hooks of the card. *)
Theorem isTyping_flips_once
    (w : World) (i : JsString.t) (ev : Event) (evs : list Event)
    (timing : React.UpdaterTiming) (random : Q)
    (Hreach : reachable W w)
    (Hevs : fresh_for i evs)
    (Htrue : flag i w = Some true)
    (Hfalse : flag i (step W ev w) = Some false) :
  let w2 := run W evs (step W ev w) in
  (forall env t s, exists c,
      App.cards (App.handlePrint W env t s) = App.cards s ++ [c] /\ isTyping c = true) /\
  (exists tm rnd c st,
      ev = TypingTimerFires i tm rnd /\
      findCard i (app w) = Some c /\ lookup i (papers w) = Some st /\
      DraggablePaper.textIndex st = List.length (text c)) /\
  (flag i w2 = Some false \/ flag i w2 = None) /\
  (flag i w2 = Some false ->
   app (step W (TypingTimerFires i timing random) w2) = app w2 /\
   lookup i (papers (step W (TypingTimerFires i timing random) w2)) = lookup i (papers w2) /\
   exists st, lookup i (papers w2) = Some st /\
              DraggablePaper.typingTimeout st = None).
Proof.
  intros w2. pose proof (reachable_Inv w Hreach) as HInv.
  split; [|split; [|split]].
  - intros env t s. eexists. split; reflexivity.
  - apply flag_view in Htrue as [t Ht]. apply flag_view in Hfalse as [t' Ht'].
    destruct (step_view W ev w i HInv) as [E | [E | [[E _] | S4]]]; try congruence.
    destruct S4 as [tm [rnd [t0 [st [-> [E1 [_ [L Hk]]]]]]]].
    unfold typing_view in E1.
    destruct (findCard i (app w)) as [c|] eqn:F; [|discriminate].
    injection E1 as _ <-. exists tm, rnd, c, st. repeat split; assumption.
  - pose proof (run_view W evs (step W ev w) i (Inv_step W ev w HInv) Hevs) as V.
    apply flag_view in Hfalse as [t' Ht']. rewrite Ht' in V.
    destruct V as [V | [b' [V Hb]]].
    + right. unfold flag. unfold typing_view in V. fold w2 in V.
      now destruct (findCard i (app w2)).
    + left. apply flag_view. exists t'. fold w2 in V. rewrite V.
      now rewrite (Hb eq_refl).
  - intros Hf.
    pose proof (Inv_run W evs _ (Inv_step W ev w HInv)) as HI2. fold w2 in HI2.
    unfold flag in Hf.
    destruct (findCard i (app w2)) as [c2|] eqn:F2; [|discriminate].
    injection Hf as B2.
    destruct (Inv_done i w2 c2 HI2 F2 B2) as [st [L2 [D2 [T2 [Dp P2]]]]].
    cbn [step]. unfold typingTimerFires.
    rewrite (withPaper_found _ _ _ _ _ F2 L2). cbn beta iota. rewrite T2.
    cbn [app papers fst snd]. split; [reflexivity|]. split.
    + rewrite lookup_reconcile, F2, lookup_update, JsString_eqb_refl, L2.
      cbn [mounted_or_new]. rewrite commit_stable; [reflexivity| |exact P2].
      cbn [DraggablePaper.data propsFor]. now rewrite B2.
    + exists st. split; [exact L2|exact T2].
Qed.

End RevealClaims.

Section RevealWitnesses.

Import Desk.

Lemma submit_round_trip_witness :
  let env := App.mkPrintEnv 1024 (JsString.lit "card-1") (1 # 2) 1700000000 in
  let w := step 280 (TextareaChange (JsString.lit "hi")) (initial 1024 768) in
  let i := JsString.lit "card-1" in
  let ticks := [(React.AtDispatch, 0); (React.AtRender, 1 # 2); (React.AtRender, 0)] in
  let w1 := submit 280 env w in
  flag i (fire i ticks w1) = Some false /\
  displayed i (fire i ticks w1) = Some (JsString.lit "hi").
Proof.
  intros env w i ticks w1.
  refine (proj1 (proj2 (proj2
    (submit_round_trip 280 w env ticks [WindowMouseUp] _ _ _ _ _)))).
  - exists [TextareaChange (JsString.lit "hi")], 1024, 768. reflexivity.
  - vm_compute. discriminate.
  - reflexivity.
  - reflexivity.
  - repeat constructor.
Defined.

Lemma isTyping_flips_once_witness :
  let env := App.mkPrintEnv 1024 (JsString.lit "card-1") (1 # 2) 1700000000 in
  let i := JsString.lit "card-1" in
  let w := run 280 [TextareaChange (JsString.lit "hi"); PrintButtonClick env;
                    TypingTimerFires i React.AtDispatch 0;
                    TypingTimerFires i React.AtRender 0] (initial 1024 768) in
  let ev := TypingTimerFires i React.AtRender 0 in
  let evs := [WindowMouseUp; TypingTimerFires i React.AtRender 0] in
  flag i (run 280 evs (step 280 ev w)) = Some false \/
  flag i (run 280 evs (step 280 ev w)) = None.
Proof.
  intros env i w ev evs.
  refine (proj1 (proj2 (proj2
    (isTyping_flips_once 280 w i ev evs React.AtRender 0 _ _ _ _)))).
  - exists [TextareaChange (JsString.lit "hi"); PrintButtonClick env;
            TypingTimerFires i React.AtDispatch 0;
            TypingTimerFires i React.AtRender 0], 1024, 768. reflexivity.
  - repeat constructor.
  - vm_compute. reflexivity.
  - vm_compute. reflexivity.
Defined.

End RevealWitnesses.

(** ** Dragging *)

Section Drag.

Import Desk.

(** *** The machine *)

(** A pointer-down on a control inside the machine starts nothing. *)
Lemma handleMachineMouseDown_on_control e s :
  Dom.closest_interactive (Dom.target e) <> None ->
  App.handleMachineMouseDown e s = s.
Proof.
  intros H. unfold App.handleMachineMouseDown.
  now destruct (Dom.closest_interactive (Dom.target e)).
Qed.

Lemma handleMachineTouchStart_on_control e s :
  Dom.closest_interactive (Dom.touchTarget e) <> None ->
  App.handleMachineTouchStart e s = s.
Proof.
  intros H. unfold App.handleMachineTouchStart.
  now destruct (Dom.closest_interactive (Dom.touchTarget e)).
Qed.

Lemma withPaper_machine j h w :
  (forall c st s, machine_of (snd (h (propsFor c) (st, s))) = machine_of s) ->
  machine_of (app (withPaper j h w)) = machine_of (app w).
Proof.
  intros N. destruct (withPaper_app j h w) as [-> | [c [st [_ [_ ->]]]]];
    [reflexivity | apply N].
Qed.

Lemma withEveryPaper_machine h w :
  (forall c st s, machine_of (snd (h (propsFor c) (st, s))) = machine_of s) ->
  machine_of (app (withEveryPaper h w)) = machine_of (app w).
Proof.
  intros N. unfold withEveryPaper. generalize (map fst (papers w)). intros ids.
  revert w. induction ids as [|j ids IH]; intros w; simpl; [reflexivity|].
  rewrite IH. now apply withPaper_machine.
Qed.

Lemma move_handler_mouse e :
  move_handler (Dom.clientX e) (Dom.clientY e)
               (fun p => DraggablePaper.handleMouseMove p e).
Proof. intros p st s. reflexivity. Qed.

Lemma move_handler_touch e :
  move_handler (Dom.touchX (Dom.touches0 e)) (Dom.touchY (Dom.touches0 e))
               (fun p => DraggablePaper.handleTouchMove p e).
Proof. intros p st s. reflexivity. Qed.

Lemma move_handler_machine qx qy h :
  move_handler qx qy h ->
  forall c st s, machine_of (snd (h (propsFor c) (st, s))) = machine_of s.
Proof.
  intros H c st s. rewrite H. now destruct (DraggablePaper.isDragging st).
Qed.

Section WithConstants.

Variable W : Q.

(** A pointer move takes a machine that is dragged to the pointer less
    the offset, and leaves the session as it is. *)
Lemma move_machine mv qx qy w :
  pointerMove mv = Some (qx, qy) ->
  App.isDraggingMachine (app w) = true ->
  machine_of (app (step W mv w)) =
  (Coordinates.mk (qx - Coordinates.x (App.machineDragOffset (app w)))
                  (qy - Coordinates.y (App.machineDragOffset (app w))),
   true, App.machineDragOffset (app w)).
Proof.
  intros P D. destruct mv; try discriminate; injection P as <- <-; cbn [step].
  - rewrite withEveryPaper_machine
      by exact (move_handler_machine _ _ _ (move_handler_mouse e)).
    unfold withApp, App.handleMouseMove, machine_of. cbn [app]. rewrite D. cbn. now rewrite D.
  - rewrite withEveryPaper_machine
      by exact (move_handler_machine _ _ _ (move_handler_touch e)).
    unfold withApp, App.handleTouchMove, machine_of. cbn [app]. rewrite D. cbn. now rewrite D.
Qed.

Lemma moves_machine moves : forall w,
  Forall (fun ev => pointerMove ev <> None) moves ->
  App.isDraggingMachine (app w) = true ->
  App.isDraggingMachine (app (run W moves w)) = true /\
  App.machineDragOffset (app (run W moves w)) = App.machineDragOffset (app w).
Proof.
  induction moves as [|mv moves IH]; intros w HF D; [now split|].
  inversion HF as [|? ? Hmv HF']; subst.
  destruct (pointerMove mv) as [[qx qy]|] eqn:P; [|contradiction].
  pose proof (move_machine mv qx qy w P D) as M. unfold machine_of in M.
  injection M as _ M2 M3.
  cbn [run fold_left].
  change (fold_left (fun w ev => step W ev w) moves (step W mv w))
    with (run W moves (step W mv w)).
  destruct (IH (step W mv w) HF' M2) as [A B]. split; [exact A|congruence].
Qed.

(** The machine, picked up at [(px, py)] away from its controls, follows
    the pointer. *)
Lemma machine_follows w down el px py moves mv qx qy :
  machinePickup down = Some (el, px, py) ->
  Dom.closest_interactive el = None ->
  Forall (fun ev => pointerMove ev <> None) moves ->
  pointerMove mv = Some (qx, qy) ->
  let pos := App.machinePos (app (step W mv (run W moves (step W down w)))) in
  Coordinates.x pos == Coordinates.x (App.machinePos (app w)) + (qx - px) /\
  Coordinates.y pos == Coordinates.y (App.machinePos (app w)) + (qy - py).
Proof.
  intros Hd Hc HF Hm pos.
  assert (S1 : App.isDraggingMachine (app (step W down w)) = true /\
               App.machineDragOffset (app (step W down w)) =
               Coordinates.mk (px - Coordinates.x (App.machinePos (app w)))
                              (py - Coordinates.y (App.machinePos (app w)))).
  { destruct down; try discriminate; injection Hd as <- <- <-; cbn [step withApp app].
    - unfold App.handleMachineMouseDown. rewrite Hc. split; reflexivity.
    - unfold App.handleMachineTouchStart. rewrite Hc. split; reflexivity. }
  destruct S1 as [D1 O1].
  destruct (moves_machine moves _ HF D1) as [D2 O2].
  pose proof (move_machine mv qx qy _ Hm D2) as M. unfold machine_of in M.
  injection M as M1 _ _. subst pos. rewrite M1, O2, O1. cbn. split; ring.
Qed.

End WithConstants.

End Drag.

Section DragCard.

Import Desk.

Lemma held_reconcile i off s k ps q c st :
  findCard i s = Some c ->
  lookup i ps = Some st ->
  DraggablePaper.isDragging st = true ->
  DraggablePaper.dragOffset st = off ->
  held i off (mk s k (reconcile s ps) q).
Proof.
  intros F L D O. exists c, (DraggablePaper.commit (propsFor c) st). cbn [app papers].
  rewrite lookup_reconcile, F, L. cbn [mounted_or_new].
  rewrite commit_isDragging, commit_dragOffset. now repeat split.
Qed.

Lemma findCard_move_other i j u s c :
  findCard i s = Some c -> JsString.eqb j i = false -> id_ u = None ->
  findCard i (App.handleUpdateCard j u s) = Some c.
Proof.
  intros F N Hu. rewrite findCard_handleUpdateCard by exact Hu. rewrite F. simpl.
  now rewrite (findCard_id _ _ _ F), JsString_eqb_sym, N.
Qed.

(** The listener of another card leaves the card [i] where it is and its
    session as it is. *)
Lemma withPaper_other i j off qx qy h w :
  move_handler qx qy h -> JsString.eqb j i = false ->
  held i off w ->
  held i off (withPaper j h w) /\
  (forall px py, card_at i px py w -> card_at i px py (withPaper j h w)).
Proof.
  intros Hh N [c [st [F [L [D O]]]]].
  destruct (findCard j (app w)) as [cj|] eqn:Fj.
  2:{ unfold withPaper. rewrite Fj. split; [now exists c, st | tauto]. }
  destruct (lookup j (papers w)) as [stj|] eqn:Lj.
  2:{ unfold withPaper. rewrite Fj, Lj. split; [now exists c, st | tauto]. }
  rewrite (withPaper_found _ _ _ _ _ Fj Lj).
  remember (h (propsFor cj) (stj, app w)) as r eqn:E. rewrite Hh in E.
  cbn [DraggablePaper.onUpdate DraggablePaper.data propsFor] in E.
  rewrite (findCard_id _ _ _ Fj) in E.
  destruct (DraggablePaper.isDragging stj); subst r; cbn [fst snd].
  - split.
    + eapply held_reconcile; [|rewrite lookup_update, N; exact L|exact D|exact O].
      apply findCard_move_other; [exact F|exact N|reflexivity].
    + intros px py [c' [F' [X Y]]]. exists c'. cbn [app]. split; [|now split].
      apply findCard_move_other; [exact F'|exact N|reflexivity].
  - split.
    + eapply held_reconcile; [exact F|rewrite lookup_update, N; exact L|exact D|exact O].
    + intros px py H. exact H.
Qed.

(** The listener of the card [i] itself takes it to the pointer less the
    offset. *)
Lemma withPaper_self i off qx qy h w :
  move_handler qx qy h ->
  held i off w ->
  held i off (withPaper i h w) /\
  card_at i (qx - Coordinates.x off) (qy - Coordinates.y off) (withPaper i h w).
Proof.
  intros Hh [c [st [F [L [D O]]]]].
  rewrite (withPaper_found _ _ _ _ _ F L).
  remember (h (propsFor c) (st, app w)) as r eqn:E. rewrite Hh, D in E.
  cbn [DraggablePaper.onUpdate DraggablePaper.data propsFor] in E.
  rewrite (findCard_id _ _ _ F), O in E. subst r. cbn [fst snd].
  assert (F' : findCard i (App.handleUpdateCard i
                 (mkPartial None None (Some (qx - Coordinates.x off))
                            (Some (qy - Coordinates.y off)) None None None) (app w))
               = Some (merge c (mkPartial None None (Some (qx - Coordinates.x off))
                                 (Some (qy - Coordinates.y off)) None None None))).
  { rewrite findCard_handleUpdateCard by reflexivity. rewrite F. simpl.
    now rewrite (findCard_id _ _ _ F), JsString_eqb_refl. }
  split.
  - eapply held_reconcile; [exact F'| |exact D|exact O].
    rewrite lookup_update, JsString_eqb_refl, L. reflexivity.
  - eexists. cbn [app]. split; [exact F'|]. split; reflexivity.
Qed.

Lemma fold_withPaper_held i off qx qy h ids : forall w,
  move_handler qx qy h ->
  held i off w ->
  In i ids \/ card_at i (qx - Coordinates.x off) (qy - Coordinates.y off) w ->
  held i off (fold_left (fun w j => withPaper j h w) ids w) /\
  card_at i (qx - Coordinates.x off) (qy - Coordinates.y off)
          (fold_left (fun w j => withPaper j h w) ids w).
Proof.
  induction ids as [|j ids IH]; intros w Hh H A.
  - destruct A as [[]|A]. now split.
  - cbn [fold_left]. destruct (JsString.eqb j i) eqn:E.
    + apply JsString_eqb_eq in E. subst j.
      destruct (withPaper_self i off qx qy h w Hh H) as [H' C'].
      apply IH; [exact Hh|exact H'|now right].
    + destruct (withPaper_other i j off qx qy h w Hh E H) as [H' C'].
      apply IH; [exact Hh|exact H'|].
      destruct A as [[A|A]|A].
      * subst j. now rewrite JsString_eqb_refl in E.
      * now left.
      * right. now apply C'.
Qed.

Lemma withEveryPaper_held i off qx qy h w :
  move_handler qx qy h ->
  held i off w ->
  held i off (withEveryPaper h w) /\
  card_at i (qx - Coordinates.x off) (qy - Coordinates.y off) (withEveryPaper h w).
Proof.
  intros Hh H. apply fold_withPaper_held; [exact Hh|exact H|].
  left. destruct H as [c [st [_ [L _]]]]. now apply lookup_In in L.
Qed.

Lemma withApp_held i off f w :
  (forall s, App.cards (f s) = App.cards s) ->
  held i off w -> held i off (withApp f w).
Proof.
  intros Hf [c [st [F [L [D O]]]]]. unfold withApp.
  eapply held_reconcile; [|exact L|exact D|exact O].
  unfold findCard. rewrite Hf. exact F.
Qed.

Section WithConstants.

Variable W : Q.

Lemma move_card i off mv qx qy w :
  pointerMove mv = Some (qx, qy) ->
  held i off w ->
  held i off (step W mv w) /\
  card_at i (qx - Coordinates.x off) (qy - Coordinates.y off) (step W mv w).
Proof.
  intros P H. destruct mv; try discriminate; injection P as <- <-; cbn [step].
  - apply withEveryPaper_held; [apply move_handler_mouse|].
    apply withApp_held; [|exact H].
    intros s. unfold App.handleMouseMove. now destruct (App.isDraggingMachine s).
  - apply withEveryPaper_held; [apply move_handler_touch|].
    apply withApp_held; [|exact H].
    intros s. unfold App.handleTouchMove. now destruct (App.isDraggingMachine s).
Qed.

Lemma moves_card i off moves : forall w,
  Forall (fun ev => pointerMove ev <> None) moves ->
  held i off w -> held i off (run W moves w).
Proof.
  induction moves as [|mv moves IH]; intros w HF H; [exact H|].
  inversion HF as [|? ? Hmv HF']; subst.
  destruct (pointerMove mv) as [[qx qy]|] eqn:P; [|contradiction].
  cbn [run fold_left]. apply IH; [exact HF'|].
  now apply (move_card i off mv qx qy w P H).
Qed.

(** A pointer-down on a card that is not typing starts a session with the
    offset from the card to the pointer. *)
Lemma pickup_card i w c down px py :
  Inv w ->
  findCard i (app w) = Some c -> isTyping c = false ->
  paperPickup i down = Some (px, py) ->
  held i (Coordinates.mk (px - x c) (py - y c)) (step W down w).
Proof.
  intros HI F B P.
  destruct (Inv_done i w c HI F B) as [st [L _]].
  destruct down; try discriminate; cbn [paperPickup] in P;
    destruct (JsString.eqb id0 i) eqn:E; try discriminate;
    apply JsString_eqb_eq in E; subst id0; injection P as <- <-;
    cbn [step]; unfold paperPointerDown; rewrite F, B;
    unfold withPaper; rewrite F, L.
  - cbn [DraggablePaper.handleMouseDown DraggablePaper.onFocus propsFor
         DraggablePaper.data].
    eapply held_reconcile.
    + rewrite findCard_handleFocus. exact F.
    + rewrite lookup_update, JsString_eqb_refl, L. reflexivity.
    + reflexivity.
    + reflexivity.
  - cbn [DraggablePaper.handleTouchStart DraggablePaper.onFocus propsFor
         DraggablePaper.data].
    eapply held_reconcile.
    + rewrite findCard_handleFocus. exact F.
    + rewrite lookup_update, JsString_eqb_refl, L. reflexivity.
    + reflexivity.
    + reflexivity.
Qed.

(** A card, picked up at [(px, py)], follows the pointer. *)
Lemma card_follows i w c down px py moves mv qx qy :
  Inv w ->
  findCard i (app w) = Some c -> isTyping c = false ->
  paperPickup i down = Some (px, py) ->
  Forall (fun ev => pointerMove ev <> None) moves ->
  pointerMove mv = Some (qx, qy) ->
  exists c', findCard i (app (step W mv (run W moves (step W down w)))) = Some c' /\
             x c' == x c + (qx - px) /\ y c' == y c + (qy - py).
Proof.
  intros HI F B P HF Hm.
  pose proof (pickup_card i w c down px py HI F B P) as H1.
  pose proof (moves_card i _ moves _ HF H1) as H2.
  destruct (move_card i _ mv qx qy _ Hm H2) as [_ [c' [F' [X Y]]]].
  exists c'. split; [exact F'|]. rewrite X, Y. cbn. split; ring.
Qed.

End WithConstants.

End DragCard.

(** ** Claims on dragging *)

Section DragClaims.

Import Desk.

Variable W : Q.

(** Dragging in exact arithmetic.  A machine picked up at [(mx, my)] away
    from its controls, and a card picked up at [(px, py)], are after any
    pointer moves and a move to [(qx, qy)] at their position at pick-up
    plus the displacement of the pointer, as rationals.  What the code
    computes on binary64 numbers is in [drag_follows_pointer] below. *)
Theorem drag_translates
    (w : World) (i : JsString.t) (c : PaperCardData.t)
    (downM downP : Event) (el : Dom.Element) (mx my px py : Q)
    (moves : list Event) (mv : Event) (qx qy : Q)
    (Hreach : reachable W w)
    (HdownM : machinePickup downM = Some (el, mx, my))
    (Hel : Dom.closest_interactive el = None)
    (Hcard : findCard i (app w) = Some c)
    (Hdone : isTyping c = false)
    (HdownP : paperPickup i downP = Some (px, py))
    (Hmoves : Forall (fun ev => pointerMove ev <> None) moves)
    (Hmv : pointerMove mv = Some (qx, qy)) :
  (let pos := App.machinePos (app (step W mv (run W moves (step W downM w)))) in
   Coordinates.x pos == Coordinates.x (App.machinePos (app w)) + (qx - mx) /\
   Coordinates.y pos == Coordinates.y (App.machinePos (app w)) + (qy - my)) /\
  (exists c', findCard i (app (step W mv (run W moves (step W downP w)))) = Some c' /\
              x c' == x c + (qx - px) /\ y c' == y c + (qy - py)).
Proof.
  split.
  - exact (machine_follows W w downM el mx my moves mv qx qy HdownM Hel Hmoves Hmv).
  - exact (card_follows W i w c downP px py moves mv qx qy
             (reachable_Inv W w Hreach) Hcard Hdone HdownP Hmoves Hmv).
Qed.

(** A machine that is not dragged stays where it is under pointer moves. *)
Lemma moves_machine_idle moves : forall w,
  Forall (fun ev => pointerMove ev <> None) moves ->
  App.isDraggingMachine (app w) = false ->
  machine_of (app (run W moves w)) = machine_of (app w).
Proof.
  induction moves as [|mv moves IH]; intros w HF D; [reflexivity|].
  inversion HF as [|? ? Hmv HF']; subst. cbn [run fold_left].
  change (fold_left (fun w ev => step W ev w) moves (step W mv w))
    with (run W moves (step W mv w)).
  assert (M : machine_of (app (step W mv w)) = machine_of (app w)).
  { destruct mv; try (now elim Hmv); cbn [step].
    - rewrite withEveryPaper_machine
        by exact (move_handler_machine _ _ _ (move_handler_mouse e)).
      unfold withApp, App.handleMouseMove. cbn [app]. now rewrite D.
    - rewrite withEveryPaper_machine
        by exact (move_handler_machine _ _ _ (move_handler_touch e)).
      unfold withApp, App.handleTouchMove. cbn [app]. now rewrite D. }
  rewrite IH; [exact M|exact HF'|].
  unfold machine_of in M. injection M as _ M _. congruence.
Qed.

(** The part of C3 that holds: a pointer-down on a control inside the
    machine leaves the state of [App] as it is, and the pointer moves that
    follow leave the machine where it is. *)
Lemma machine_ignores_controls w down el mx my moves :
  machinePickup down = Some (el, mx, my) ->
  Dom.closest_interactive el <> None ->
  Forall (fun ev => pointerMove ev <> None) moves ->
  App.isDraggingMachine (app w) = false ->
  app (step W down w) = app w /\
  App.machinePos (app (run W moves (step W down w))) = App.machinePos (app w).
Proof.
  intros Hd Hc HF D.
  assert (A : app (step W down w) = app w).
  { destruct down; try discriminate; injection Hd as <- _ _; cbn [step withApp app].
    - now apply handleMachineMouseDown_on_control.
    - now apply handleMachineTouchStart_on_control. }
  split; [exact A|].
  pose proof (moves_machine_idle moves (step W down w) HF) as M.
  rewrite A in M. specialize (M D). unfold machine_of in M. now injection M.
Qed.

End DragClaims.

Section DragEvaluations.

Import Desk.

Lemma drag_translates_witness :
  let env := App.mkPrintEnv 1024 (JsString.lit "card-1") (1 # 2) 1700000000 in
  let i := JsString.lit "card-1" in
  let w := run 280 [TextareaChange (JsString.lit "hi"); PrintButtonClick env;
                    TypingTimerFires i React.AtDispatch 0;
                    TypingTimerFires i React.AtRender 0;
                    TypingTimerFires i React.AtRender 0] (initial 1024 768) in
  let down := PaperMouseDown i (Dom.mkMouse [Dom.div] 500 300) in
  let moves := [WindowMouseMove (Dom.mkMouse [] 505 300);
                WindowTouchMove (Dom.mkTouchEvent [] (Dom.mkTouch 510 305) true)] in
  let mv := WindowMouseMove (Dom.mkMouse [] 520 310) in
  exists c,
    findCard i (app w) = Some c /\
    exists c',
      findCard i (app (step 280 mv (run 280 moves (step 280 down w)))) = Some c' /\
      x c' == x c + (520 - 500) /\ y c' == y c + (310 - 300).
Proof.
  intros env i w down moves mv.
  eexists. split; [lazy; reflexivity|].
  refine (proj2 (drag_translates 280 w i _
                   (MachineMouseDown (Dom.mkMouse [Dom.div] 600 500)) down
                   [Dom.div] 600 500 500 300 moves mv 520 310 _ _ _ _ _ _ _ _)).
  - exists [TextareaChange (JsString.lit "hi"); PrintButtonClick env;
            TypingTimerFires i React.AtDispatch 0;
            TypingTimerFires i React.AtRender 0;
            TypingTimerFires i React.AtRender 0], 1024, 768. reflexivity.
  - reflexivity.
  - reflexivity.
  - lazy. reflexivity.
  - reflexivity.
  - reflexivity.
  - repeat constructor; discriminate.
  - reflexivity.
Defined.

End DragEvaluations.

(** ** Dragging on binary64 numbers *)

Section DragBinary64.

Import PrimFloat.
Import Binary64.






End DragBinary64.

(** ** Where the code departs from the claims *)

Section Departures.

Import Desk.

(** C3 on a card.  The handlers of a card do not look at the target of the
    event: a mouse-down (or a touch-start) on the delete button of a card
    starts a drag session, and the next pointer move takes the card
    along. *)
Theorem paper_drag_starts_on_delete_button :
  let env := App.mkPrintEnv 1024 (JsString.lit "card-1") (1 # 2) 1700000000 in
  let i := JsString.lit "card-1" in
  let w := run 280 [TextareaChange (JsString.lit "hi"); PrintButtonClick env;
                    TypingTimerFires i React.AtDispatch 0;
                    TypingTimerFires i React.AtRender 0;
                    TypingTimerFires i React.AtRender 0] (initial 1024 768) in
  let deleteButton := [Dom.svg; Dom.button; Dom.div; Dom.div; Dom.div; Dom.div] in
  let mouseDown := PaperMouseDown i (Dom.mkMouse deleteButton 500 300) in
  let touchStart :=
    PaperTouchStart i (Dom.mkTouchEvent deleteButton (Dom.mkTouch 500 300) true) in
  let mv := WindowMouseMove (Dom.mkMouse [] 520 310) in
  Dom.closest_interactive deleteButton <> None /\
  flag i w = Some false /\
  exists c, findCard i (app w) = Some c /\
    (exists st c',
        lookup i (papers (step 280 mouseDown w)) = Some st /\
        DraggablePaper.isDragging st = true /\
        findCard i (app (step 280 mv (step 280 mouseDown w))) = Some c' /\
        x c' == x c + 20 /\ y c' == y c + 10 /\ ~ x c' == x c) /\
    (exists st c',
        lookup i (papers (step 280 touchStart w)) = Some st /\
        DraggablePaper.isDragging st = true /\
        findCard i (app (step 280 mv (step 280 touchStart w))) = Some c' /\
        x c' == x c + 20 /\ y c' == y c + 10 /\ ~ x c' == x c).
Proof.
  intros env i w deleteButton mouseDown touchStart mv.
  split; [discriminate|]. split; [vm_compute; reflexivity|].
  eexists. split; [lazy; reflexivity|].
  split; do 2 eexists;
    (split; [lazy; reflexivity|]); (split; [reflexivity|]);
    (split; [lazy; reflexivity|]); cbn [x y];
    (split; [reflexivity|]); (split; [reflexivity|]); discriminate.
Qed.

(** C2.  A reveal step does not always extend what the card shows by the
    next code unit of its text.  The updater given to [setDisplayedText]
    reads [textIndex.current] when React runs it; when React runs it in
    the render that follows, the index has been incremented already.  For
    the text "abc", with the first update computed eagerly and the others
    queued, the second step shows "ac" and the third adds nothing, so the
    card is still typing with two code units shown after three steps. *)
Theorem reveal_skips_code_unit :
  let env := App.mkPrintEnv 1024 (JsString.lit "card-1") (1 # 2) 1700000000 in
  let i := JsString.lit "card-1" in
  let w1 := run 280 [TextareaChange (JsString.lit "abc"); PrintButtonClick env]
                (initial 1024 768) in
  displayed i w1 = Some [] /\
  displayed i (fire i [(React.AtDispatch, 0)] w1) = Some (JsString.lit "a") /\
  displayed i (fire i [(React.AtDispatch, 0); (React.AtRender, 0)] w1)
    = Some (JsString.lit "ac") /\
  ~ is_prefix (JsString.lit "ac") (JsString.lit "abc") /\
  displayed i (fire i [(React.AtDispatch, 0); (React.AtRender, 0); (React.AtRender, 0)] w1)
    = Some (JsString.lit "ac") /\
  flag i (fire i [(React.AtDispatch, 0); (React.AtRender, 0); (React.AtRender, 0)] w1)
    = Some true.
Proof.
  intros env i w1. repeat split; try (vm_compute; reflexivity).
  intros [rest H]. discriminate.
Qed.

(** C6.  The flag does not wait for the card to show its whole text.  It
    flips when [textIndex.current] has reached the length of the text,
    and the steps counted there may have shown less (C2).  For the text
    "abc", with the first update computed eagerly and the next two queued,
    the card is typing and shows "ac" after three steps; the next firing
    of its timer sets the flag to false, whichever way React schedules
    it, and only the typing effect, run for the new flag, makes the card
    show "abc". *)
Theorem flag_flips_before_full_text :
  let env := App.mkPrintEnv 1024 (JsString.lit "card-1") (1 # 2) 1700000000 in
  let i := JsString.lit "card-1" in
  let w := run 280 [TextareaChange (JsString.lit "abc"); PrintButtonClick env;
                    TypingTimerFires i React.AtDispatch 0;
                    TypingTimerFires i React.AtRender 0;
                    TypingTimerFires i React.AtRender 0] (initial 1024 768) in
  reachable 280 w /\
  (exists c st,
      findCard i (app w) = Some c /\ lookup i (papers w) = Some st /\
      text c = JsString.lit "abc" /\ isTyping c = true /\
      DraggablePaper.displayedText st = JsString.lit "ac" /\
      DraggablePaper.pendingDisplayedText st = [] /\
      DraggablePaper.textIndex st = 3%nat) /\
  displayed i w = Some (JsString.lit "ac") /\
  ~ is_prefix (JsString.lit "ac") (JsString.lit "abc") /\
  forall timing random,
    flag i (step 280 (TypingTimerFires i timing random) w) = Some false /\
    displayed i (step 280 (TypingTimerFires i timing random) w)
      = Some (JsString.lit "abc").
Proof.
  intros env i w. split; [|split; [|split; [|split]]].
  - exists [TextareaChange (JsString.lit "abc"); PrintButtonClick env;
            TypingTimerFires i React.AtDispatch 0;
            TypingTimerFires i React.AtRender 0;
            TypingTimerFires i React.AtRender 0], 1024, 768. reflexivity.
  - do 2 eexists. split; [lazy; reflexivity|]. split; [lazy; reflexivity|].
    repeat split.
  - vm_compute. reflexivity.
  - intros [rest H]. discriminate.
  - intros timing random. split.
    + destruct timing; lazy; reflexivity.
    + destruct timing; lazy; reflexivity.
Qed.

Lemma firstn_charAt (t : JsString.t) (k : nat) :
  (k < List.length t)%nat -> firstn k t ++ JsString.charAt t k = firstn (S k) t.
Proof.
  revert k. induction t as [|a t IH]; intros k H; simpl in H; [lia|].
  destruct k as [|k]; [reflexivity|].
  change (a :: (firstn k t ++ JsString.charAt t k) = a :: firstn (S k) t).
  f_equal. apply IH. lia.
Qed.

(** What C2 asks for is what the code does as long as React computes every
    update eagerly: the card then shows the first [k] code units after [k]
    steps. *)
Lemma fire_eager i ticks : forall w c st d,
  Forall (fun tick => fst tick = React.AtDispatch) ticks ->
  findCard i (app w) = Some c ->
  isTyping c = true ->
  lookup i (papers w) = Some st ->
  DraggablePaper.typingDeps st = Some (true, text c) ->
  DraggablePaper.pendingDisplayedText st = [] ->
  DraggablePaper.typingTimeout st = Some d ->
  DraggablePaper.displayedText st = firstn (DraggablePaper.textIndex st) (text c) ->
  (DraggablePaper.textIndex st + List.length ticks <= List.length (text c))%nat ->
  displayed i (fire i ticks w) =
    Some (firstn (DraggablePaper.textIndex st + List.length ticks) (text c)) /\
  flag i (fire i ticks w) = Some true.
Proof.
  induction ticks as [|[timing r] ticks IH]; intros w c st d HF F Hb L Hd Hp Ht Hs Hn.
  - cbn [fire fold_left List.length]. rewrite Nat.add_0_r.
    unfold displayed, flag. rewrite L, F. simpl. now rewrite Hs, Hb.
  - inversion HF as [|? ? Htm HF']; subst. simpl in Htm. subst timing.
    cbn [List.length] in Hn. cbn [fire fold_left fst snd].
    destruct (timer_reveals i React.AtDispatch r w c st d F L Hd Hb Hp Ht) as [A L'];
      [lia|].
    assert (F' : findCard i (app (typingTimerFires i React.AtDispatch r w)) = Some c)
      by (rewrite A; exact F).
    destruct (IH _ c _ _ HF' F' Hb L' eq_refl eq_refl eq_refl) as [D1 D2].
    + cbn [DraggablePaper.displayedText DraggablePaper.textIndex].
      rewrite Hs. apply firstn_charAt. lia.
    + cbn [DraggablePaper.textIndex]. lia.
    + cbn [DraggablePaper.textIndex] in D1. cbn [List.length].
      rewrite Nat.add_succ_r. split; [exact D1|exact D2].
Qed.

End Departures.

(** * Further properties of the code *)

(** ** The card collection, operation by operation *)

Section CollectionOperations.

Import App.

Lemma setCards_same f (s : App.State) : f (cards s) = cards s -> setCards f s = s.
Proof. intros H. unfold setCards. rewrite H. now destruct s. Qed.

Lemma filter_absent id0 (l : list PaperCardData.t) :
  Forall (fun c => id c <> id0) l ->
  filter (fun c => negb (JsString.eqb (id c) id0)) l = l.
Proof.
  induction 1 as [|c l Hc _ IH]; simpl; [reflexivity|].
  apply JsString_eqb_neq in Hc. now rewrite Hc, IH.
Qed.

Lemma map_absent id0 (f : PaperCardData.t -> PaperCardData.t) (l : list PaperCardData.t) :
  Forall (fun c => id c <> id0) l ->
  map (fun c => if JsString.eqb (id c) id0 then f c else c) l = l.
Proof.
  induction 1 as [|c l Hc _ IH]; simpl; [reflexivity|].
  apply JsString_eqb_neq in Hc. now rewrite Hc, IH.
Qed.

(** X1.  Deleting an id no card has, or updating it, changes nothing of
    the state of [App]. *)
Theorem absent_id_noop (id0 : JsString.t) (updates : PaperCardData.partial)
    (s : App.State)
    (H : Forall (fun c => id c <> id0) (cards s)) :
  handleDeleteCard id0 s = s /\ handleUpdateCard id0 updates s = s.
Proof.
  split.
  - apply setCards_same. now apply filter_absent.
  - apply setCards_same. now apply map_absent.
Qed.

Lemma absent_id_noop_witness :
  let s := App.mk [PaperCardData.mk (JsString.lit "a") (JsString.lit "hi") 1 2 0 0 false]
                  10 (Coordinates.mk 0 0) false (Coordinates.mk 0 0) in
  let u := mkPartial None None (Some 5) (Some 6) None None None in
  handleDeleteCard (JsString.lit "b") s = s /\ handleUpdateCard (JsString.lit "b") u s = s.
Proof.
  apply (absent_id_noop (JsString.lit "b")
           (mkPartial None None (Some 5) (Some 6) None None None)
           (App.mk [PaperCardData.mk (JsString.lit "a") (JsString.lit "hi") 1 2 0 0 false]
                   10 (Coordinates.mk 0 0) false (Coordinates.mk 0 0))).
  simpl. constructor; [discriminate | constructor].
Defined.

(** X2.  Deleting the id of a card removes that card and nothing else: the
    other cards stay as they are and in their order, and so does the rest
    of the state of [App]. *)
Theorem handleDeleteCard_removes (s : App.State) (before after : list PaperCardData.t)
    (c : PaperCardData.t)
    (Hs : cards s = before ++ c :: after)
    (Hb : Forall (fun c' => id c' <> id c) before)
    (Ha : Forall (fun c' => id c' <> id c) after) :
  handleDeleteCard (id c) s =
  App.mk (before ++ after) (topZIndex s) (machinePos s) (isDraggingMachine s)
         (machineDragOffset s).
Proof.
  unfold handleDeleteCard, setCards. rewrite Hs, filter_app. simpl.
  rewrite JsString_eqb_refl. simpl.
  now rewrite (filter_absent _ _ Hb), (filter_absent _ _ Ha).
Qed.

Lemma handleDeleteCard_removes_witness :
  let a := PaperCardData.mk (JsString.lit "a") (JsString.lit "one") 1 2 0 0 false in
  let b := PaperCardData.mk (JsString.lit "b") (JsString.lit "two") 3 4 0 0 false in
  let c := PaperCardData.mk (JsString.lit "c") (JsString.lit "three") 5 6 0 0 true in
  let s := App.mk [a; b; c] 10 (Coordinates.mk 0 0) false (Coordinates.mk 0 0) in
  handleDeleteCard (JsString.lit "b") s =
  App.mk [a; c] 10 (Coordinates.mk 0 0) false (Coordinates.mk 0 0).
Proof.
  intros a b c s.
  apply (handleDeleteCard_removes s [a] [c] b).
  - reflexivity.
  - constructor; [discriminate | constructor].
  - constructor; [discriminate | constructor].
Defined.

(** X3.  Updating the id of a card merges the given fields into that card
    and leaves the other cards, the order and the rest of the state as
    they are. *)
Theorem handleUpdateCard_merges (s : App.State) (before after : list PaperCardData.t)
    (c : PaperCardData.t) (updates : PaperCardData.partial)
    (Hs : cards s = before ++ c :: after)
    (Hb : Forall (fun c' => id c' <> id c) before)
    (Ha : Forall (fun c' => id c' <> id c) after) :
  handleUpdateCard (id c) updates s =
  App.mk (before ++ merge c updates :: after) (topZIndex s) (machinePos s)
         (isDraggingMachine s) (machineDragOffset s).
Proof.
  unfold handleUpdateCard, setCards. rewrite Hs, map_app. simpl.
  rewrite JsString_eqb_refl.
  now rewrite (map_absent _ _ _ Hb), (map_absent _ _ _ Ha).
Qed.

Lemma handleUpdateCard_merges_witness :
  let a := PaperCardData.mk (JsString.lit "a") (JsString.lit "one") 1 2 0 0 false in
  let b := PaperCardData.mk (JsString.lit "b") (JsString.lit "two") 3 4 0 0 false in
  let s := App.mk [a; b] 10 (Coordinates.mk 0 0) false (Coordinates.mk 0 0) in
  let u := mkPartial None None (Some 7) (Some 8) None None None in
  handleUpdateCard (JsString.lit "a") u s =
  App.mk [PaperCardData.mk (JsString.lit "a") (JsString.lit "one") 7 8 0 0 false; b]
         10 (Coordinates.mk 0 0) false (Coordinates.mk 0 0).
Proof.
  intros a b s u.
  apply (handleUpdateCard_merges s [] [b] a u).
  - reflexivity.
  - constructor.
  - constructor; [discriminate | constructor].
Defined.

Lemma find_present (before after : list PaperCardData.t) (c : PaperCardData.t) :
  Forall (fun c' => id c' <> id c) before ->
  find (fun c' => JsString.eqb (id c') (id c)) (before ++ c :: after) = Some c.
Proof.
  intros Hb. rewrite find_app_card, (find_absent _ _ Hb). simpl.
  now rewrite JsString_eqb_refl.
Qed.

Lemma handleFocus_split (s : App.State) (before after : list PaperCardData.t)
    (c : PaperCardData.t) :
  cards s = before ++ c :: after ->
  Forall (fun c' => id c' <> id c) before ->
  Forall (fun c' => id c' <> id c) after ->
  handleFocus (id c) s =
  App.mk (before ++ after ++ [c]) (topZIndex s + 1) (machinePos s)
         (isDraggingMachine s) (machineDragOffset s).
Proof.
  intros Hs Hb Ha.
  unfold handleFocus, setTopZIndex, setCards. cbn [cards topZIndex machinePos
    isDraggingMachine machineDragOffset].
  rewrite map_spread_matching, Hs, (find_present _ _ _ Hb), filter_app. simpl.
  rewrite JsString_eqb_refl. simpl.
  rewrite (filter_absent _ _ Hb), (filter_absent _ _ Ha).
  now rewrite <- app_assoc.
Qed.

(** X4.  Focusing the id of a card moves that card to the end of the
    collection, keeps the other cards as they are and in their order, adds
    one to the stacking counter and touches nothing else; a card that is
    last already stays where it is. *)
Theorem handleFocus_moves_last (s : App.State) (before after : list PaperCardData.t)
    (c : PaperCardData.t)
    (Hs : cards s = before ++ c :: after)
    (Hb : Forall (fun c' => id c' <> id c) before)
    (Ha : Forall (fun c' => id c' <> id c) after) :
  handleFocus (id c) s =
  App.mk (before ++ after ++ [c]) (topZIndex s + 1) (machinePos s)
         (isDraggingMachine s) (machineDragOffset s) /\
  (after = [] -> cards (handleFocus (id c) s) = cards s).
Proof.
  pose proof (handleFocus_split s before after c Hs Hb Ha) as E.
  split; [exact E|].
  intros ->. rewrite E, Hs. reflexivity.
Qed.

Lemma handleFocus_moves_last_witness :
  let a := PaperCardData.mk (JsString.lit "a") (JsString.lit "one") 1 2 0 0 false in
  let b := PaperCardData.mk (JsString.lit "b") (JsString.lit "two") 3 4 0 0 false in
  let c := PaperCardData.mk (JsString.lit "c") (JsString.lit "three") 5 6 0 0 true in
  let s := App.mk [a; b; c] 10 (Coordinates.mk 0 0) false (Coordinates.mk 0 0) in
  handleFocus (JsString.lit "a") s =
  App.mk [b; c; a] 11 (Coordinates.mk 0 0) false (Coordinates.mk 0 0).
Proof.
  intros a b c s.
  refine (proj1 (handleFocus_moves_last s [] [b; c] a _ _ _)).
  - reflexivity.
  - constructor.
  - repeat constructor; discriminate.
Defined.

Lemma zIndexes_from_In k (l : list PaperCardData.t) j z :
  In (j, z) (zIndexes_from k l) ->
  exists n c, nth_error l n = Some c /\ j = id c /\ z = (Z.of_nat (k + n) + 10)%Z.
Proof.
  revert k. induction l as [|c l IH]; intros k H; simpl in H; [contradiction|].
  destruct H as [H|H].
  - injection H as <- <-. exists 0%nat, c. rewrite Nat.add_0_r. now repeat split.
  - destruct (IH _ H) as [n [c' [Hn [Hj Hz]]]]. exists (S n), c'.
    repeat split; try assumption. rewrite Hz. f_equal. lia.
Qed.

Lemma zIndexes_from_app k (l l' : list PaperCardData.t) :
  zIndexes_from k (l ++ l') = zIndexes_from k l ++ zIndexes_from (k + List.length l) l'.
Proof.
  revert k. induction l as [|c l IH]; intros k; simpl.
  - now rewrite Nat.add_0_r.
  - rewrite IH. do 3 f_equal. lia.
Qed.

(** X5.  After a card is focused it is rendered with the greatest z-index
    of all cards, [10] plus the number of the other cards, and every other
    card is rendered strictly below it. *)
Theorem handleFocus_on_top (s : App.State) (before after : list PaperCardData.t)
    (c : PaperCardData.t)
    (Hs : cards s = before ++ c :: after)
    (Hb : Forall (fun c' => id c' <> id c) before)
    (Ha : Forall (fun c' => id c' <> id c) after) :
  let top := (Z.of_nat (List.length before + List.length after) + 10)%Z in
  In (id c, top) (zIndexes (handleFocus (id c) s)) /\
  forall j z, In (j, z) (zIndexes (handleFocus (id c) s)) ->
              (z <= top)%Z /\ (j <> id c -> z < top)%Z.
Proof.
  intros top.
  pose proof (handleFocus_split s before after c Hs Hb Ha) as E.
  unfold zIndexes. rewrite E. cbn [cards]. split.
  - rewrite app_assoc, zIndexes_from_app. apply in_or_app. right. simpl. left.
    unfold top. now rewrite length_app.
  - intros j z H. apply zIndexes_from_In in H as [n [c' [Hn [Hj Hz]]]].
    assert (Hlen : (n < List.length (before ++ after ++ [c]))%nat)
      by (apply nth_error_Some; congruence).
    rewrite !length_app in Hlen. simpl in Hlen. subst z top. split; [lia|].
    intros Hne.
    assert (n <> List.length before + List.length after)%nat; [|lia].
    intros ->. rewrite app_assoc in Hn.
    rewrite nth_error_app2 in Hn by (rewrite length_app; lia).
    rewrite length_app, Nat.sub_diag in Hn. simpl in Hn. congruence.
Qed.

Lemma handleFocus_on_top_witness :
  let a := PaperCardData.mk (JsString.lit "a") (JsString.lit "one") 1 2 0 0 false in
  let b := PaperCardData.mk (JsString.lit "b") (JsString.lit "two") 3 4 0 0 false in
  let s := App.mk [a; b] 10 (Coordinates.mk 0 0) false (Coordinates.mk 0 0) in
  In (JsString.lit "a", 11%Z) (zIndexes (handleFocus (JsString.lit "a") s)).
Proof.
  intros a b s.
  refine (proj1 (handleFocus_on_top s [] [b] a _ _ _)).
  - reflexivity.
  - constructor.
  - repeat constructor; discriminate.
Defined.

End CollectionOperations.

(** ** One card and its component, event by event *)

Section PaperStep.

Import Desk.

Lemma paper_Some i w c st :
  paper i w = Some (c, st) <->
  findCard i (app w) = Some c /\ lookup i (papers w) = Some st.
Proof.
  unfold paper. destruct (findCard i (app w)) as [c0|], (lookup i (papers w)) as [st0|];
    split; try discriminate; try (intros [A B]; discriminate).
  - intros [= <- <-]. now split.
  - intros [[= <-] [= <-]]. reflexivity.
Qed.

Lemma paper_None i w : Inv w -> findCard i (app w) = None -> paper i w = None.
Proof. intros _ F. unfold paper. now rewrite F. Qed.

Lemma Inv_paper i w c st :
  Inv w -> paper i w = Some (c, st) ->
  DraggablePaper.typingDeps st = Some (isTyping c, text c) /\
  DraggablePaper.pendingDisplayedText st = [] /\ ok st.
Proof.
  intros HI H. apply paper_Some in H as [F L]. specialize (HI i).
  now rewrite F, L in HI.
Qed.

Lemma Inv_lookup_None i w : Inv w -> findCard i (app w) = None -> lookup i (papers w) = None.
Proof.
  intros HI F. specialize (HI i). rewrite F in HI.
  now destruct (lookup i (papers w)).
Qed.

(** After a re-render, a card whose data and hooks were left alone has the
    component it had. *)
Lemma paper_reconcile_same i w s k ps q :
  Inv w ->
  findCard i s = findCard i (app w) ->
  lookup i ps = lookup i (papers w) ->
  paper i (mk s k (reconcile s ps) q) = paper i w.
Proof.
  intros HI F L. unfold paper. cbn [app papers]. rewrite lookup_reconcile, F, L.
  destruct (findCard i (app w)) as [c|] eqn:Fc; [|reflexivity].
  pose proof (HI i) as Hi. rewrite Fc in Hi.
  destruct (lookup i (papers w)) as [st|]; [|contradiction].
  destruct Hi as [Hd [Hp _]]. cbn [mounted_or_new].
  rewrite commit_stable; [reflexivity|exact Hd|exact Hp].
Qed.

(** After a re-render, a card whose typing dependencies were left alone
    has the hooks its handler left. *)
Lemma paper_reconcile_set i w s k ps q c c' st st' :
  Inv w -> paper i w = Some (c, st) ->
  findCard i s = Some c' -> isTyping c' = isTyping c -> text c' = text c ->
  lookup i ps = Some st' ->
  DraggablePaper.typingDeps st' = DraggablePaper.typingDeps st ->
  DraggablePaper.pendingDisplayedText st' = [] ->
  paper i (mk s k (reconcile s ps) q) = Some (c', st').
Proof.
  intros HI H F B T L Hd Hp. destruct (Inv_paper i w c st HI H) as [Hd0 _].
  unfold paper. cbn [app papers]. rewrite lookup_reconcile, F, L. cbn [mounted_or_new].
  rewrite commit_stable; [reflexivity| |exact Hp].
  cbn [DraggablePaper.data propsFor]. now rewrite Hd, Hd0, B, T.
Qed.

Lemma withApp_paper i f w :
  Inv w -> (forall s, App.cards (f s) = App.cards s) ->
  paper i (withApp f w) = paper i w.
Proof.
  intros HI Hf. unfold withApp. apply paper_reconcile_same; [exact HI| |reflexivity].
  unfold findCard. now rewrite Hf.
Qed.

(** The handlers of a card change no card of another id. *)

Lemma findCard_update_other i j u s :
  JsString.eqb j i = false -> id_ u = None ->
  findCard i (App.handleUpdateCard j u s) = findCard i s.
Proof.
  intros N Hu. destruct (findCard i s) as [c|] eqn:F.
  - now apply findCard_move_other.
  - rewrite findCard_handleUpdateCard by exact Hu. now rewrite F.
Qed.

Lemma other_safe_mouseDown e : other_safe (fun p => DraggablePaper.handleMouseDown p e).
Proof. intros c st s i _. apply findCard_handleFocus. Qed.

Lemma other_safe_touchStart e : other_safe (fun p => DraggablePaper.handleTouchStart p e).
Proof. intros c st s i _. apply findCard_handleFocus. Qed.

Lemma other_safe_move qx qy h : move_handler qx qy h -> other_safe h.
Proof.
  intros Hh c st s i N. rewrite Hh. destruct (DraggablePaper.isDragging st); [|reflexivity].
  cbn [snd DraggablePaper.onUpdate DraggablePaper.data propsFor].
  now apply findCard_update_other.
Qed.

Lemma other_safe_mouseUp :
  other_safe (fun _ '(st, s) => (DraggablePaper.handleMouseUp st, s)).
Proof. intros c st s i _. reflexivity. Qed.

Lemma other_safe_touchEnd :
  other_safe (fun _ '(st, s) => (DraggablePaper.handleTouchEnd st, s)).
Proof. intros c st s i _. reflexivity. Qed.

Lemma other_safe_timer timing random :
  other_safe
    (fun p '(st, s) =>
       match DraggablePaper.typingTimeout st with
       | Some _ =>
           DraggablePaper.typeNextChar p timing random
             (DraggablePaper.set_typingTimeout None st, s)
       | None => (st, s)
       end).
Proof.
  intros c st s i N. cbn beta iota.
  destruct (DraggablePaper.typingTimeout st); [|reflexivity].
  unfold DraggablePaper.typeNextChar.
  cbn [DraggablePaper.set_typingTimeout DraggablePaper.textIndex DraggablePaper.data propsFor].
  destruct (_ <? _)%nat; [reflexivity|].
  cbn [snd DraggablePaper.onUpdate]. now apply findCard_update_other.
Qed.

(** The handler of the card [j] leaves the card [i] and its component as
    they are. *)
Lemma withPaper_other_paper i j h w :
  Inv w -> other_safe h -> JsString.eqb j i = false ->
  paper i (withPaper j h w) = paper i w.
Proof.
  intros HI Hh N. unfold withPaper.
  destruct (findCard j (app w)) as [cj|] eqn:Fj; [|reflexivity].
  destruct (lookup j (papers w)) as [stj|] eqn:Lj; [|reflexivity].
  pose proof (Hh cj stj (app w) i) as E.
  rewrite (findCard_id _ _ _ Fj) in E. specialize (E N).
  destruct (h (propsFor cj) (stj, app w)) as [st' app'] eqn:Eh. cbn [snd] in E.
  apply paper_reconcile_same; [exact HI|exact E|].
  now rewrite lookup_update, N.
Qed.

End PaperStep.

Section PaperStepFold.

Import Desk.

Lemma withPaper_self_paper i h w c st c' st' s' :
  Inv w -> paper i w = Some (c, st) ->
  h (propsFor c) (st, app w) = (st', s') ->
  findCard i s' = Some c' -> isTyping c' = isTyping c -> text c' = text c ->
  DraggablePaper.typingDeps st' = DraggablePaper.typingDeps st ->
  DraggablePaper.pendingDisplayedText st' = [] ->
  paper i (withPaper i h w) = Some (c', st').
Proof.
  intros HI H E F B T Hd Hp. pose proof H as H0. apply paper_Some in H0 as [Fc L].
  rewrite (withPaper_found _ _ _ _ _ Fc L), E. cbn [fst snd].
  eapply paper_reconcile_set; try eassumption.
  now rewrite lookup_update, JsString_eqb_refl, L.
Qed.

Lemma withPaper_absent i j h w :
  Inv w -> other_safe h -> paper i w = None -> paper i (withPaper j h w) = None.
Proof.
  intros HI Hh H. destruct (JsString.eqb j i) eqn:E.
  - apply JsString_eqb_eq in E. subst j. unfold withPaper.
    destruct (findCard i (app w)) as [c|] eqn:F; [|exact H].
    destruct (lookup i (papers w)) as [st|] eqn:L; [|exact H].
    unfold paper in H. rewrite F, L in H. discriminate.
  - now rewrite withPaper_other_paper.
Qed.

(** A listener that does [g] to its own card and component, and does it
    once however often it is called, does [g] to every mounted card when
    it is delivered to all of them. *)
Lemma fold_paper i h (g : PaperCardData.t * DraggablePaper.State ->
                          PaperCardData.t * DraggablePaper.State) :
  handler_ok h -> other_safe h ->
  (forall w x, Inv w -> paper i w = Some x -> paper i (withPaper i h w) = Some (g x)) ->
  (forall x, g (g x) = g x) ->
  forall ids w,
    Inv w ->
    paper i (fold_left (fun w j => withPaper j h w) ids w) =
    match paper i w with
    | Some x => Some (if existsb (fun j => JsString.eqb j i) ids then g x else x)
    | None => None
    end.
Proof.
  intros Ho Hs Hg Hgg ids. induction ids as [|j ids IH]; intros w HI.
  - simpl. now destruct (paper i w).
  - cbn [fold_left existsb]. rewrite IH by (now apply Inv_withPaper).
    destruct (JsString.eqb j i) eqn:E.
    + apply JsString_eqb_eq in E. subst j.
      destruct (paper i w) as [x|] eqn:P.
      * rewrite (Hg w x HI P). cbn [orb].
        destruct (existsb _ ids); [now rewrite Hgg|reflexivity].
      * now rewrite (withPaper_absent i i h w HI Hs P).
    + rewrite (withPaper_other_paper i j h w HI Hs E). reflexivity.
Qed.

Lemma existsb_In i ids : In i ids -> existsb (fun j => JsString.eqb j i) ids = true.
Proof.
  intros H. apply existsb_exists. exists i. split; [exact H|apply JsString_eqb_refl].
Qed.

Lemma withEveryPaper_paper i h g w c st :
  handler_ok h -> other_safe h ->
  (forall w x, Inv w -> paper i w = Some x -> paper i (withPaper i h w) = Some (g x)) ->
  (forall x, g (g x) = g x) ->
  Inv w -> paper i w = Some (c, st) ->
  paper i (withEveryPaper h w) = Some (g (c, st)).
Proof.
  intros Ho Hs Hg Hgg HI P. unfold withEveryPaper.
  rewrite (fold_paper i h g Ho Hs Hg Hgg _ w HI), P.
  rewrite existsb_In; [reflexivity|].
  apply paper_Some in P as [_ L]. now apply lookup_In in L.
Qed.

Lemma withEveryPaper_absent i h w :
  handler_ok h -> other_safe h -> Inv w -> paper i w = None ->
  paper i (withEveryPaper h w) = None.
Proof.
  intros Ho Hs HI P. unfold withEveryPaper. generalize (map fst (papers w)). intros ids.
  revert w HI P. induction ids as [|j ids IH]; intros w HI P; simpl; [exact P|].
  apply IH; [now apply Inv_withPaper|now apply withPaper_absent].
Qed.

End PaperStepFold.

Section PaperStepMaster.

Import Desk.

Lemma moved_moved qx qy x : moved qx qy (moved qx qy x) = moved qx qy x.
Proof.
  destruct x as [c st]. unfold moved. cbn [fst snd].
  destruct (DraggablePaper.isDragging st) eqn:D; cbn [fst snd]; rewrite D; [|reflexivity].
  now destruct c.
Qed.

Lemma released_released x : released (released x) = released x.
Proof. reflexivity. Qed.

Lemma move_self i qx qy h w x :
  move_handler qx qy h -> Inv w -> paper i w = Some x ->
  paper i (withPaper i h w) = Some (moved qx qy x).
Proof.
  intros Hh HI P. destruct x as [c st]. pose proof P as P0.
  apply paper_Some in P0 as [F L]. pose proof (findCard_id _ _ _ F) as Hid.
  unfold moved. cbn [fst snd].
  destruct (DraggablePaper.isDragging st) eqn:D.
  - eapply (withPaper_self_paper i h w c st _ st); try eassumption; try reflexivity.
    + rewrite Hh, D. reflexivity.
    + cbn [DraggablePaper.onUpdate DraggablePaper.data propsFor].
      rewrite findCard_handleUpdateCard by reflexivity. rewrite F. cbn [option_map].
      now rewrite JsString_eqb_refl.
    + now apply (Inv_paper i w c st).
  - eapply (withPaper_self_paper i h w c st c st); try eassumption; try reflexivity.
    + rewrite Hh, D. reflexivity.
    + now apply (Inv_paper i w c st).
Qed.

Lemma up_self i h w x :
  (forall p st s, h p (st, s) = (DraggablePaper.setIsDragging false st, s)) ->
  Inv w -> paper i w = Some x ->
  paper i (withPaper i h w) = Some (released x).
Proof.
  intros Hh HI P. destruct x as [c st]. pose proof P as P0.
  apply paper_Some in P0 as [F L]. unfold released. cbn [fst snd].
  eapply (withPaper_self_paper i h w c st c _ (app w)).
  - exact HI.
  - exact P.
  - apply Hh.
  - exact F.
  - reflexivity.
  - reflexivity.
  - reflexivity.
  - now apply (Inv_paper i w c st).
Qed.

Lemma down_self i h w c st px py :
  (forall p st s,
      h p (st, s) =
      (DraggablePaper.setDragOffset
         (Coordinates.mk (px - x (DraggablePaper.data p)) (py - y (DraggablePaper.data p)))
         (DraggablePaper.setIsDragging true st),
       DraggablePaper.onFocus p s)) ->
  Inv w -> paper i w = Some (c, st) ->
  paper i (withPaper i h w) =
  Some (c, DraggablePaper.setDragOffset (Coordinates.mk (px - x c) (py - y c))
             (DraggablePaper.setIsDragging true st)).
Proof.
  intros Hh HI P. pose proof P as P0. apply paper_Some in P0 as [F L].
  eapply (withPaper_self_paper i h w c st c _ (App.handleFocus (id c) (app w))).
  - exact HI.
  - exact P.
  - rewrite Hh. reflexivity.
  - now rewrite findCard_handleFocus.
  - reflexivity.
  - reflexivity.
  - reflexivity.
  - now apply (Inv_paper i w c st).
Qed.

Lemma timer_self i timing random w c st :
  Inv w -> paper i w = Some (c, st) ->
  paper_step i w (TypingTimerFires i timing random)
             (Some (c, st)) (paper i (typingTimerFires i timing random w)).
Proof.
  intros HI P. pose proof P as P0. apply paper_Some in P0 as [F L].
  destruct (Inv_paper i w c st HI P) as [Hd [Hp Ho]].
  destruct (DraggablePaper.typingTimeout st) as [d|] eqn:T.
  - assert (B : isTyping c = true).
    { destruct (isTyping c) eqn:B; [reflexivity|].
      unfold ok in Ho. rewrite Hd in Ho. destruct Ho as [Ho _].
      destruct (Ho eq_refl) as [C _]. congruence. }
    rewrite B in Hd.
    destruct (Nat.lt_ge_cases (DraggablePaper.textIndex st) (List.length (text c)))
      as [Lt|Ge].
    + destruct (timer_reveals i timing random w c st d F L Hd B Hp T Lt) as [A L'].
      rewrite <- A in F.
      pose proof (proj2 (paper_Some i _ _ _) (conj F L')) as P'.
      rewrite P'. now apply (ps_reveal i w _ c st timing random d).
    + destruct (timer_completes i timing random w c st d F L Hd Hp T Ge) as [_ [F' L']].
      pose proof (proj2 (paper_Some i _ _ _) (conj F' L')) as P'.
      rewrite P'. apply (ps_done i w _ c st timing random d); try assumption; try reflexivity.
      unfold ok in Ho. rewrite Hd in Ho. destruct Ho as [_ Ho]. specialize (Ho eq_refl). lia.
  - assert (P' : paper i (typingTimerFires i timing random w) = Some (c, st)).
    { unfold typingTimerFires.
      eapply (withPaper_self_paper i _ w c st c st (app w)).
      - exact HI.
      - exact P.
      - cbn beta iota. now rewrite T.
      - exact F.
      - reflexivity.
      - reflexivity.
      - reflexivity.
      - exact Hp. }
    rewrite P'. constructor.
Qed.

End PaperStepMaster.

Section PaperStepEvents.

Import Desk.

Variable W : Q.

Lemma paper_same_world i w w' :
  app w' = app w -> papers w' = papers w -> paper i w' = paper i w.
Proof. unfold paper. now intros -> ->. Qed.

Lemma pointerDown_paper i j h w px py :
  (forall p st s,
      h p (st, s) =
      (DraggablePaper.setDragOffset
         (Coordinates.mk (px - x (DraggablePaper.data p)) (py - y (DraggablePaper.data p)))
         (DraggablePaper.setIsDragging true st),
       DraggablePaper.onFocus p s)) ->
  other_safe h ->
  Inv w ->
  paper i (paperPointerDown j h w) = paper i w \/
  (j = i /\ exists c st,
      paper i w = Some (c, st) /\ isTyping c = false /\
      paper i (paperPointerDown j h w) =
      Some (c, DraggablePaper.setDragOffset (Coordinates.mk (px - x c) (py - y c))
                 (DraggablePaper.setIsDragging true st))).
Proof.
  intros Hh Hs HI. unfold paperPointerDown.
  destruct (findCard j (app w)) as [cj|] eqn:Fj; [|now left].
  destruct (isTyping cj) eqn:B; [now left|].
  destruct (JsString.eqb j i) eqn:E.
  - apply JsString_eqb_eq in E. subst j.
    destruct (paper i w) as [[c st]|] eqn:P.
    + right. split; [reflexivity|]. exists c, st.
      pose proof P as P0. apply paper_Some in P0 as [F _].
      assert (cj = c) by congruence. subst cj.
      repeat split; [exact B|]. now apply (down_self i h w c st px py).
    + left. now apply withPaper_absent.
  - left. now apply withPaper_other_paper.
Qed.

(** What an event does to the card [i] and its component, in a state of
    the page. *)
Lemma step_paper ev w i :
  Inv w -> paper_step i w ev (paper i w) (paper i (step W ev w)).
Proof.
  intros HI. destruct ev; cbn [step].
  - (* MachineMouseDown *)
    rewrite withApp_paper; [constructor|exact HI|].
    intros s. unfold App.handleMachineMouseDown.
    now destruct (Dom.closest_interactive _).
  - rewrite withApp_paper; [constructor|exact HI|].
    intros s. unfold App.handleMachineTouchStart.
    now destruct (Dom.closest_interactive _).
  - (* PaperMouseDown *)
    destruct (pointerDown_paper i id0 (fun p => DraggablePaper.handleMouseDown p e) w
                (Dom.clientX e) (Dom.clientY e))
      as [-> | [-> [c [st [P [B ->]]]]]];
      [reflexivity|apply other_safe_mouseDown|exact HI|constructor|].
    rewrite P. apply ps_down; [|exact B]. cbn. now rewrite JsString_eqb_refl.
  - destruct (pointerDown_paper i id0 (fun p => DraggablePaper.handleTouchStart p e) w
                (Dom.touchX (Dom.touches0 e)) (Dom.touchY (Dom.touches0 e)))
      as [-> | [-> [c [st [P [B ->]]]]]];
      [reflexivity|apply other_safe_touchStart|exact HI|constructor|].
    rewrite P. apply ps_down; [|exact B]. cbn. now rewrite JsString_eqb_refl.
  - (* WindowMouseMove *)
    assert (HI1 : Inv (withApp (App.handleMouseMove e) w)) by now apply Inv_withApp.
    assert (P1 : paper i (withApp (App.handleMouseMove e) w) = paper i w).
    { apply withApp_paper; [exact HI|]. intros s. unfold App.handleMouseMove.
      now destruct (App.isDraggingMachine s). }
    destruct (paper i w) as [[c st]|] eqn:P.
    + rewrite (withEveryPaper_paper i _ (moved (Dom.clientX e) (Dom.clientY e)) _ c st
                 (handler_ok_mouseMove e)
                 (other_safe_move _ _ _ (move_handler_mouse e))
                 (fun w0 x0 H0 => move_self i _ _ _ w0 x0 (move_handler_mouse e) H0)
                 (moved_moved _ _) HI1 P1).
      unfold moved. cbn [fst snd].
      destruct (DraggablePaper.isDragging st) eqn:D; [|constructor].
      now apply ps_move.
    + rewrite withEveryPaper_absent;
        [constructor|apply handler_ok_mouseMove
        |apply (other_safe_move _ _ _ (move_handler_mouse e))|exact HI1|exact P1].
  - (* WindowMouseUp *)
    assert (HI1 : Inv (withApp App.handleMouseUp w)) by now apply Inv_withApp.
    assert (P1 : paper i (withApp App.handleMouseUp w) = paper i w)
      by (apply withApp_paper; [exact HI|reflexivity]).
    destruct (paper i w) as [[c st]|] eqn:P.
    + rewrite (withEveryPaper_paper i _ released _ c st
                 handler_ok_mouseUp other_safe_mouseUp
                 (fun w0 x0 H0 => up_self i _ w0 x0 (fun _ _ _ => eq_refl) H0)
                 released_released HI1 P1).
      apply ps_up. now left.
    + rewrite withEveryPaper_absent;
        [constructor|apply handler_ok_mouseUp|apply other_safe_mouseUp|exact HI1|exact P1].
  - (* WindowTouchMove *)
    assert (HI1 : Inv (withApp (App.handleTouchMove e) w)) by now apply Inv_withApp.
    assert (P1 : paper i (withApp (App.handleTouchMove e) w) = paper i w).
    { apply withApp_paper; [exact HI|]. intros s. unfold App.handleTouchMove.
      now destruct (App.isDraggingMachine s). }
    destruct (paper i w) as [[c st]|] eqn:P.
    + rewrite (withEveryPaper_paper i _
                 (moved (Dom.touchX (Dom.touches0 e)) (Dom.touchY (Dom.touches0 e)))
                 _ c st
                 (handler_ok_touchMove e)
                 (other_safe_move _ _ _ (move_handler_touch e))
                 (fun w0 x0 H0 => move_self i _ _ _ w0 x0 (move_handler_touch e) H0)
                 (moved_moved _ _) HI1 P1).
      unfold moved. cbn [fst snd].
      destruct (DraggablePaper.isDragging st) eqn:D; [|constructor].
      now apply ps_move.
    + rewrite withEveryPaper_absent;
        [constructor|apply handler_ok_touchMove
        |apply (other_safe_move _ _ _ (move_handler_touch e))|exact HI1|exact P1].
  - (* WindowTouchEnd *)
    assert (HI1 : Inv (withApp App.handleTouchEnd w)) by now apply Inv_withApp.
    assert (P1 : paper i (withApp App.handleTouchEnd w) = paper i w)
      by (apply withApp_paper; [exact HI|reflexivity]).
    destruct (paper i w) as [[c st]|] eqn:P.
    + rewrite (withEveryPaper_paper i _ released _ c st
                 handler_ok_touchEnd other_safe_touchEnd
                 (fun w0 x0 H0 => up_self i _ w0 x0 (fun _ _ _ => eq_refl) H0)
                 released_released HI1 P1).
      apply ps_up. now right.
    + rewrite withEveryPaper_absent;
        [constructor|apply handler_ok_touchEnd|apply other_safe_touchEnd|exact HI1|exact P1].
  - (* TypingTimerFires *)
    destruct (JsString.eqb id0 i) eqn:E.
    + apply JsString_eqb_eq in E. subst id0.
      destruct (paper i w) as [[c st]|] eqn:P.
      * now apply timer_self.
      * unfold typingTimerFires.
        rewrite withPaper_absent; [constructor|exact HI|apply other_safe_timer|exact P].
    + unfold typingTimerFires.
      rewrite withPaper_other_paper; [constructor|exact HI|apply other_safe_timer|exact E].
  - (* DeleteButtonClick *)
    destruct (findCard id0 (app w)) as [card|] eqn:F; [|constructor].
    destruct (isTyping card); [constructor|].
    unfold withApp, DraggablePaper.deleteButton_onClick.
    cbn [propsFor DraggablePaper.onDelete DraggablePaper.data].
    rewrite (findCard_id _ _ _ F).
    destruct (JsString.eqb id0 i) eqn:E.
    + apply JsString_eqb_eq in E. subst id0.
      match goal with |- paper_step _ _ _ _ ?o =>
        replace o with (@None (PaperCardData.t * DraggablePaper.State)) end.
      * apply ps_gone. now left.
      * unfold paper. cbn [app]. now rewrite findCard_handleDeleteCard, JsString_eqb_refl.
    + rewrite (paper_reconcile_same i w); [constructor|exact HI| |reflexivity].
      now rewrite findCard_handleDeleteCard, E.
  - (* ClearButtonClick *)
    destruct confirmed.
    + replace (paper i (withApp (App.handleClearAll true) w))
        with (@None (PaperCardData.t * DraggablePaper.State)) by reflexivity.
      apply ps_gone. now right.
    + rewrite withApp_paper; [constructor|exact HI|reflexivity].
  - (* PrintButtonClick *)
    unfold printButtonClick.
    destruct (TypewriterConsole.button_disabled (console w)); [constructor|].
    unfold submit, TypewriterConsole.handlePrint.
    destruct (JsString.truthy (JsString.trim (TypewriterConsole.input (console w)))) eqn:Tr;
      cbn [negb].
    2:{ rewrite (paper_reconcile_same i w); [constructor|exact HI|reflexivity|reflexivity]. }
    cbn [TypewriterConsole.playPrintSound consoleProps TypewriterConsole.onPrint].
    destruct (findCard i (app w)) as [c|] eqn:F.
    + rewrite (paper_reconcile_same i w); [constructor|exact HI| |reflexivity].
      now rewrite findCard_handlePrint, F.
    + rewrite (paper_None i w HI F).
      destruct (JsString.eqb (App.randomUUID env) i) eqn:E.
      * apply JsString_eqb_eq in E.
        assert (Hp : paper i
                  (mk (App.handlePrint W env (TypewriterConsole.input (console w)) (app w))
                      (TypewriterConsole.setInput [] (console w))
                      (reconcile
                         (App.handlePrint W env (TypewriterConsole.input (console w)) (app w))
                         (papers w))
                      (polishing w))
                = Some (List.last
                          (App.cards (App.handlePrint W env
                                        (TypewriterConsole.input (console w)) (app w)))
                          (PaperCardData.mk [] [] 0 0 0 0 false),
                        DraggablePaper.mk false (Coordinates.mk 0 0) [] [] 0 (Some 100)
                          (Some (true, TypewriterConsole.input (console w))))).
        { unfold paper. cbn [app papers].
          rewrite lookup_reconcile, findCard_handlePrint, F, <- E, JsString_eqb_refl.
          rewrite E, (Inv_lookup_None i w HI F).
          unfold App.handlePrint. cbn [App.setCards App.cards]. rewrite last_last.
          reflexivity. }
        rewrite Hp. unfold App.handlePrint. cbn [App.setCards App.cards].
        rewrite last_last, E. eapply ps_print; [reflexivity|exact E|].
        intros Hn. rewrite Hn in Tr. discriminate.
      * match goal with |- paper_step _ _ _ _ ?o =>
          replace o with (@None (PaperCardData.t * DraggablePaper.State)) end;
          [constructor|].
        unfold paper. cbn [app]. now rewrite findCard_handlePrint, F, E.
  - (* PolishButtonClick *)
    unfold polishButtonClick.
    destruct (TypewriterConsole.polishButton_onClick (console w)) as [k [arg|]];
      match goal with |- paper_step _ _ _ _ (paper i ?w') =>
        rewrite (paper_same_world i w w') by reflexivity end; constructor.
  - unfold polishSettles. destruct (polishing w); [constructor|].
    match goal with |- paper_step _ _ _ _ (paper i ?w') =>
      rewrite (paper_same_world i w w') by reflexivity end. constructor.
  - match goal with |- paper_step _ _ _ _ (paper i ?w') =>
      rewrite (paper_same_world i w w') by reflexivity end. constructor.
Qed.

End PaperStepEvents.

(** ** What holds in every state of the page *)

Section Reachable.

Import Desk.

Variable W : Q.

Lemma run_snoc evs ev w : run W (evs ++ [ev]) w = step W ev (run W evs w).
Proof. unfold run. now rewrite fold_left_app. Qed.

Lemma reachable_initial iw ih : reachable W (initial iw ih).
Proof. now exists [], iw, ih. Qed.

Lemma reachable_step ev w : reachable W w -> reachable W (step W ev w).
Proof.
  intros [history [iw [ih ->]]]. exists (history ++ [ev]), iw, ih.
  now rewrite run_snoc.
Qed.

Lemma reachable_run evs w : reachable W w -> reachable W (run W evs w).
Proof.
  revert w. induction evs as [|ev evs IH]; intros w H; [exact H|].
  cbn [run fold_left]. apply IH. now apply reachable_step.
Qed.

Lemma reachable_induction (P : World -> Prop) :
  (forall iw ih, P (initial iw ih)) ->
  (forall ev w, reachable W w -> P w -> P (step W ev w)) ->
  forall w, reachable W w -> P w.
Proof.
  intros Hi Hs w [history [iw [ih ->]]].
  induction history as [|ev history IH] using rev_ind; [apply Hi|].
  rewrite run_snoc. apply Hs; [|exact IH]. now exists history, iw, ih.
Qed.

Lemma charAt_length t k : (List.length (JsString.charAt t k) <= 1)%nat.
Proof. unfold JsString.charAt. destruct (nth_error t k); simpl; lia. Qed.

Lemma tidy_step ev w i :
  Inv w ->
  (forall c st, paper i w = Some (c, st) -> tidy c st) ->
  forall c' st', paper i (step W ev w) = Some (c', st') -> tidy c' st'.
Proof.
  intros HI H c' st' P'. pose proof (step_paper W ev w i HI) as S.
  rewrite P' in S. inversion S; subst; intros B;
    try match goal with
        | E : Some (?c, ?st) = paper _ _ |- _ =>
            symmetry in E; pose proof (H c st E) as Hold
        end.
  - match goal with E : paper _ _ = Some _ |- _ => exact (H _ _ E B) end.
  - repeat split; [discriminate|simpl; lia].
  - congruence.
  - exact (Hold B).
  - destruct (Hold B) as [A1 [A2 A3]]. now repeat split.
  - destruct (Hold B) as [A1 [A2 A3]].
    repeat split; [discriminate|exact A2|].
    cbn [DraggablePaper.displayedText DraggablePaper.textIndex].
    rewrite length_app.
    match goal with |- context [JsString.charAt ?t ?k] =>
      pose proof (charAt_length t k) end. lia.
  - discriminate.
Qed.

Lemma reachable_tidy w i c st :
  reachable W w -> paper i w = Some (c, st) -> tidy c st.
Proof.
  intros R. revert c st.
  apply (reachable_induction
           (fun w => forall c st, paper i w = Some (c, st) -> tidy c st));
    [| |exact R].
  - intros iw ih c st P. discriminate.
  - intros ev w0 R0 IH c st.
    apply (tidy_step ev w0 i); [now apply reachable_Inv with W|exact IH].
Qed.

End Reachable.

Section ReachableProperties.

Import Desk.

Variable W : Q.

Lemma findCard_paper i w c :
  Inv w -> findCard i (app w) = Some c -> exists st, paper i w = Some (c, st).
Proof.
  intros HI F. pose proof (HI i) as Hi. rewrite F in Hi.
  destruct (lookup i (papers w)) as [st|] eqn:L; [|contradiction].
  exists st. apply paper_Some. now split.
Qed.

Lemma paper_absent_findCard i w : Inv w -> paper i w = None -> findCard i (app w) = None.
Proof.
  intros HI P. destruct (findCard i (app w)) as [c|] eqn:F; [|reflexivity].
  destruct (findCard_paper i w c HI F) as [st P']. congruence.
Qed.

(** X6.  A typing card of a state of the page has its next step scheduled,
    and firing its timer once for each step left and once more completes
    the reveal: the flag becomes false and the card shows its text,
    whatever React does with the updaters. *)
Theorem reveal_never_stalls
    (w : World) (i : JsString.t) (c : PaperCardData.t) (st : DraggablePaper.State)
    (ticks : list (React.UpdaterTiming * Q))
    (Hreach : reachable W w)
    (Hpaper : paper i w = Some (c, st))
    (Htyping : isTyping c = true)
    (Hticks : List.length ticks
              = S (List.length (text c) - DraggablePaper.textIndex st)) :
  DraggablePaper.typingTimeout st <> None /\
  flag i (fire i ticks w) = Some false /\
  displayed i (fire i ticks w) = Some (text c).
Proof.
  pose proof (reachable_Inv W w Hreach) as HI.
  destruct (reachable_tidy W w i c st Hreach Hpaper Htyping) as [Ht _].
  split; [exact Ht|].
  destruct (Inv_paper i w c st HI Hpaper) as [Hd [Hp Ho]].
  apply paper_Some in Hpaper as [F L]. rewrite Htyping in Hd.
  destruct (DraggablePaper.typingTimeout st) as [d|] eqn:T; [|congruence].
  unfold ok in Ho. rewrite Hd in Ho. destruct Ho as [_ Ho]. specialize (Ho eq_refl).
  eapply (fire_completes i _ ticks w c st d Hticks F Htyping L Hd Hp T). lia.
Qed.

End ReachableProperties.

Section ReachableWitnesses.

Import Desk.

Lemma reveal_never_stalls_witness :
  let env := App.mkPrintEnv 1024 (JsString.lit "card-1") (1 # 2) 1700000000 in
  let i := JsString.lit "card-1" in
  let w := run 280 [TextareaChange (JsString.lit "abc"); PrintButtonClick env;
                    TypingTimerFires i React.AtDispatch 0;
                    WindowMouseUp] (initial 1024 768) in
  let ticks := [(React.AtRender, 0); (React.AtRender, 1 # 2); (React.AtDispatch, 0)] in
  flag i (fire i ticks w) = Some false /\
  displayed i (fire i ticks w) = Some (JsString.lit "abc").
Proof.
  intros env i w ticks.
  assert (P : exists c st, paper i w = Some (c, st) /\ isTyping c = true /\
                           DraggablePaper.textIndex st = 1%nat /\
                           text c = JsString.lit "abc").
  { do 2 eexists. split; [lazy; reflexivity|]. repeat split. }
  destruct P as [c [st [P [B [K T]]]]].
  assert (R : reachable 280 w).
  { exists [TextareaChange (JsString.lit "abc"); PrintButtonClick env;
            TypingTimerFires i React.AtDispatch 0; WindowMouseUp], 1024, 768.
    reflexivity. }
  assert (N : List.length ticks
              = S (List.length (text c) - DraggablePaper.textIndex st))
    by (rewrite K, T; reflexivity).
  destruct (reveal_never_stalls 280 w i c st ticks R P B N) as [_ [H1 H2]].
  rewrite T in H2. split; assumption.
Defined.

End ReachableWitnesses.

Section ReachableProperties2.

Import Desk.

Variable W : Q.

Lemma ratio_bounds (a b : nat) :
  (a <= b)%nat -> (0 < b)%nat ->
  0 <= inject_Z (Z.of_nat a) / inject_Z (Z.of_nat b) /\
  inject_Z (Z.of_nat a) / inject_Z (Z.of_nat b) <= 1.
Proof.
  intros Hab Hb.
  assert (Pb : 0 < inject_Z (Z.of_nat b)).
  { change 0 with (inject_Z 0). rewrite <- Zlt_Qlt. lia. }
  split.
  - apply Qle_shift_div_l; [exact Pb|]. rewrite Qmult_0_l.
    change 0 with (inject_Z 0). rewrite <- Zle_Qle. lia.
  - apply Qle_shift_div_r; [exact Pb|]. rewrite Qmult_1_l.
    rewrite <- Zle_Qle. lia.
Qed.

(** X7.  In every state of the page a card shows no more code units than
    its text has: [progress] lies between 0 and 1 and [typingTranslateY]
    between 15 and 100; once the card is not typing they are 1 and 15. *)
Theorem progress_within_bounds
    (w : World) (i : JsString.t) (c : PaperCardData.t) (st : DraggablePaper.State)
    (Hreach : reachable W w)
    (Hpaper : paper i w = Some (c, st)) :
  (List.length (DraggablePaper.displayedText st) <= List.length (text c))%nat /\
  (0 <= DraggablePaper.progress (propsFor c) st /\
   DraggablePaper.progress (propsFor c) st <= 1) /\
  (15 <= DraggablePaper.typingTranslateY (propsFor c) st /\
   DraggablePaper.typingTranslateY (propsFor c) st <= 100) /\
  (isTyping c = false -> text c <> [] ->
   DraggablePaper.progress (propsFor c) st == 1 /\
   DraggablePaper.typingTranslateY (propsFor c) st == 15).
Proof.
  pose proof (reachable_Inv W w Hreach) as HI.
  pose proof (reachable_tidy W w i c st Hreach Hpaper) as Ht.
  destruct (Inv_paper i w c st HI Hpaper) as [Hd [Hp Ho]].
  unfold ok in Ho. rewrite Hd in Ho. destruct Ho as [Ho1 Ho2].
  assert (Hlen : (List.length (DraggablePaper.displayedText st)
                  <= List.length (text c))%nat).
  { destruct (isTyping c) eqn:B.
    - destruct (Ht B) as [_ [_ A]]. specialize (Ho2 eq_refl). lia.
    - destruct (Ho1 eq_refl) as [_ A]. unfold rendered, DraggablePaper.render in A.
      rewrite Hp in A. simpl in A. rewrite A. lia. }
  assert (Hprog : 0 <= DraggablePaper.progress (propsFor c) st /\
                  DraggablePaper.progress (propsFor c) st <= 1).
  { unfold DraggablePaper.progress. cbn [DraggablePaper.data propsFor].
    destruct (Nat.ltb_spec 0 (List.length (text c))) as [Pos|Z0].
    - now apply ratio_bounds.
    - split; discriminate. }
  split; [exact Hlen|]. split; [exact Hprog|]. split.
  - unfold DraggablePaper.typingTranslateY. destruct Hprog. split; lra.
  - intros B Hne. destruct (Ho1 B) as [_ A].
    unfold rendered, DraggablePaper.render in A. rewrite Hp in A. simpl in A.
    assert (E : DraggablePaper.progress (propsFor c) st == 1).
    { unfold DraggablePaper.progress. cbn [DraggablePaper.data propsFor]. rewrite A.
      destruct (Nat.ltb_spec 0 (List.length (text c))) as [Pos|Z0].
      - unfold Qdiv. apply Qmult_inv_r. intros E0.
        assert (0 < inject_Z (Z.of_nat (List.length (text c)))).
        { change 0 with (inject_Z 0). rewrite <- Zlt_Qlt. lia. }
        rewrite E0 in H. discriminate.
      - destruct (text c); [congruence|simpl in Z0; lia]. }
    split; [exact E|]. unfold DraggablePaper.typingTranslateY. rewrite E. reflexivity.
Qed.

End ReachableProperties2.

Section ReachableProperties3.

Import Desk.

Variable W : Q.

(** X8.  The position of a card changes only by a pointer move during a
    drag session of that card, and then to the pointer less the recorded
    offset; a card that is typing is never moved. *)
Theorem position_changes_only_in_drag
    (w : World) (ev : Event) (i : JsString.t) (c c' : PaperCardData.t)
    (Hreach : reachable W w)
    (Hbefore : findCard i (app w) = Some c)
    (Hafter : findCard i (app (step W ev w)) = Some c')
    (Hmoved : x c' <> x c \/ y c' <> y c) :
  isTyping c = false /\
  exists st qx qy,
    pointerMove ev = Some (qx, qy) /\
    lookup i (papers w) = Some st /\
    DraggablePaper.isDragging st = true /\
    x c' = qx - Coordinates.x (DraggablePaper.dragOffset st) /\
    y c' = qy - Coordinates.y (DraggablePaper.dragOffset st).
Proof.
  pose proof (reachable_Inv W w Hreach) as HI.
  destruct (findCard_paper i w c HI Hbefore) as [st P].
  destruct (findCard_paper i _ c' (Inv_step W ev w HI) Hafter) as [st' P'].
  pose proof (reachable_tidy W w i c st Hreach P) as Ht.
  pose proof (step_paper W ev w i HI) as S. rewrite P, P' in S.
  inversion S; subst; try (exfalso; destruct Hmoved as [N|N]; apply N; reflexivity).
  split.
  - destruct (isTyping c) eqn:B; [|reflexivity].
    destruct (Ht B) as [_ [D _]]. congruence.
  - exists st', qx, qy. apply paper_Some in P as [_ L]. now repeat split.
Qed.

Lemma absent_stays evs w i :
  Inv w -> fresh_for i evs -> findCard i (app w) = None ->
  findCard i (app (run W evs w)) = None.
Proof.
  intros HI HF F. pose proof (run_view W evs w i HI HF) as V.
  unfold typing_view in V. rewrite F in V. cbn [option_map] in V.
  now destruct (findCard i (app (run W evs w))).
Qed.

(** X9.  Whatever happens on the page, a card keeps its id, its text, its
    rotation and its timestamp for as long as it is on the desk (no print
    drawing its id again). *)
Theorem card_fields_fixed
    (w : World) (evs : list Event) (i : JsString.t) (c c' : PaperCardData.t)
    (Hreach : reachable W w)
    (Hevs : fresh_for i evs)
    (Hbefore : findCard i (app w) = Some c)
    (Hafter : findCard i (app (run W evs w)) = Some c') :
  id c' = id c /\ text c' = text c /\
  rotation c' = rotation c /\ timestamp c' = timestamp c.
Proof.
  pose proof (reachable_Inv W w Hreach) as HI. clear Hreach.
  revert w c HI Hevs Hbefore Hafter.
  induction evs as [|ev evs IH]; intros w c HI Hevs Hbefore Hafter.
  - simpl in Hafter. assert (c' = c) by congruence. subst. now repeat split.
  - inversion Hevs as [|? ? Hev Hevs']; subst. cbn [run fold_left] in Hafter.
    change (fold_left (fun w ev => step W ev w) evs (step W ev w))
      with (run W evs (step W ev w)) in Hafter.
    pose proof (Inv_step W ev w HI) as HI1.
    destruct (findCard_paper i w c HI Hbefore) as [st P].
    pose proof (step_paper W ev w i HI) as S. rewrite P in S.
    destruct (paper i (step W ev w)) as [[c1 st1]|] eqn:P1.
    + assert (E : id c1 = id c /\ text c1 = text c /\
                  rotation c1 = rotation c /\ timestamp c1 = timestamp c)
        by (inversion S; subst; now repeat split).
      destruct E as [E1 [E2 [E3 E4]]].
      apply paper_Some in P1 as [F1 _].
      destruct (IH _ c1 HI1 Hevs' F1 Hafter) as [A1 [A2 [A3 A4]]].
      repeat split; congruence.
    + rewrite (absent_stays evs _ i HI1 Hevs' (paper_absent_findCard i _ HI1 P1))
        in Hafter. discriminate.
Qed.

Lemma up_paper up w i :
  Inv w -> up = WindowMouseUp \/ up = WindowTouchEnd ->
  paper i (step W up w) = option_map released (paper i w).
Proof.
  intros HI [-> | ->]; cbn [step].
  - assert (HI1 : Inv (withApp App.handleMouseUp w)) by now apply Inv_withApp.
    assert (P1 : paper i (withApp App.handleMouseUp w) = paper i w)
      by (apply withApp_paper; [exact HI|reflexivity]).
    destruct (paper i w) as [[c st]|] eqn:P.
    + exact (withEveryPaper_paper i _ released _ c st
               handler_ok_mouseUp other_safe_mouseUp
               (fun w0 x0 H0 => up_self i _ w0 x0 (fun _ _ _ => eq_refl) H0)
               released_released HI1 P1).
    + now apply withEveryPaper_absent;
        [apply handler_ok_mouseUp|apply other_safe_mouseUp| |].
  - assert (HI1 : Inv (withApp App.handleTouchEnd w)) by now apply Inv_withApp.
    assert (P1 : paper i (withApp App.handleTouchEnd w) = paper i w)
      by (apply withApp_paper; [exact HI|reflexivity]).
    destruct (paper i w) as [[c st]|] eqn:P.
    + exact (withEveryPaper_paper i _ released _ c st
               handler_ok_touchEnd other_safe_touchEnd
               (fun w0 x0 H0 => up_self i _ w0 x0 (fun _ _ _ => eq_refl) H0)
               released_released HI1 P1).
    + now apply withEveryPaper_absent;
        [apply handler_ok_touchEnd|apply other_safe_touchEnd| |].
Qed.

End ReachableProperties3.

(** ** Releasing the pointer *)

Section Release.

Import Desk.

Lemma all_idle_reconcile s ps : all_idle ps -> all_idle (reconcile s ps).
Proof.
  intros H i st. rewrite lookup_reconcile.
  destruct (findCard i s) as [c|]; [|discriminate].
  intros [= <-]. rewrite commit_isDragging.
  destruct (lookup i ps) as [st0|] eqn:L; [exact (H i st0 L)|reflexivity].
Qed.

Lemma all_idle_update j v ps :
  all_idle ps -> DraggablePaper.isDragging v = false -> all_idle (update j v ps).
Proof.
  intros H Hv i st. rewrite lookup_update. destruct (JsString.eqb j i).
  - destruct (lookup i ps); [|discriminate]. now intros [= <-].
  - apply H.
Qed.

(** A listener that does nothing for a card that is not dragged leaves the
    state of [App] as it is when no card is dragged. *)
Lemma fold_idle h ids :
  (forall p st s, DraggablePaper.isDragging st = false -> h p (st, s) = (st, s)) ->
  forall w, all_idle (papers w) ->
  app (fold_left (fun w j => withPaper j h w) ids w) = app w /\
  all_idle (papers (fold_left (fun w j => withPaper j h w) ids w)).
Proof.
  intros Hh. induction ids as [|j ids IH]; intros w H; [now split|].
  cbn [fold_left].
  assert (S1 : app (withPaper j h w) = app w /\ all_idle (papers (withPaper j h w))).
  { unfold withPaper.
    destruct (findCard j (app w)) as [c|]; [|now split].
    destruct (lookup j (papers w)) as [st|] eqn:L; [|now split].
    rewrite (Hh _ _ _ (H j st L)). cbn [app papers]. split; [reflexivity|].
    apply all_idle_reconcile, all_idle_update; [exact H|exact (H j st L)]. }
  destruct S1 as [A I1]. destruct (IH _ I1) as [A2 I2]. split; [congruence|exact I2].
Qed.

Section WithConstants.

Variable W : Q.

Lemma idle_move mv w :
  pointerMove mv <> None ->
  all_idle (papers w) -> App.isDraggingMachine (app w) = false ->
  app (step W mv w) = app w /\ all_idle (papers (step W mv w)).
Proof.
  intros P H D. destruct mv; try (now elim P); cbn [step]; unfold withEveryPaper.
  - assert (E : withApp (App.handleMouseMove e) w
                = mk (app w) (console w) (reconcile (app w) (papers w)) (polishing w)).
    { unfold withApp, App.handleMouseMove. now rewrite D. }
    rewrite E.
    destruct (fold_idle (fun p => DraggablePaper.handleMouseMove p e)
                (map fst (reconcile (app w) (papers w)))
                (fun p st s Hd =>
                   ltac:(unfold DraggablePaper.handleMouseMove; now rewrite Hd))
                (mk (app w) (console w) (reconcile (app w) (papers w)) (polishing w))
                (all_idle_reconcile _ _ H)) as [A I1].
    split; [exact A|exact I1].
  - assert (E : withApp (App.handleTouchMove e) w
                = mk (app w) (console w) (reconcile (app w) (papers w)) (polishing w)).
    { unfold withApp, App.handleTouchMove. now rewrite D. }
    rewrite E.
    destruct (fold_idle (fun p => DraggablePaper.handleTouchMove p e)
                (map fst (reconcile (app w) (papers w)))
                (fun p st s Hd =>
                   ltac:(unfold DraggablePaper.handleTouchMove; now rewrite Hd))
                (mk (app w) (console w) (reconcile (app w) (papers w)) (polishing w))
                (all_idle_reconcile _ _ H)) as [A I1].
    split; [exact A|exact I1].
Qed.

Lemma idle_moves moves : forall w,
  Forall (fun ev => pointerMove ev <> None) moves ->
  all_idle (papers w) -> App.isDraggingMachine (app w) = false ->
  app (run W moves w) = app w.
Proof.
  induction moves as [|mv moves IH]; intros w HF H D; [reflexivity|].
  inversion HF as [|? ? Hmv HF']; subst. cbn [run fold_left].
  change (fold_left (fun w ev => step W ev w) moves (step W mv w))
    with (run W moves (step W mv w)).
  destruct (idle_move mv w Hmv H D) as [A I1].
  rewrite IH; [exact A|exact HF'|exact I1|congruence].
Qed.

Lemma app_withEveryPaper_up h w :
  (forall p st s, snd (h p (st, s)) = s) -> app (withEveryPaper h w) = app w.
Proof.
  intros Hh. unfold withEveryPaper. generalize (map fst (papers w)). intros ids.
  revert w. induction ids as [|j ids IH]; intros w; [reflexivity|].
  cbn [fold_left]. rewrite IH.
  destruct (withPaper_app j h w) as [-> | [c [st [_ [_ ->]]]]]; [reflexivity|apply Hh].
Qed.

Lemma up_app up w :
  up = WindowMouseUp \/ up = WindowTouchEnd ->
  app (step W up w) = App.setIsDraggingMachine false (app w).
Proof.
  intros [-> | ->]; cbn [step]; now rewrite app_withEveryPaper_up.
Qed.

Lemma up_all_idle up w :
  Inv w -> up = WindowMouseUp \/ up = WindowTouchEnd ->
  all_idle (papers (step W up w)).
Proof.
  intros HI Hup i st' L.
  pose proof (Inv_step W up w HI i) as Hi. rewrite L in Hi.
  destruct (findCard i (app (step W up w))) as [c'|] eqn:F; [|contradiction].
  assert (P' : paper i (step W up w) = Some (c', st')) by (apply paper_Some; now split).
  rewrite (up_paper W up w i HI Hup) in P'.
  destruct (paper i w) as [[c st]|]; [|discriminate].
  injection P' as _ <-. reflexivity.
Qed.

(** X10.  A pointer-up or a touch-end ends every drag session: the
    pointer moves that follow change nothing of the state of [App], so
    the cards and the machine stay where they were released. *)
Theorem release_ends_drag
    (w : World) (up : Event) (moves : list Event)
    (Hreach : reachable W w)
    (Hup : up = WindowMouseUp \/ up = WindowTouchEnd)
    (Hmoves : Forall (fun ev => pointerMove ev <> None) moves) :
  app (run W moves (step W up w)) = App.setIsDraggingMachine false (app w).
Proof.
  pose proof (reachable_Inv W w Hreach) as HI.
  rewrite idle_moves; [now apply up_app|exact Hmoves|now apply up_all_idle|].
  now rewrite up_app.
Qed.

End WithConstants.

End Release.

Section ReleaseWitness.

Import Desk.

Lemma release_ends_drag_witness :
  let env := App.mkPrintEnv 1024 (JsString.lit "card-1") (1 # 2) 1700000000 in
  let i := JsString.lit "card-1" in
  let w := run 280 [TextareaChange (JsString.lit "hi"); PrintButtonClick env;
                    TypingTimerFires i React.AtDispatch 0;
                    TypingTimerFires i React.AtRender 0;
                    TypingTimerFires i React.AtRender 0;
                    PaperMouseDown i (Dom.mkMouse [Dom.div] 500 300);
                    WindowMouseMove (Dom.mkMouse [] 510 300)] (initial 1024 768) in
  let moves := [WindowMouseMove (Dom.mkMouse [] 700 700);
                WindowTouchMove (Dom.mkTouchEvent [] (Dom.mkTouch 10 10) true)] in
  app (run 280 moves (step 280 WindowMouseUp w)) = App.setIsDraggingMachine false (app w).
Proof.
  intros env i w moves.
  apply (release_ends_drag 280 w WindowMouseUp moves).
  - exists [TextareaChange (JsString.lit "hi"); PrintButtonClick env;
            TypingTimerFires i React.AtDispatch 0;
            TypingTimerFires i React.AtRender 0;
            TypingTimerFires i React.AtRender 0;
            PaperMouseDown i (Dom.mkMouse [Dom.div] 500 300);
            WindowMouseMove (Dom.mkMouse [] 510 300)], 1024, 768. reflexivity.
  - now left.
  - repeat constructor; discriminate.
Defined.

End ReleaseWitness.

(** ** The machine and the stacking counter *)

Section MachineAndCounter.

Import Desk.

Lemma machine_timer timing random c st s :
  machine_of (snd (match DraggablePaper.typingTimeout st with
                   | Some _ =>
                       DraggablePaper.typeNextChar (propsFor c) timing random
                         (DraggablePaper.set_typingTimeout None st, s)
                   | None => (st, s)
                   end)) = machine_of s.
Proof.
  destruct (DraggablePaper.typingTimeout st); [|reflexivity].
  unfold DraggablePaper.typeNextChar.
  cbn [DraggablePaper.set_typingTimeout DraggablePaper.textIndex].
  now destruct (_ <? _)%nat.
Qed.

Lemma withPaper_topZ j h w :
  (forall c st s, App.topZIndex (snd (h (propsFor c) (st, s))) = App.topZIndex s) ->
  App.topZIndex (app (withPaper j h w)) = App.topZIndex (app w).
Proof.
  intros N. destruct (withPaper_app j h w) as [-> | [c [st [_ [_ ->]]]]];
    [reflexivity | apply N].
Qed.

Lemma withEveryPaper_topZ h w :
  (forall c st s, App.topZIndex (snd (h (propsFor c) (st, s))) = App.topZIndex s) ->
  App.topZIndex (app (withEveryPaper h w)) = App.topZIndex (app w).
Proof.
  intros N. unfold withEveryPaper. generalize (map fst (papers w)). intros ids.
  revert w. induction ids as [|j ids IH]; intros w; simpl; [reflexivity|].
  rewrite IH. now apply withPaper_topZ.
Qed.

Lemma topZ_move qx qy h :
  move_handler qx qy h ->
  forall c st s, App.topZIndex (snd (h (propsFor c) (st, s))) = App.topZIndex s.
Proof. intros H c st s. rewrite H. now destruct (DraggablePaper.isDragging st). Qed.

Lemma topZ_timer timing random c st s :
  App.topZIndex (snd (match DraggablePaper.typingTimeout st with
                      | Some _ =>
                          DraggablePaper.typeNextChar (propsFor c) timing random
                            (DraggablePaper.set_typingTimeout None st, s)
                      | None => (st, s)
                      end)) = App.topZIndex s.
Proof.
  destruct (DraggablePaper.typingTimeout st); [|reflexivity].
  unfold DraggablePaper.typeNextChar.
  cbn [DraggablePaper.set_typingTimeout DraggablePaper.textIndex].
  now destruct (_ <? _)%nat.
Qed.

Lemma pointerDown_topZ j h w :
  (forall c st s, App.topZIndex (snd (h (propsFor c) (st, s))) = (App.topZIndex s + 1)%Z) ->
  App.topZIndex (app (paperPointerDown j h w)) = App.topZIndex (app w) \/
  App.topZIndex (app (paperPointerDown j h w)) = (App.topZIndex (app w) + 1)%Z.
Proof.
  intros N. unfold paperPointerDown.
  destruct (findCard j (app w)) as [c|]; [|now left].
  destruct (isTyping c); [now left|].
  destruct (withPaper_app j h w) as [-> | [c' [st [_ [_ ->]]]]]; [now left|].
  right. apply N.
Qed.

Section WithConstants.

Variable W : Q.

Lemma step_machine ev w :
  pointerMove ev = None ->
  App.machinePos (app (step W ev w)) = App.machinePos (app w).
Proof.
  intros P.
  assert (forall s s', machine_of s' = machine_of s ->
                       App.machinePos s' = App.machinePos s) as K
    by (intros s s' E; unfold machine_of in E; now injection E).
  destruct ev; try discriminate; cbn [step].
  - unfold withApp, App.handleMachineMouseDown. cbn [app].
    now destruct (Dom.closest_interactive _).
  - unfold withApp, App.handleMachineTouchStart. cbn [app].
    now destruct (Dom.closest_interactive _).
  - unfold paperPointerDown. destruct (findCard id0 (app w)) as [c|]; [|reflexivity].
    destruct (isTyping c); [reflexivity|]. apply K, withPaper_machine. reflexivity.
  - unfold paperPointerDown. destruct (findCard id0 (app w)) as [c|]; [|reflexivity].
    destruct (isTyping c); [reflexivity|]. apply K, withPaper_machine. reflexivity.
  - transitivity (App.machinePos (app (withApp App.handleMouseUp w)));
      [apply K, withEveryPaper_machine; reflexivity | reflexivity].
  - transitivity (App.machinePos (app (withApp App.handleTouchEnd w)));
      [apply K, withEveryPaper_machine; reflexivity | reflexivity].
  - apply K. unfold typingTimerFires. apply withPaper_machine.
    intros c st s. apply machine_timer.
  - destruct (findCard id0 (app w)) as [c|]; [|reflexivity].
    now destruct (isTyping c).
  - now destruct confirmed.
  - unfold printButtonClick.
    destruct (TypewriterConsole.button_disabled (console w)); [reflexivity|].
    unfold submit, TypewriterConsole.handlePrint. now destruct (negb _).
  - unfold polishButtonClick.
    now destruct (TypewriterConsole.polishButton_onClick (console w)) as [k [arg|]].
  - unfold polishSettles. now destruct (polishing w).
  - reflexivity.
Qed.

(** X11.  The machine changes position only by a pointer move during its
    own drag session, and then to the pointer less the recorded offset:
    no other event, and no drag of a card, moves it. *)
Theorem machine_moves_only_in_drag (w : World) (ev : Event)
    (Hmoved : App.machinePos (app (step W ev w)) <> App.machinePos (app w)) :
  exists qx qy,
    pointerMove ev = Some (qx, qy) /\
    App.isDraggingMachine (app w) = true /\
    App.machinePos (app (step W ev w)) =
    Coordinates.mk (qx - Coordinates.x (App.machineDragOffset (app w)))
                   (qy - Coordinates.y (App.machineDragOffset (app w))).
Proof.
  destruct (pointerMove ev) as [[qx qy]|] eqn:P.
  - exists qx, qy. split; [reflexivity|].
    destruct (App.isDraggingMachine (app w)) eqn:D.
    + split; [reflexivity|].
      pose proof (move_machine W ev qx qy w P D) as M. unfold machine_of in M.
      now injection M.
    + exfalso. apply Hmoved.
      assert (Hm : Forall (fun ev0 => pointerMove ev0 <> None) [ev])
        by (constructor; [congruence|constructor]).
      pose proof (moves_machine_idle W [ev] w Hm D) as M.
      unfold machine_of in M. cbn [run fold_left] in M. now injection M.
  - exfalso. apply Hmoved. now apply step_machine.
Qed.

Lemma step_topZ ev w :
  App.topZIndex (app (step W ev w)) = App.topZIndex (app w) \/
  (isPaperDown ev = true /\
   App.topZIndex (app (step W ev w)) = (App.topZIndex (app w) + 1)%Z).
Proof.
  destruct ev; cbn [step isPaperDown].
  - left. unfold withApp, App.handleMachineMouseDown. cbn [app].
    now destruct (Dom.closest_interactive _).
  - left. unfold withApp, App.handleMachineTouchStart. cbn [app].
    now destruct (Dom.closest_interactive _).
  - destruct (pointerDown_topZ id0 (fun p => DraggablePaper.handleMouseDown p e) w)
      as [E|E]; [reflexivity|now left|now right].
  - destruct (pointerDown_topZ id0 (fun p => DraggablePaper.handleTouchStart p e) w)
      as [E|E]; [reflexivity|now left|now right].
  - left. rewrite withEveryPaper_topZ
      by exact (topZ_move _ _ _ (move_handler_mouse e)).
    unfold withApp, App.handleMouseMove. cbn [app].
    now destruct (App.isDraggingMachine _).
  - left. rewrite withEveryPaper_topZ by reflexivity. reflexivity.
  - left. rewrite withEveryPaper_topZ
      by exact (topZ_move _ _ _ (move_handler_touch e)).
    unfold withApp, App.handleTouchMove. cbn [app].
    now destruct (App.isDraggingMachine _).
  - left. rewrite withEveryPaper_topZ by reflexivity. reflexivity.
  - left. unfold typingTimerFires. apply withPaper_topZ.
    intros c st s. apply topZ_timer.
  - left. destruct (findCard id0 (app w)) as [c|]; [|reflexivity].
    now destruct (isTyping c).
  - left. now destruct confirmed.
  - left. unfold printButtonClick.
    destruct (TypewriterConsole.button_disabled (console w)); [reflexivity|].
    unfold submit, TypewriterConsole.handlePrint. now destruct (negb _).
  - left. unfold polishButtonClick.
    now destruct (TypewriterConsole.polishButton_onClick (console w)) as [k [arg|]].
  - left. unfold polishSettles. now destruct (polishing w).
  - now left.
Qed.

(** X12.  The stacking counter never decreases: over any events it grows
    by at most the number of pointer-downs on cards among them, and no
    other event changes it. *)
Theorem stacking_counter_monotone (evs : list Event) (w : World) :
  (App.topZIndex (app w) <= App.topZIndex (app (run W evs w)))%Z /\
  (App.topZIndex (app (run W evs w))
   <= App.topZIndex (app w) + Z.of_nat (List.length (filter isPaperDown evs)))%Z.
Proof.
  revert w. induction evs as [|ev evs IH]; intros w.
  - simpl. lia.
  - cbn [run fold_left filter].
    change (fold_left (fun w ev => step W ev w) evs (step W ev w))
      with (run W evs (step W ev w)).
    destruct (IH (step W ev w)) as [A B].
    destruct (step_topZ ev w) as [E | [D E]].
    + rewrite E in A, B. destruct (isPaperDown ev); cbn [List.length]; lia.
    + rewrite D. rewrite E in A, B. cbn [List.length]. lia.
Qed.

End WithConstants.

End MachineAndCounter.

Section MachineWitness.

Import Desk.

Lemma machine_moves_only_in_drag_witness :
  let w := step 280 (MachineMouseDown (Dom.mkMouse [Dom.div] 600 500)) (initial 1024 768) in
  let ev := WindowMouseMove (Dom.mkMouse [] 610 520) in
  exists qx qy,
    pointerMove ev = Some (qx, qy) /\
    App.isDraggingMachine (app w) = true /\
    App.machinePos (app (step 280 ev w)) =
    Coordinates.mk (qx - Coordinates.x (App.machineDragOffset (app w)))
                   (qy - Coordinates.y (App.machineDragOffset (app w))).
Proof.
  intros w ev. apply (machine_moves_only_in_drag 280 w ev).
  vm_compute. intros H. discriminate.
Defined.

End MachineWitness.
(** ** What holds of the whole collection of cards *)

Section CardListInvariant.

Import Desk.

Variable W : Q.

(** A property of the list of cards, and what a print may rely on. *)
Variable P : list PaperCardData.t -> Prop.
Variable printable : App.PrintEnv -> list PaperCardData.t -> Prop.

Hypothesis P_update : forall j u l,
  id_ u = None -> text_ u = None -> rotation_ u = None -> timestamp_ u = None ->
  P l -> P (App.cards (App.handleUpdateCard j u (App.mk l 0 (Coordinates.mk 0 0) false
                                                        (Coordinates.mk 0 0)))).
Hypothesis P_focus : forall j s, P (App.cards s) -> P (App.cards (App.handleFocus j s)).
Hypothesis P_delete : forall j s, P (App.cards s) -> P (App.cards (App.handleDeleteCard j s)).
Hypothesis P_clear : P [].
Hypothesis P_print : forall env txt s,
  JsString.truthy (JsString.trim txt) = true ->
  printable env (App.cards s) -> P (App.cards s) ->
  P (App.cards (App.handlePrint W env txt s)).

Lemma P_update_state j u s :
  id_ u = None -> text_ u = None -> rotation_ u = None -> timestamp_ u = None ->
  P (App.cards s) -> P (App.cards (App.handleUpdateCard j u s)).
Proof. intros A B C D H. exact (P_update j u (App.cards s) A B C D H). Qed.

Lemma withPaper_P j h w :
  (forall c st s, P (App.cards s) -> P (App.cards (snd (h (propsFor c) (st, s))))) ->
  P (App.cards (app w)) -> P (App.cards (app (withPaper j h w))).
Proof.
  intros N H. destruct (withPaper_app j h w) as [-> | [c [st [_ [_ ->]]]]];
    [exact H | now apply N].
Qed.

Lemma withEveryPaper_P h w :
  (forall c st s, P (App.cards s) -> P (App.cards (snd (h (propsFor c) (st, s))))) ->
  P (App.cards (app w)) -> P (App.cards (app (withEveryPaper h w))).
Proof.
  intros N. unfold withEveryPaper. generalize (map fst (papers w)). intros ids.
  revert w. induction ids as [|j ids IH]; intros w H; simpl; [exact H|].
  apply IH. now apply withPaper_P.
Qed.

Lemma pointerDown_P j h w :
  (forall c st s, P (App.cards s) -> P (App.cards (snd (h (propsFor c) (st, s))))) ->
  P (App.cards (app w)) -> P (App.cards (app (paperPointerDown j h w))).
Proof.
  intros N H. unfold paperPointerDown.
  destruct (findCard j (app w)) as [c|]; [|exact H].
  destruct (isTyping c); [exact H|]. now apply withPaper_P.
Qed.

Lemma move_P qx qy h :
  move_handler qx qy h ->
  forall c st s, P (App.cards s) -> P (App.cards (snd (h (propsFor c) (st, s)))).
Proof.
  intros M c st s H. rewrite M. destruct (DraggablePaper.isDragging st); [|exact H].
  cbn [snd]. now apply P_update_state.
Qed.

Lemma step_P ev w :
  match ev with
  | PrintButtonClick env => printable env (App.cards (app w))
  | _ => True
  end ->
  P (App.cards (app w)) -> P (App.cards (app (step W ev w))).
Proof.
  intros Hp H. destruct ev; cbn [step].
  - unfold withApp, App.handleMachineMouseDown. cbn [app].
    now destruct (Dom.closest_interactive _).
  - unfold withApp, App.handleMachineTouchStart. cbn [app].
    now destruct (Dom.closest_interactive _).
  - apply pointerDown_P; [|exact H]. intros c st s Hs. now apply P_focus.
  - apply pointerDown_P; [|exact H]. intros c st s Hs. now apply P_focus.
  - apply withEveryPaper_P; [exact (move_P _ _ _ (move_handler_mouse e))|].
    unfold withApp, App.handleMouseMove. cbn [app].
    now destruct (App.isDraggingMachine _).
  - apply withEveryPaper_P; [now intros c st s Hs|exact H].
  - apply withEveryPaper_P; [exact (move_P _ _ _ (move_handler_touch e))|].
    unfold withApp, App.handleTouchMove. cbn [app].
    now destruct (App.isDraggingMachine _).
  - apply withEveryPaper_P; [now intros c st s Hs|exact H].
  - unfold typingTimerFires. apply withPaper_P; [|exact H].
    intros c st s Hs. destruct (DraggablePaper.typingTimeout st); [|exact Hs].
    unfold DraggablePaper.typeNextChar.
    cbn [DraggablePaper.set_typingTimeout DraggablePaper.textIndex].
    destruct (_ <? _)%nat; [exact Hs|]. cbn [snd]. now apply P_update_state.
  - destruct (findCard id0 (app w)) as [c|]; [|exact H].
    destruct (isTyping c); [exact H|]. now apply P_delete.
  - destruct confirmed; [exact P_clear|exact H].
  - unfold printButtonClick.
    destruct (TypewriterConsole.button_disabled (console w)); [exact H|].
    unfold submit, TypewriterConsole.handlePrint.
    destruct (JsString.truthy (JsString.trim (TypewriterConsole.input (console w))))
      eqn:T; cbn [negb]; [|exact H].
    cbn [app]. now apply P_print.
  - unfold polishButtonClick.
    now destruct (TypewriterConsole.polishButton_onClick (console w)) as [k [arg|]].
  - unfold polishSettles. now destruct (polishing w).
  - exact H.
Qed.

Lemma run_P evs w :
  printable_run W printable evs w ->
  P (App.cards (app w)) -> P (App.cards (app (run W evs w))).
Proof.
  revert w. induction evs as [|ev evs IH]; intros w Hp H; [exact H|].
  destruct Hp as [Hp Hps]. cbn [run fold_left].
  change (fold_left (fun w ev => step W ev w) evs (step W ev w))
    with (run W evs (step W ev w)).
  apply IH; [exact Hps|]. now apply step_P.
Qed.

End CardListInvariant.
(** ** Every card of the desk; the ids of the cards *)

Section EveryCard.

Import Desk.

Variable C : PaperCardData.t -> Prop.

Hypothesis C_merge : forall c u,
  id_ u = None -> text_ u = None -> rotation_ u = None -> timestamp_ u = None ->
  C c -> C (merge c u).

Lemma every_update j u l :
  id_ u = None -> text_ u = None -> rotation_ u = None -> timestamp_ u = None ->
  Forall C l ->
  Forall C (App.cards (App.handleUpdateCard j u
              (App.mk l 0 (Coordinates.mk 0 0) false (Coordinates.mk 0 0)))).
Proof.
  intros A B D E H. unfold App.handleUpdateCard, App.setCards. cbn [App.cards].
  induction H as [|c l Hc H IH]; simpl; constructor; [|exact IH].
  destruct (JsString.eqb (id c) j); [now apply C_merge | exact Hc].
Qed.

Lemma every_filter (f : PaperCardData.t -> bool) l :
  Forall C l -> Forall C (filter f l).
Proof.
  intros H. induction H as [|c l Hc H IH]; simpl; [constructor|].
  destruct (f c); [now constructor | exact IH].
Qed.

Lemma every_focus j s :
  Forall C (App.cards s) -> Forall C (App.cards (App.handleFocus j s)).
Proof.
  intros H. unfold App.handleFocus, App.setTopZIndex, App.setCards.
  cbn [App.cards]. rewrite map_spread_matching.
  destruct (find _ (App.cards s)) as [card|] eqn:F; [|exact H].
  apply Forall_app. split; [now apply every_filter|].
  constructor; [|constructor].
  apply find_some in F as [I _]. exact (proj1 (Forall_forall _ _) H _ I).
Qed.

Lemma every_delete j s :
  Forall C (App.cards s) -> Forall C (App.cards (App.handleDeleteCard j s)).
Proof. intros H. now apply every_filter. Qed.

End EveryCard.

Section CardIds.

Import Desk.

Lemma NoDup_snoc {A} (l : list A) (a : A) :
  NoDup l -> ~ In a l -> NoDup (l ++ [a]).
Proof.
  intros H. induction H as [|b l Hb H IH]; intros N; simpl.
  - constructor; [intros []|constructor].
  - constructor.
    + rewrite in_app_iff. intros [I | [E | []]]; [now apply Hb|].
      apply N. now left.
    + apply IH. intros I. apply N. now right.
Qed.

Lemma ids_filter (f : PaperCardData.t -> bool) l i :
  In i (map id (filter f l)) -> In i (map id l).
Proof.
  rewrite !in_map_iff. intros [c [E I]]. exists c. split; [exact E|].
  now apply filter_In in I.
Qed.

Lemma NoDup_ids_filter (f : PaperCardData.t -> bool) l :
  NoDup (map id l) -> NoDup (map id (filter f l)).
Proof.
  induction l as [|c l IH]; simpl; intros H; [constructor|].
  inversion H as [|? ? N H']; subst.
  destruct (f c); simpl; [|now apply IH].
  constructor; [|now apply IH]. intros I. apply N. now apply ids_filter in I.
Qed.

Lemma ids_update j u l :
  id_ u = None ->
  map id (App.cards (App.handleUpdateCard j u
            (App.mk l 0 (Coordinates.mk 0 0) false (Coordinates.mk 0 0)))) = map id l.
Proof.
  intros A. unfold App.handleUpdateCard, App.setCards. cbn [App.cards].
  induction l as [|c l IH]; simpl; [reflexivity|]. rewrite IH. f_equal.
  destruct (JsString.eqb (id c) j); [|reflexivity].
  unfold merge. cbn [id]. now rewrite A.
Qed.

Lemma NoDup_ids_focus j s :
  NoDup (map id (App.cards s)) -> NoDup (map id (App.cards (App.handleFocus j s))).
Proof.
  intros H. unfold App.handleFocus, App.setTopZIndex, App.setCards.
  cbn [App.cards]. rewrite map_spread_matching.
  destruct (find _ (App.cards s)) as [card|] eqn:F; [|exact H].
  rewrite map_app. apply NoDup_snoc; [now apply NoDup_ids_filter|].
  apply find_some in F as [_ E]. apply JsString_eqb_eq in E.
  rewrite in_map_iff. intros [c [Ec I]]. apply filter_In in I as [_ I].
  rewrite Ec, E, JsString_eqb_refl in I. discriminate.
Qed.

Lemma printable_run_top W evs w : printable_run W (fun _ _ => True) evs w.
Proof.
  revert w. induction evs as [|ev evs IH]; intros w; simpl; [exact I|].
  split; [now destruct ev | apply IH].
Qed.

Section WithConstants.

Variable W : Q.

(** X13.  The ids of the cards on the desk stay pairwise distinct, as
    long as every print draws an id that no card on the desk has. *)
Theorem ids_stay_unique (w : World) (evs : list Event)
    (Hw : NoDup (map id (App.cards (app w))))
    (Hfresh : printable_run W fresh_id evs w) :
  NoDup (map id (App.cards (app (run W evs w)))).
Proof.
  apply (run_P W (fun l => NoDup (map id l)) fresh_id); try assumption.
  - intros j u l A _ _ _ H. now rewrite ids_update.
  - exact NoDup_ids_focus.
  - intros j s H. now apply NoDup_ids_filter.
  - constructor.
  - intros env txt s _ F H. unfold App.handlePrint, App.setCards.
    cbn [App.cards]. rewrite map_app. apply NoDup_snoc; [exact H|].
    cbn [map id]. rewrite in_map_iff. intros [c [E I]].
    exact (proj1 (Forall_forall _ _) F c I E).
Qed.

(** X14.  No card on the desk ever has blank text: whatever the page has
    received since it was loaded, the text of every card has a code unit
    that is not white space. *)
Theorem no_blank_card (w : World) (Hreach : reachable W w) :
  Forall (fun c => JsString.truthy (JsString.trim (text c)) = true)
         (App.cards (app w)).
Proof.
  destruct Hreach as [history [iw [ih ->]]].
  apply (run_P W (Forall (fun c => JsString.truthy (JsString.trim (text c)) = true))
               (fun _ _ => True)).
  - intros j u l A B D E H. apply every_update; try assumption.
    intros c u' _ B' _ _ Hc. unfold merge. cbn [text]. now rewrite B'.
  - intros j s. now apply every_focus.
  - intros j s. now apply every_delete.
  - constructor.
  - intros env txt s T _ H. unfold App.handlePrint, App.setCards.
    cbn [App.cards]. apply Forall_app. split; [exact H|].
    constructor; [exact T|constructor].
  - apply printable_run_top.
  - constructor.
Qed.

(** X15.  As long as every sample of [Math.random()] taken by a print
    lies in the unit interval, the rotation of every card on the desk is
    at least -2 and less than 2 degrees. *)
Theorem rotation_within_bounds (history : list Event) (iw ih : Q)
    (Hsamples : printable_run W unit_sample history (initial iw ih)) :
  Forall (fun c => -2 <= rotation c /\ rotation c < 2)
         (App.cards (app (run W history (initial iw ih)))).
Proof.
  apply (run_P W (Forall (fun c => -2 <= rotation c /\ rotation c < 2)) unit_sample).
  - intros j u l A B D E H. apply every_update; try assumption.
    intros c u' _ _ D' _ Hc. unfold merge. cbn [rotation]. now rewrite D'.
  - intros j s. now apply every_focus.
  - intros j s. now apply every_delete.
  - constructor.
  - intros env txt s _ U H. unfold App.handlePrint, App.setCards.
    cbn [App.cards]. apply Forall_app. split; [exact H|].
    constructor; [|constructor]. cbn [rotation].
    unfold unit_sample, in_unit in U. lra.
  - exact Hsamples.
  - constructor.
Qed.

End WithConstants.

End CardIds.
(** ** The properties of the page, on one session *)

Section SessionWitnesses.

Import Desk.

Lemma progress_within_bounds_witness :
  let env := App.mkPrintEnv 1024 (JsString.lit "card-1") (1 # 2) 1700000000 in
  let i := JsString.lit "card-1" in
  let w := run 280 [TextareaChange (JsString.lit "abc"); PrintButtonClick env;
                    TypingTimerFires i React.AtRender 0;
                    TypingTimerFires i React.AtDispatch (1 # 3)] (initial 1024 768) in
  exists c st,
    paper i w = Some (c, st) /\
    (List.length (DraggablePaper.displayedText st) <= List.length (text c))%nat /\
    0 <= DraggablePaper.progress (propsFor c) st /\
    DraggablePaper.progress (propsFor c) st <= 1.
Proof.
  intros env i w.
  assert (P : exists c st, paper i w = Some (c, st))
    by (do 2 eexists; lazy; reflexivity).
  destruct P as [c [st P]].
  assert (R : reachable 280 w).
  { exists [TextareaChange (JsString.lit "abc"); PrintButtonClick env;
            TypingTimerFires i React.AtRender 0;
            TypingTimerFires i React.AtDispatch (1 # 3)], 1024, 768.
    reflexivity. }
  exists c, st. split; [exact P|].
  destruct (progress_within_bounds 280 w i c st R P) as [A [B _]].
  split; [exact A | exact B].
Defined.

Lemma position_changes_only_in_drag_witness :
  let env := App.mkPrintEnv 1024 (JsString.lit "card-1") (1 # 2) 1700000000 in
  let i := JsString.lit "card-1" in
  let w := run 280 [TextareaChange (JsString.lit "a"); PrintButtonClick env;
                    TypingTimerFires i React.AtDispatch 0;
                    TypingTimerFires i React.AtDispatch 0;
                    PaperMouseDown i (Dom.mkMouse [Dom.div] 600 300)]
               (initial 1024 768) in
  let ev := WindowMouseMove (Dom.mkMouse [] 610 320) in
  exists c, findCard i (app w) = Some c /\ isTyping c = false.
Proof.
  intros env i w ev.
  assert (A : exists c c', findCard i (app w) = Some c /\
                           findCard i (app (step 280 ev w)) = Some c' /\
                           (x c' <> x c \/ y c' <> y c)).
  { do 2 eexists. split; [lazy; reflexivity|]. split; [lazy; reflexivity|].
    left. lazy. intros E. discriminate E. }
  destruct A as [c [c' [B [A M]]]].
  assert (R : reachable 280 w).
  { exists [TextareaChange (JsString.lit "a"); PrintButtonClick env;
            TypingTimerFires i React.AtDispatch 0;
            TypingTimerFires i React.AtDispatch 0;
            PaperMouseDown i (Dom.mkMouse [Dom.div] 600 300)], 1024, 768.
    reflexivity. }
  exists c. split; [exact B|].
  exact (proj1 (position_changes_only_in_drag 280 w ev i c c' R B A M)).
Defined.

Lemma card_fields_fixed_witness :
  let env := App.mkPrintEnv 1024 (JsString.lit "card-1") (1 # 2) 1700000000 in
  let i := JsString.lit "card-1" in
  let w := run 280 [TextareaChange (JsString.lit "a"); PrintButtonClick env]
               (initial 1024 768) in
  let evs := [TypingTimerFires i React.AtDispatch 0;
              TypingTimerFires i React.AtDispatch 0;
              PaperMouseDown i (Dom.mkMouse [Dom.div] 600 300);
              WindowMouseMove (Dom.mkMouse [] 610 320);
              WindowMouseUp] in
  exists c c',
    findCard i (app w) = Some c /\ findCard i (app (run 280 evs w)) = Some c' /\
    text c' = text c /\ rotation c' = rotation c.
Proof.
  intros env i w evs.
  assert (A : exists c c', findCard i (app w) = Some c /\
                           findCard i (app (run 280 evs w)) = Some c').
  { do 2 eexists. split; lazy; reflexivity. }
  destruct A as [c [c' [B A]]].
  assert (R : reachable 280 w).
  { exists [TextareaChange (JsString.lit "a"); PrintButtonClick env], 1024, 768.
    reflexivity. }
  assert (F : fresh_for i evs) by (repeat constructor).
  exists c, c'. split; [exact B|]. split; [exact A|].
  destruct (card_fields_fixed 280 w evs i c c' R F B A) as [_ [T [Ro _]]].
  split; [exact T | exact Ro].
Defined.

Lemma ids_stay_unique_witness :
  let env1 := App.mkPrintEnv 1024 (JsString.lit "card-1") (1 # 2) 1700000000 in
  let env2 := App.mkPrintEnv 1024 (JsString.lit "card-2") (1 # 4) 1700000001 in
  let evs := [TextareaChange (JsString.lit "a"); PrintButtonClick env1;
              TextareaChange (JsString.lit "b"); PrintButtonClick env2;
              PaperMouseDown (JsString.lit "card-1") (Dom.mkMouse [Dom.div] 600 300)] in
  NoDup (map id (App.cards (app (run 280 evs (initial 1024 768))))).
Proof.
  intros env1 env2 evs. apply (ids_stay_unique 280 (initial 1024 768) evs).
  - constructor.
  - vm_compute. repeat split; repeat constructor. intros E. discriminate E.
Defined.

Lemma no_blank_card_witness :
  let env := App.mkPrintEnv 1024 (JsString.lit "card-1") (1 # 2) 1700000000 in
  let w := run 280 [TextareaChange (JsString.lit " a "); PrintButtonClick env;
                    TextareaChange (JsString.lit "  "); PrintButtonClick env]
               (initial 1024 768) in
  Forall (fun c => JsString.truthy (JsString.trim (text c)) = true)
         (App.cards (app w)).
Proof.
  intros env w. apply (no_blank_card 280 w).
  exists [TextareaChange (JsString.lit " a "); PrintButtonClick env;
          TextareaChange (JsString.lit "  "); PrintButtonClick env], 1024, 768.
  reflexivity.
Defined.

Lemma rotation_within_bounds_witness :
  let env1 := App.mkPrintEnv 1024 (JsString.lit "card-1") 0 1700000000 in
  let env2 := App.mkPrintEnv 1024 (JsString.lit "card-2") (99 # 100) 1700000001 in
  let evs := [TextareaChange (JsString.lit "a"); PrintButtonClick env1;
              TextareaChange (JsString.lit "b"); PrintButtonClick env2] in
  Forall (fun c => -2 <= rotation c /\ rotation c < 2)
         (App.cards (app (run 280 evs (initial 1024 768)))).
Proof.
  intros env1 env2 evs. apply (rotation_within_bounds 280 evs 1024 768).
  subst evs env1 env2. cbn [printable_run]. unfold unit_sample, in_unit.
  cbn [App.random]. repeat split; lra.
Defined.

End SessionWitnesses.
(** ** Cadence, for every length *)

Section CadenceAllLengths.

Import DraggablePaper.

(** X16.  With the same sample of [Math.random()], a longer text never
    gets a longer delay after a character than a shorter one, and every
    such delay is at least 5 and at most 80 milliseconds. *)
Theorem delay_monotone (l1 l2 : nat) (r : Q)
    (Hr : in_unit r) (Hl : (l1 <= l2)%nat) :
  delay l2 r <= delay l1 r /\ 5 <= delay l2 r /\ delay l1 r <= 80.
Proof.
  destruct Hr as [H0 H1]. unfold delay.
  destruct (Nat.ltb_spec 150 l1), (Nat.ltb_spec 150 l2),
           (Nat.ltb_spec 50 l1), (Nat.ltb_spec 50 l2);
    try lia; repeat split; lra.
Qed.

Lemma delay_monotone_witness :
  delay 151 (1 # 2) <= delay 150 (1 # 2) /\
  5 <= delay 151 (1 # 2) /\ delay 150 (1 # 2) <= 80.
Proof.
  apply (delay_monotone 150 151 (1 # 2)); [split; [discriminate|reflexivity] | lia].
Defined.

End CadenceAllLengths.

Section CadenceBinary64.

Import PrimFloat.

(** The upper bounds are reached on binary64 numbers: for the greatest
    sample below 1 the products round up, and the delay is exactly 80, 40
    and 20 milliseconds. *)
Lemma delay_reaches_upper_bound_binary64 :
  let random := 0x1.fffffffffffffp-1%float in
  PrimFloat.ltb random 1 = true /\
  Binary64.DraggablePaper.delay 10 random = 80%float /\
  Binary64.DraggablePaper.delay 100 random = 40%float /\
  Binary64.DraggablePaper.delay 300 random = 20%float.
Proof. repeat split; vm_compute; reflexivity. Qed.

End CadenceBinary64.

(** ** The console on the page *)

Section ConsoleOnThePage.

Import Desk.

Lemma withPaper_console j h w : desk_console (withPaper j h w) = desk_console w.
Proof.
  unfold withPaper. destruct (findCard j (app w)) as [c|]; [|reflexivity].
  destruct (lookup j (papers w)) as [st|]; [|reflexivity].
  now destruct (h (propsFor c) (st, app w)).
Qed.

Lemma withEveryPaper_console h w : desk_console (withEveryPaper h w) = desk_console w.
Proof.
  unfold withEveryPaper. generalize (map fst (papers w)). intros ids.
  revert w. induction ids as [|j ids IH]; intros w; simpl; [reflexivity|].
  rewrite IH. apply withPaper_console.
Qed.

Lemma pointerDown_console j h w : desk_console (paperPointerDown j h w) = desk_console w.
Proof.
  unfold paperPointerDown. destruct (findCard j (app w)) as [c|]; [|reflexivity].
  destruct (isTyping c); [reflexivity|]. apply withPaper_console.
Qed.

Section WithConstants.

Variable W : Q.

(** While a rewrite is in flight only its settling changes the mode and
    the rewrites in flight. *)
Lemma thinking_step ev w :
  TypewriterConsole.state (console w) = THINKING ->
  isPolishSettles ev = false ->
  TypewriterConsole.state (console (step W ev w)) = THINKING /\
  polishing (step W ev w) = polishing w.
Proof.
  intros T N.
  assert (K : forall w', desk_console w' = desk_console w ->
            TypewriterConsole.state (console w') = THINKING /\
            polishing w' = polishing w).
  { intros w' E. unfold desk_console in E. injection E as -> ->. now split. }
  destruct ev; try discriminate; cbn [step].
  - now apply K.
  - now apply K.
  - apply K, pointerDown_console.
  - apply K, pointerDown_console.
  - apply K. now rewrite withEveryPaper_console.
  - apply K. now rewrite withEveryPaper_console.
  - apply K. now rewrite withEveryPaper_console.
  - apply K. now rewrite withEveryPaper_console.
  - apply K, withPaper_console.
  - apply K. destruct (findCard id0 (app w)) as [c|]; [|reflexivity].
    now destruct (isTyping c).
  - now apply K.
  - unfold printButtonClick, TypewriterConsole.button_disabled. rewrite T.
    now split.
  - unfold polishButtonClick, TypewriterConsole.polishButton_onClick,
      TypewriterConsole.button_disabled. rewrite T. now split.
  - now split.
Qed.

Lemma thinking_run evs w :
  TypewriterConsole.state (console w) = THINKING ->
  Forall (fun ev => isPolishSettles ev = false) evs ->
  TypewriterConsole.state (console (run W evs w)) = THINKING /\
  polishing (run W evs w) = polishing w.
Proof.
  revert w. induction evs as [|ev evs IH]; intros w T F; [now split|].
  inversion F as [|? ? N F']; subst. cbn [run fold_left].
  change (fold_left (fun w ev => step W ev w) evs (step W ev w))
    with (run W evs (step W ev w)).
  destruct (thinking_step ev w T N) as [T1 Q1].
  destruct (IH _ T1 F') as [T2 Q2]. split; [exact T2|congruence].
Qed.

(** X17.  A click on the rewrite button, with the console idle and its
    buffer not blank, starts one rewrite of the buffer as it is then.
    Until the rewrite settles, whatever else happens on the page, the
    mode stays THINKING and no other rewrite starts.  When it settles the
    mode is IDLE again and the buffer holds the non-empty text the model
    answered, or else the text the rewrite was started with: what was
    typed in between is replaced. *)
Theorem rewrite_settles (w : World) (evs : list Event) (env : geminiService.Env)
    (Hidle : TypewriterConsole.state (console w) = IDLE)
    (Hnone : polishing w = [])
    (Hinput : JsString.truthy (JsString.trim (TypewriterConsole.input (console w)))
              = true)
    (Hevs : Forall (fun ev => isPolishSettles ev = false) evs) :
  let started := TypewriterConsole.input (console w) in
  let w1 := run W evs (step W PolishButtonClick w) in
  (TypewriterConsole.state (console w1) = THINKING /\ polishing w1 = [started]) /\
  console (step W (PolishSettles env) w1) =
    TypewriterConsole.mk
      (match answer env started with
       | Some (c :: s) => c :: s
       | _ => started
       end) IDLE /\
  polishing (step W (PolishSettles env) w1) = [].
Proof.
  intros started w1.
  assert (S0 : TypewriterConsole.state (console (step W PolishButtonClick w)) = THINKING /\
               polishing (step W PolishButtonClick w) = [started]).
  { cbn [step]. unfold polishButtonClick, TypewriterConsole.polishButton_onClick,
      TypewriterConsole.button_disabled, TypewriterConsole.handlePolish.
    rewrite Hidle, Hinput. cbn. now rewrite Hnone. }
  destruct S0 as [T0 Q0].
  destruct (thinking_run evs _ T0 Hevs) as [T1 Q1]. fold w1 in T1, Q1.
  rewrite Q0 in Q1. split; [now split|].
  cbn [step]. unfold polishSettles. rewrite Q1.
  rewrite polishTextToVintage_cases. cbn. now split.
Qed.

(** X18.  A print empties the buffer, so a second click on the print
    button with nothing typed in between prints nothing. *)
Theorem print_once (w : World) (env1 env2 : App.PrintEnv) :
  step W (PrintButtonClick env2) (step W (PrintButtonClick env1) w)
  = step W (PrintButtonClick env1) w.
Proof.
  cbn [step]. unfold printButtonClick.
  destruct (TypewriterConsole.button_disabled (console w)) eqn:D.
  - now rewrite D.
  - assert (E : TypewriterConsole.button_disabled (console (submit W env1 w)) = true).
    { unfold submit, TypewriterConsole.handlePrint.
      destruct (negb (JsString.truthy
                        (JsString.trim (TypewriterConsole.input (console w))))) eqn:B.
      - unfold TypewriterConsole.button_disabled in D. rewrite B in D.
        now rewrite orb_true_r in D.
      - unfold TypewriterConsole.button_disabled. cbn. apply orb_true_r. }
    now rewrite E.
Qed.

End WithConstants.

End ConsoleOnThePage.

Section ConsoleWitnesses.

Import Desk.

Lemma rewrite_settles_witness :
  let env := geminiService.mkEnv None
               (fun _ _ _ => geminiService.Thrown (JsString.lit "offline")) in
  let w := step 280 (TextareaChange (JsString.lit "hello")) (initial 1024 768) in
  let evs := [TextareaChange (JsString.lit "hello there");
              PrintButtonClick (App.mkPrintEnv 1024 (JsString.lit "card-1") 0 0);
              PolishButtonClick] in
  console (step 280 (PolishSettles env) (run 280 evs (step 280 PolishButtonClick w)))
  = TypewriterConsole.mk (JsString.lit "hello") IDLE.
Proof.
  intros env w evs.
  refine (proj1 (proj2 (rewrite_settles 280 w evs env _ _ _ _))).
  - reflexivity.
  - reflexivity.
  - reflexivity.
  - repeat constructor.
Defined.

End ConsoleWitnesses.
